(** * gim: the editing core of a modal terminal editor

    A shallow embedding of [internal/theme/theme.go] (group resolution),
    [internal/editor/renderer.go] (frame layout, cursor mapping) and
    [internal/editor/editor.go] (modes, key handling, commands), followed
    by the properties established about them. *)

From Stdlib Require Import ZArith List String Ascii Bool Lia DecimalString.
From stdpp Require Import base gmap sets list strings.
From Equations Require Import Equations.

Local Open Scope Z_scope.

(** ** The Go notions the sources rely on *)

Module Go.

(** How a call ends: it returns, it panics (index or slice bound out of
    range, division by zero, negative [make] length), the process exits
    through [os.Exit], or a loop never exits.  Go's [int] has 64 bits;
    every integer below is a slice or string length, an index next to
    one, or a sum of such quotients, so it is taken in [Z]. *)
Inductive outcome (A : Type) : Type :=
| Ret (a : A)
| Panic
| Exit (code : Z)
| Hang.
Arguments Ret {A} a.
Arguments Panic {A}.
Arguments Exit {A} code.
Arguments Hang {A}.

#[global] Instance outcome_ret : MRet outcome := fun _ a => Ret a.
#[global] Instance outcome_bind : MBind outcome := fun _ _ f m =>
  match m with
  | Ret a => f a
  | Panic => Panic
  | Exit c => Exit c
  | Hang => Hang
  end.

(** [len(s)] of a string (its bytes) and of a slice. *)
Definition len (s : string) : Z := Z.of_nat (String.length s).
Definition lenS {A : Type} (l : list A) : Z := Z.of_nat (length l).

(** [l[i]] as a read, with the bounds check. *)
Definition index {A : Type} (l : list A) (i : Z) : outcome A :=
  if i <? 0 then Panic
  else match l !! Z.to_nat i with
       | Some a => Ret a
       | None => Panic
       end.

(** [l[i] = v], with the bounds check. *)
Definition store {A : Type} (l : list A) (i : Z) (v : A) : outcome (list A) :=
  if (i <? 0) || (lenS l <=? i) then Panic
  else Ret (<[Z.to_nat i := v]> l).

(** [s[lo:hi]] on a string. *)
Definition slice (s : string) (lo hi : Z) : outcome string :=
  if (0 <=? lo) && (lo <=? hi) && (hi <=? len s)
  then Ret (substring (Z.to_nat lo) (Z.to_nat (hi - lo)) s)
  else Panic.

(** [a / b] on ints: truncated, and a panic when [b] is zero. *)
Definition div (a b : Z) : outcome Z :=
  if b =? 0 then Panic else Ret (Z.quot a b).

(** [make([]T, n)] filled with the zero value [z]. *)
Definition make {A : Type} (z : A) (n : Z) : outcome (list A) :=
  if n <? 0 then Panic else Ret (replicate (Z.to_nat n) z).

Definition byteZ (a : ascii) : Z := Z.of_N (N_of_ascii a).
Definition byteOf (z : Z) : ascii := ascii_of_N (Z.to_N z).

(** *** UTF-8, as [for _, c := range s] and [string(rune)] use it *)

Definition RuneError : Z := 65533.

Definition between (lo hi b : Z) : bool := (lo <=? b) && (b <=? hi).
Definition isCont (b : Z) : bool := between 128 191 b.

(** The accepted range of the second byte, by first byte, for sequences
    of three and of four bytes. *)
Definition second3 (b0 b1 : Z) : bool :=
  if b0 =? 224 then between 160 191 b1
  else if b0 =? 237 then between 128 159 b1
  else between 225 239 b0 && isCont b1.
Definition second4 (b0 b1 : Z) : bool :=
  if b0 =? 240 then between 144 191 b1
  else if b0 =? 244 then between 128 143 b1
  else between 241 243 b0 && isCont b1.

Definition low6 (b : Z) : Z := Z.land b 63.

(** The runes a [range] loop over [s] yields, in order: a well-formed
    sequence gives its code point, any other byte gives [RuneError] and
    is skipped alone. *)
Fixpoint runes (s : string) : list Z :=
  match s with
  | EmptyString => []
  | String a0 s1 =>
    let b0 := byteZ a0 in
    if b0 <? 128 then b0 :: runes s1
    else
      match s1 with
      | String a1 s2 =>
        let b1 := byteZ a1 in
        if between 194 223 b0 && isCont b1
        then Z.lor (Z.shiftl (Z.land b0 31) 6) (low6 b1) :: runes s2
        else
          match s2 with
          | String a2 s3 =>
            let b2 := byteZ a2 in
            if second3 b0 b1 && isCont b2
            then Z.lor (Z.shiftl (Z.land b0 15) 12)
                   (Z.lor (Z.shiftl (low6 b1) 6) (low6 b2)) :: runes s3
            else
              match s3 with
              | String a3 s4 =>
                let b3 := byteZ a3 in
                if second4 b0 b1 && isCont b2 && isCont b3
                then Z.lor (Z.shiftl (Z.land b0 7) 18)
                       (Z.lor (Z.shiftl (low6 b1) 12)
                          (Z.lor (Z.shiftl (low6 b2) 6) (low6 b3))) :: runes s4
                else RuneError :: runes s1
              | EmptyString => RuneError :: runes s1
              end
          | EmptyString => RuneError :: runes s1
          end
      | EmptyString => RuneError :: runes s1
      end
  end.

Definition bytes (l : list Z) : string :=
  fold_right (fun b s => String (byteOf b) s) EmptyString l.

Definition contByte (r : Z) (shift : Z) : Z :=
  Z.lor 128 (low6 (Z.shiftr r shift)).

(** [string(r)] for a rune [r]. *)
Definition encodeRune (r : Z) : string :=
  if (r <? 0) || (1114111 <? r) || between 55296 57343 r
  then bytes [239; 191; 189]
  else if r <? 128 then bytes [r]
  else if r <? 2048 then bytes [Z.lor 192 (Z.shiftr r 6); contByte r 0]
  else if r <? 65536
    then bytes [Z.lor 224 (Z.shiftr r 12); contByte r 6; contByte r 0]
  else bytes [Z.lor 240 (Z.shiftr r 18); contByte r 12; contByte r 6; contByte r 0].

(** *** [strconv.Atoi] *)

Definition digitVal (a : ascii) : option Z :=
  let b := byteZ a in
  if between 48 57 b then Some (b - 48) else None.

Fixpoint parseDigits (s : string) (acc : Z) : option Z :=
  match s with
  | EmptyString => Some acc
  | String a s' =>
    match digitVal a with
    | Some d => parseDigits s' (acc * 10 + d)
    | None => None
    end
  end.

Definition minInt : Z := - 2 ^ 63.
Definition maxInt : Z := 2 ^ 63 - 1.

(** [strconv.Atoi]: an optional sign, then one or more decimal digits,
    the value within [int]; [None] is a non-nil error. *)
Definition Atoi (s : string) : option Z :=
  match s with
  | EmptyString => None
  | String a rest =>
    let '(neg, body) :=
      if Ascii.eqb a "-" then (true, rest)
      else if Ascii.eqb a "+" then (false, rest)
      else (false, s) in
    match body with
    | EmptyString => None
    | _ =>
      match parseDigits body 0 with
      | Some n =>
        let v := if neg then - n else n in
        if between minInt maxInt v then Some v else None
      | None => None
      end
    end
  end.

(** [%v] of an int. *)
Definition itoa (z : Z) : string := NilZero.string_of_int (Z.to_int z).

End Go.

Import Go.

(** ** Theme: highlight groups and alias links *)

Module theme.

Inductive ColorKind := COLOR_NONE | COLOR_RGB | COLOR_INDEX.

Record Color := mkColor {
  Kind : ColorKind;
  Red : Z; Green : Z; Blue : Z;
  Index : Z
}.

Record TextStyle := mkTextStyle {
  Bold : bool; Italic : bool; Underline : bool; Reverse : bool
}.

Record TextHighlight := mkTextHighlight {
  Foreground : Color;
  Background : Color;
  TxtStyle : TextStyle
}.

(** The field [Background] of the source is [ThemeBackground] here, the
    name being taken by the field of [TextHighlight]; [Terminal] is the
    array of 16 colors. *)
Record Theme := mkTheme {
  Name : string;
  ThemeBackground : string;
  Groups : gmap string TextHighlight;
  Links : gmap string string;
  Terminal : list Color
}.

(** The zero values [Color{}] and [TextHighlight{}]. *)
Definition zeroColor : Color := mkColor COLOR_NONE 0 0 0 0.
Definition zeroHighlight : TextHighlight :=
  mkTextHighlight zeroColor zeroColor (mkTextStyle false false false false).

(** Remembering the equation of a lookup while matching on its result. *)
Definition inspect {A : Type} (a : A) : {b : A | a = b} := exist _ a eq_refl.

(** The body of the [for] loop of [ResolveGroup]: [visited] is the map
    used as a set, [cur] the name being looked up.  The second component
    of Go's result pair is the constructor: [Some hl] is [(hl, true)],
    [None] is [(TextHighlight{}, false)].  Each turn that does not return
    adds to [visited] a key of [Links] that was not in it, which is the
    measure of the recursion. *)
Equations? resolveFrom (t : Theme) (visited : gset string) (cur : string)
  : option TextHighlight by wf (size (dom (Links t) ∖ visited)) lt :=
  resolveFrom t visited cur with decide (cur ∈ visited) => {
    | left _ := None;
    | right _ with inspect (Groups t !! cur) => {
        | exist _ (Some hl) _ := Some hl;
        | exist _ None _ with inspect (Links t !! cur) => {
            | exist _ None _ := None;
            | exist _ (Some next) _ := resolveFrom t ({[cur]} ∪ visited) next } } }.
Proof.
  apply subset_size. split.
  - intros x. rewrite !elem_of_difference, elem_of_union. tauto.
  - intros Hsub. specialize (Hsub cur).
    rewrite !elem_of_difference, elem_of_union, elem_of_singleton in Hsub.
    apply Hsub; [|now left]. split; [|assumption].
    apply elem_of_dom. eauto.
Qed.

(** [func (t *Theme) ResolveGroup(name string) (TextHighlight, bool)];
    a nil receiver is [None]. *)
Definition ResolveGroup (t : option Theme) (name : string) : option TextHighlight :=
  match t with
  | None => None
  | Some t => resolveFrom t ∅ name
  end.

End theme.


(** ** The collaborators of the editor: terminal screen and key events *)

Module terminal.

Record Vertex := mkVertex { X : Z; Y : Z }.

(** A frame is a slice of rows; a row is nil or a slice of runes. *)
Abbreviation TextFrame := (list (option (list Z))).

(** What [toTCellColor] and [toTCellStyle] build. *)
Inductive CellColor :=
| ColorDefault
| NewRGBColor (r g b : Z)
| PaletteColor (i : Z).

Record Style := mkStyle {
  styleFg : CellColor; styleBg : CellColor;
  styleBold : bool; styleUnderline : bool; styleReverse : bool
}.

(** Modelled from the spec: [internal/screen] is not among the sources.
    The terminal driver exposes the grid size, accepts a full grid of
    characters with an optional style and a cursor position to paint,
    and shows a status text on the reserved last row.  The screen keeps
    what it was last given. *)
Record Screen := mkScreen {
  ScreenDim : Vertex;
  shownFrame : TextFrame;
  shownFrameStyle : option Style;
  shownCursor : Vertex;
  shownStatus : string;
  shownStatusStyle : option Style;
  closed : bool
}.

Definition DisplayTextFrame (fr : TextFrame) (s : Screen) : Screen :=
  mkScreen (ScreenDim s) fr None (shownCursor s) (shownStatus s)
    (shownStatusStyle s) (closed s).
Definition DisplayTextFrameStyled (fr : TextFrame) (st : Style) (s : Screen) : Screen :=
  mkScreen (ScreenDim s) fr (Some st) (shownCursor s) (shownStatus s)
    (shownStatusStyle s) (closed s).
Definition DisplayCursor (v : Vertex) (s : Screen) : Screen :=
  mkScreen (ScreenDim s) (shownFrame s) (shownFrameStyle s) v (shownStatus s)
    (shownStatusStyle s) (closed s).
Definition DisplayStatusBar (text : string) (s : Screen) : Screen :=
  mkScreen (ScreenDim s) (shownFrame s) (shownFrameStyle s) (shownCursor s) text
    None (closed s).
Definition DisplayStatusBarStyled (text : string) (st : Style) (s : Screen) : Screen :=
  mkScreen (ScreenDim s) (shownFrame s) (shownFrameStyle s) (shownCursor s) text
    (Some st) (closed s).
Definition Close (s : Screen) : Screen :=
  mkScreen (ScreenDim s) (shownFrame s) (shownFrameStyle s) (shownCursor s)
    (shownStatus s) (shownStatusStyle s) true.

(** [terminal.NewScreen()] on a terminal of the given size. *)
Definition NewScreen (dim : Vertex) : Screen :=
  mkScreen dim [] None (mkVertex 0 0) EmptyString None false.

End terminal.

Module actions.

(** The key codes of [tcell] the editor compares [event.Value] with;
    every other key is [KeyOther]. *)
Inductive Key :=
| KeyEnter | KeyEscape | KeyBackspace | KeyBackspace2
| KeyLeft | KeyRight | KeyUp | KeyDown
| KeyOther.

#[global] Instance Key_eq_dec : EqDecision Key.
Proof. solve_decision. Defined.

Record Event := mkEvent { Kind : string; Value : Key; Rune : Z }.

Definition KEY_PRESS : string := "KEY_PRESS".

(** A key press of a special key, and of a printable character. *)
Definition press (k : Key) : Event := mkEvent KEY_PRESS k 0.
Definition typed (r : Z) : Event := mkEvent KEY_PRESS KeyOther r.

End actions.

(** ** The editor: [editor.go] and [renderer.go] *)

Module editor.

Import terminal actions.

Inductive mode := MODE_NORMAL | MODE_INSERT | MODE_COMMAND_LINE.

Inductive cursorMovement := CURSOR_UP | CURSOR_DOWN | CURSOR_RIGHT | CURSOR_LEFT.

Record Editor := mkEditor {
  currentMode : mode;
  statusMessage : string;
  fileName : string;
  dataBuffer : list string;
  startLine : Z;
  cursorPos : Vertex;
  currentCommand : string;
  lastUpDownCursorMovement : cursorMovement;
  firstLineInFrame : Z;
  lastLineInFrame : Z;
  screen : Screen;
  isDirty : bool;
  theme : option theme.Theme
}.

(** Field assignments [e.f = v]. *)
Definition set_currentMode (v : mode) (e : Editor) : Editor :=
  mkEditor v (statusMessage e) (fileName e) (dataBuffer e) (startLine e)
    (cursorPos e) (currentCommand e) (lastUpDownCursorMovement e)
    (firstLineInFrame e) (lastLineInFrame e) (screen e) (isDirty e) (theme e).
Definition set_statusMessage (v : string) (e : Editor) : Editor :=
  mkEditor (currentMode e) v (fileName e) (dataBuffer e) (startLine e)
    (cursorPos e) (currentCommand e) (lastUpDownCursorMovement e)
    (firstLineInFrame e) (lastLineInFrame e) (screen e) (isDirty e) (theme e).
Definition set_dataBuffer (v : list string) (e : Editor) : Editor :=
  mkEditor (currentMode e) (statusMessage e) (fileName e) v (startLine e)
    (cursorPos e) (currentCommand e) (lastUpDownCursorMovement e)
    (firstLineInFrame e) (lastLineInFrame e) (screen e) (isDirty e) (theme e).
Definition set_cursorPos (v : Vertex) (e : Editor) : Editor :=
  mkEditor (currentMode e) (statusMessage e) (fileName e) (dataBuffer e) (startLine e)
    v (currentCommand e) (lastUpDownCursorMovement e)
    (firstLineInFrame e) (lastLineInFrame e) (screen e) (isDirty e) (theme e).
Definition set_currentCommand (v : string) (e : Editor) : Editor :=
  mkEditor (currentMode e) (statusMessage e) (fileName e) (dataBuffer e) (startLine e)
    (cursorPos e) v (lastUpDownCursorMovement e)
    (firstLineInFrame e) (lastLineInFrame e) (screen e) (isDirty e) (theme e).
Definition set_lastUpDownCursorMovement (v : cursorMovement) (e : Editor) : Editor :=
  mkEditor (currentMode e) (statusMessage e) (fileName e) (dataBuffer e) (startLine e)
    (cursorPos e) (currentCommand e) v
    (firstLineInFrame e) (lastLineInFrame e) (screen e) (isDirty e) (theme e).
Definition set_firstLineInFrame (v : Z) (e : Editor) : Editor :=
  mkEditor (currentMode e) (statusMessage e) (fileName e) (dataBuffer e) (startLine e)
    (cursorPos e) (currentCommand e) (lastUpDownCursorMovement e)
    v (lastLineInFrame e) (screen e) (isDirty e) (theme e).
Definition set_lastLineInFrame (v : Z) (e : Editor) : Editor :=
  mkEditor (currentMode e) (statusMessage e) (fileName e) (dataBuffer e) (startLine e)
    (cursorPos e) (currentCommand e) (lastUpDownCursorMovement e)
    (firstLineInFrame e) v (screen e) (isDirty e) (theme e).
Definition set_screen (v : Screen) (e : Editor) : Editor :=
  mkEditor (currentMode e) (statusMessage e) (fileName e) (dataBuffer e) (startLine e)
    (cursorPos e) (currentCommand e) (lastUpDownCursorMovement e)
    (firstLineInFrame e) (lastLineInFrame e) v (isDirty e) (theme e).
Definition set_isDirty (v : bool) (e : Editor) : Editor :=
  mkEditor (currentMode e) (statusMessage e) (fileName e) (dataBuffer e) (startLine e)
    (cursorPos e) (currentCommand e) (lastUpDownCursorMovement e)
    (firstLineInFrame e) (lastLineInFrame e) (screen e) v (theme e).

(** [e.cursorPos.X = x] and [e.cursorPos.Y = y]. *)
Definition set_cursorX (x : Z) (e : Editor) : Editor :=
  set_cursorPos (mkVertex x (Y (cursorPos e))) e.
Definition set_cursorY (y : Z) (e : Editor) : Editor :=
  set_cursorPos (mkVertex (X (cursorPos e)) y) e.

(** [e.screen.ScreenDim.X] and [e.screen.ScreenDim.Y]. *)
Definition dimX (e : Editor) : Z := X (ScreenDim (screen e)).
Definition dimY (e : Editor) : Z := Y (ScreenDim (screen e)).

Definition getLinesCount (e : Editor) : Z := lenS (dataBuffer e).

Definition getCurrentLineLength (e : Editor) : outcome Z :=
  line ← index (dataBuffer e) (Y (cursorPos e)); mret (len line).

(** *** Theme to terminal style *)

Definition toTCellColor (c : theme.Color) : CellColor :=
  match theme.Kind c with
  | theme.COLOR_RGB => NewRGBColor (theme.Red c) (theme.Green c) (theme.Blue c)
  | theme.COLOR_INDEX => PaletteColor (theme.Index c)
  | theme.COLOR_NONE => ColorDefault
  end.

Definition toTCellStyle (hl : theme.TextHighlight) : Style :=
  mkStyle (toTCellColor (theme.Foreground hl)) (toTCellColor (theme.Background hl))
    (theme.Bold (theme.TxtStyle hl)) (theme.Underline (theme.TxtStyle hl))
    (theme.Reverse (theme.TxtStyle hl)).

(** *** renderer.go *)

(** [textFrameTemp[y][x] = char], the row being made first when nil. *)
Definition putRune (W : Z) (fr : TextFrame) (x y ch : Z) : outcome TextFrame :=
  row ← index fr y;
  cells ← match row with
          | None => make 0 W
          | Some cells => mret cells
          end;
  cells' ← store cells x ch;
  store fr y (Some cells').

(** The loop over the characters of one line in [fillTextFrameFromTop];
    it returns the frame and the final [x] and [y]. *)
Fixpoint layLine (W : Z) (chars : list Z) (fr : TextFrame) (x y : Z)
  : outcome (TextFrame * Z * Z) :=
  match chars with
  | [] => mret (fr, x, y)
  | ch :: rest =>
    fr' ← putRune W fr x y ch;
    if x + 1 =? W then layLine W rest fr' 0 (y + 1)
    else layLine W rest fr' (x + 1) y
  end.

(** The outer [for] of [fillTextFrameFromTop] from line [i] and row [y];
    it returns the frame and the final [i].  Each turn moves to the next
    line and stops at the last, so [fuel] above the line count is never
    used up. *)
Fixpoint fillLoop (fuel : nat) (e : Editor) (i y : Z) (fr : TextFrame)
  : outcome (TextFrame * Z) :=
  match fuel with
  | O => Hang
  | S fuel' =>
    line ← index (dataBuffer e) i;
    '(fr', _, y') ← layLine (dimX e) (runes line) fr 0 y;
    if (i + 1 =? getLinesCount e) || (y' =? dimY e - 2) then mret (fr', i)
    else fillLoop fuel' e (i + 1) (y' + 1) fr'
  end.

Definition fillTextFrameFromTop (e : Editor) : outcome (TextFrame * Editor) :=
  fr ← make None (dimY e - 1);
  '(fr', i) ← fillLoop (S (length (dataBuffer e))) e (firstLineInFrame e) 0 fr;
  mret (fr', set_lastLineInFrame i e).

(** The loop of [fillEmptyLinesIfAnyWithTilde], at index [i] while
    [i > 0]. *)
Fixpoint tildeLoop (W : Z) (i : nat) (shouldTilde : bool) (fr : TextFrame)
  : outcome TextFrame :=
  match i with
  | O => mret fr
  | S i' =>
    row ← index fr (Z.of_nat i);
    match row with
    | Some _ => tildeLoop W i' false fr
    | None =>
      cells ← make 0 W;
      cells' ← (if shouldTilde then store cells 0 126 else mret cells);
      fr' ← store fr (Z.of_nat i) (Some cells');
      tildeLoop W i' shouldTilde fr'
    end
  end.

Definition fillEmptyLinesIfAnyWithTilde (e : Editor) (fr : TextFrame)
  : outcome TextFrame :=
  tildeLoop (dimX e) (Nat.pred (length fr)) true fr.

(** The draw of [syncTextFrame], everything before its last [if]. *)
Definition drawTextFrame (e : Editor) : outcome Editor :=
  '(fr, e1) ← fillTextFrameFromTop e;
  fr' ← fillEmptyLinesIfAnyWithTilde e1 fr;
  match theme.ResolveGroup (theme e1) "Normal" with
  | Some hl =>
    mret (set_screen (DisplayTextFrameStyled fr' (toTCellStyle hl) (screen e1)) e1)
  | None => mret (set_screen (DisplayTextFrame fr' (screen e1)) e1)
  end.

(** The loop [for cursorPosScreen.X > ScreenDim.X] of [syncCursor]. *)
Fixpoint wrapCursor (fuel : nat) (W x y : Z) : outcome Vertex :=
  match fuel with
  | O => Hang
  | S fuel' =>
    if x >? W then wrapCursor fuel' W (x - W) (y + 1)
    else mret (mkVertex x y)
  end.

(** The first loop of [syncCursor]: [y] grows by [len/W] for each line
    from [i] up to the cursor's. *)
Fixpoint wrappedAbove (e : Editor) (rows : list Z) (y : Z) : outcome Z :=
  match rows with
  | [] => mret y
  | i :: rows' =>
    line ← index (dataBuffer e) i;
    q ← div (len line) (dimX e);
    wrappedAbove e rows' (y + q)
  end.

(** The screen position [syncCursor] computes.  With a width of at least
    one the second loop ends within [X] turns.  With a width of zero and
    a positive [X] it never ends; a negative width, which no terminal
    reports, is given the same outcome. *)
Definition cursorPosScreen (e : Editor) : outcome Vertex :=
  let first := firstLineInFrame e in
  let cy := Y (cursorPos e) in
  y ← wrappedAbove e (seqZ first (cy - first)) (cy - first);
  wrapCursor (S (Z.to_nat (X (cursorPos e)))) (dimX e) (X (cursorPos e)) y.

Definition syncCursor (e : Editor) : outcome Editor :=
  pos ← cursorPosScreen e;
  e1 ← drawTextFrame e;
  mret (set_screen (DisplayCursor pos (screen e1)) e1).

Definition syncTextFrame (dontSyncCursor : bool) (e : Editor) : outcome Editor :=
  e1 ← drawTextFrame e;
  if dontSyncCursor then mret e1 else syncCursor e1.

Definition syncStatusBar (e : Editor) : Editor :=
  let text :=
    if len (statusMessage e) >? 0 then statusMessage e else currentCommand e in
  match theme.ResolveGroup (theme e) "StatusLine" with
  | Some hl =>
    set_screen (DisplayStatusBarStyled text (toTCellStyle hl) (screen e)) e
  | None => set_screen (DisplayStatusBar text (screen e)) e
  end.

(** *** editor.go *)

Definition fixHorizontalCursorOverflow (e : Editor) : outcome Editor :=
  rangeX ← getCurrentLineLength e;
  let rangeX :=
    match currentMode e with
    | MODE_INSERT => rangeX
    | _ => if rangeX - 1 <? 0 then 0 else rangeX - 1
    end in
  if rangeX <? X (cursorPos e) then mret (set_cursorX rangeX e) else mret e.

(** The inner loop of [fixVerticalCursorOverflow]: [i] runs down from the
    last line while [i >= first], and [first] moves with it.  [i] falls by
    one each turn and the read panics below zero, so [fuel] above
    [i + 1] is never used up. *)
Fixpoint trimTop (fuel : nat) (e : Editor) (i first : Z) : outcome Z :=
  match fuel with
  | O => Hang
  | S fuel' =>
    if i >=? first then
      line ← index (dataBuffer e) i;
      q ← div (len line) (dimX e);
      trimTop fuel' e (i - 1) (first + q)
    else mret first
  end.

(** The outer loop of [fixVerticalCursorOverflow]; [lastLineInFrame]
    grows by one each turn, up to the cursor's row. *)
Fixpoint advanceFrame (fuel : nat) (e : Editor) : outcome Editor :=
  match fuel with
  | O => Hang
  | S fuel' =>
    if Y (cursorPos e) >? lastLineInFrame e then
      if lastLineInFrame e + 1 >=? getLinesCount e then mret e
      else
        let last := lastLineInFrame e + 1 in
        let first :=
          if last - firstLineInFrame e >? dimY e - 2
          then firstLineInFrame e + 1 else firstLineInFrame e in
        first' ← trimTop (S (S (Z.to_nat last))) e last first;
        advanceFrame fuel' (set_firstLineInFrame first' (set_lastLineInFrame last e))
    else mret e
  end.

Definition fixVerticalCursorOverflow (e : Editor) : outcome Editor :=
  advanceFrame (S (Z.to_nat (Y (cursorPos e) - lastLineInFrame e))) e.

Definition handleTextAreaCursorMovement (event : Event) (e : Editor)
  : outcome (bool * Editor) :=
  let rangeY := getLinesCount e in
  match Value event with
  | KeyLeft =>
    if negb (X (cursorPos e) =? 0) then
      e1 ← syncCursor (set_cursorX (X (cursorPos e) - 1) e); mret (true, e1)
    else mret (true, e)
  | KeyRight =>
    e1 ← fixHorizontalCursorOverflow (set_cursorX (X (cursorPos e) + 1) e);
    e2 ← syncCursor e1; mret (true, e2)
  | KeyDown =>
    if negb (Y (cursorPos e) + 1 =? rangeY) then
      let e1 := set_lastUpDownCursorMovement CURSOR_DOWN
                  (set_cursorY (Y (cursorPos e) + 1) e) in
      e2 ← fixHorizontalCursorOverflow e1;
      e3 ← fixVerticalCursorOverflow e2;
      e4 ← syncCursor e3; mret (true, e4)
    else mret (true, e)
  | KeyUp =>
    if negb (Y (cursorPos e) =? 0) then
      let e1 := set_lastUpDownCursorMovement CURSOR_UP
                  (set_cursorY (Y (cursorPos e) - 1) e) in
      e2 ← fixHorizontalCursorOverflow e1;
      let e3 :=
        if Y (cursorPos e2) <? firstLineInFrame e2 then
          let e' := set_firstLineInFrame (firstLineInFrame e2 - 1) e2 in
          if lastLineInFrame e' - firstLineInFrame e' >? dimY e' - 1
          then set_lastLineInFrame (lastLineInFrame e' - 1) e' else e'
        else e2 in
      e4 ← syncCursor e3; mret (true, e4)
    else mret (true, e)
  | _ => mret (false, e)
  end.

Definition E37 : string := "E37: No write since last change (add ! to override)".

(** After [e.screen.Close()] the process is gone with [os.Exit(0)], and
    the editor with it. *)
Definition quit (force : bool) (e : Editor) : outcome Editor :=
  if isDirty e && negb force then mret (set_statusMessage E37 e)
  else Exit 0.

Definition switchToInsertMode (e : Editor) : Editor :=
  syncStatusBar (set_statusMessage "-- INSERT --" (set_currentMode MODE_INSERT e)).

Definition isBackspace (k : Key) : bool :=
  bool_decide (k = KeyBackspace) || bool_decide (k = KeyBackspace2).

Definition handleKeyCommandLineMode (event : Event) (e : Editor) : outcome Editor :=
  if (Rune event =? 0) || bool_decide (Value event = KeyEnter) then mret e
  else
    cmd ← (if isBackspace (Value event)
           then slice (currentCommand e) 0 (len (currentCommand e) - 1)
           else mret (currentCommand e +:+ encodeRune (Rune event)));
    mret (syncStatusBar (set_currentCommand cmd e)).

Section Storage.

(** [fs.WriteLinesToFile], of [internal/fs], is not among the sources:
    the persistence layer is a parameter.  It answers [None] on success
    and an error otherwise; [runCommand] calls it as a statement and
    drops the answer. *)
Variable WriteLinesToFile : string → list string → option string.

Definition runCommand (cmdFull : string) (e : Editor) : outcome Editor :=
  cmd ← slice cmdFull 1 (len cmdFull);
  e1 ← match Atoi cmd with
       | Some lineNum =>
         let lineNum :=
           if lineNum >? getLinesCount e then getLinesCount e else lineNum in
         let lineNum := if lineNum <? 1 then 1 else lineNum in
         e1 ← fixVerticalCursorOverflow (set_cursorY (lineNum - 1) e);
         syncTextFrame false e1
       | None =>
         if String.eqb cmd "q" then quit false e
         else if String.eqb cmd "q!" then quit true e
         else if String.eqb cmd "wq" || String.eqb cmd "x" then
           let _ :=
             if isDirty e then WriteLinesToFile (fileName e) (dataBuffer e)
             else None in
           Exit 0
         else mret e
       end;
  mret (set_currentMode MODE_NORMAL (syncStatusBar (set_currentCommand "" e1))).

End Storage.

Definition handleKeyNormalMode (event : Event) (e : Editor) : outcome Editor :=
  if Rune event =? 58 then
    handleKeyCommandLineMode event
      (set_statusMessage "" (set_currentMode MODE_COMMAND_LINE e))
  else if Rune event =? 105 then mret (switchToInsertMode e)
  else if Rune event =? 65 then
    x ← getCurrentLineLength e;
    syncCursor (switchToInsertMode (set_cursorX x e))
  else if Rune event =? 71 then
    let l := if getLinesCount e - 1 <? 0 then 0 else getLinesCount e - 1 in
    e1 ← fixVerticalCursorOverflow (set_cursorY l e);
    syncTextFrame false e1
  else mret e.

(** [copy(dst, src)]. *)
Definition copy {A : Type} (dst src : list A) : list A :=
  take (length dst) src ++ drop (length src) dst.

(** The loop [for i := len(newBuffer) - 1; i > e.cursorPos.Y; i--] of the
    Enter case, at index [i]. *)
Fixpoint shiftLoop (i : nat) (cy : Z) (newBuffer : list string)
  : outcome (list string) :=
  match i with
  | O => if 0 >? cy then Panic else mret newBuffer
  | S i' =>
    if Z.of_nat i >? cy then
      v ← index newBuffer (Z.of_nat i - 1);
      newBuffer' ← store newBuffer (Z.of_nat i) v;
      shiftLoop i' cy newBuffer'
    else mret newBuffer
  end.

(** The [range] loop of the Backspace case that builds the merged
    buffer; [i] is the index of the head of [lines]. *)
Fixpoint mergeLoop (e : Editor) (lines : list string) (i j : Z)
    (newBuffer : list string) : outcome (list string) :=
  match lines with
  | [] => mret newBuffer
  | line :: rest =>
    if i =? Y (cursorPos e) then mergeLoop e rest (i + 1) j newBuffer
    else
      line' ← (if i =? Y (cursorPos e) - 1
               then cur ← index (dataBuffer e) (Y (cursorPos e)); mret (line +:+ cur)
               else mret line);
      newBuffer' ← store newBuffer j line';
      mergeLoop e rest (i + 1) (j + 1) newBuffer'
  end.

Definition handleKeyInsertMode (event : Event) (e0 : Editor) : outcome Editor :=
  let e := set_isDirty true e0 in
  let cx := X (cursorPos e) in
  let cy := Y (cursorPos e) in
  match Value event with
  | KeyEnter =>
    newBuffer ← make EmptyString (getLinesCount e + 1);
    let newBuffer := copy newBuffer (dataBuffer e) in
    newBuffer ← (if cy <? getLinesCount e - 1
                 then shiftLoop (Nat.pred (length newBuffer)) cy newBuffer
                 else mret newBuffer);
    cl ← getCurrentLineLength e;
    newBuffer ← (if cx <? cl then
                   line ← index (dataBuffer e) cy;
                   before ← slice line 0 cx;
                   nb ← store newBuffer cy before;
                   after ← slice line cx (len line);
                   store nb (cy + 1) after
                 else mret newBuffer);
    let e1 := set_dataBuffer newBuffer
                (set_lastUpDownCursorMovement CURSOR_DOWN
                   (set_cursorX 0 (set_cursorY (cy + 1) e))) in
    e2 ← fixVerticalCursorOverflow e1;
    syncTextFrame false e2
  | KeyBackspace | KeyBackspace2 =>
    if (cx =? 0) && (cy =? 0) then mret e
    else
      e1 ← (if cx >? 0 then
              line ← index (dataBuffer e) cy;
              before ← slice line 0 (cx - 1);
              after ← slice line cx (len line);
              buf ← store (dataBuffer e) cy (before +:+ after);
              mret (set_cursorX (cx - 1) (set_dataBuffer buf e))
            else
              newBuffer ← make EmptyString (getLinesCount e - 1);
              newBuffer ← mergeLoop e (dataBuffer e) 0 0 newBuffer;
              prev ← index (dataBuffer e) (cy - 1);
              mret (set_dataBuffer newBuffer
                      (set_cursorY (cy - 1) (set_cursorX (len prev) e))));
      syncTextFrame false e1
  | _ =>
    if Rune event =? 0 then mret e
    else
      line ← index (dataBuffer e) cy;
      before ← slice line 0 cx;
      after ← slice line cx (len line);
      buf ← store (dataBuffer e) cy (before +:+ encodeRune (Rune event) +:+ after);
      syncTextFrame false (set_cursorX (cx + 1) (set_dataBuffer buf e))
  end.

Section Session.

Variable WriteLinesToFile : string → list string → option string.

(** One turn of the loop of [HandleUserActions], on one event. *)
Definition handleEvent (event : Event) (e : Editor) : outcome Editor :=
  if negb (String.eqb (Kind event) KEY_PRESS) then mret e
  else
    match currentMode e with
    | MODE_INSERT =>
      if bool_decide (Value event = KeyEscape) then
        let e1 := syncStatusBar (set_statusMessage "" (set_currentMode MODE_NORMAL e)) in
        e2 ← fixHorizontalCursorOverflow e1;
        syncCursor e2
      else
        '(processed, e1) ← handleTextAreaCursorMovement event e;
        if processed : bool then syncCursor e1
        else handleKeyInsertMode event e1
    | MODE_NORMAL =>
      '(processed, e1) ← handleTextAreaCursorMovement event e;
      if processed : bool then syncCursor e1
      else handleKeyNormalMode event e1
    | MODE_COMMAND_LINE =>
      if bool_decide (Value event = KeyEscape) then
        mret (syncStatusBar (set_currentCommand "" (set_currentMode MODE_NORMAL e)))
      else
        e1 ← (if bool_decide (Value event = KeyEnter)
              then runCommand WriteLinesToFile (currentCommand e) e
              else mret e);
        handleKeyCommandLineMode event e1
    end.

(** The events of a session, in order. *)
Fixpoint handleEvents (events : list Event) (e : Editor) : outcome Editor :=
  match events with
  | [] => mret e
  | event :: rest => e1 ← handleEvent event e; handleEvents rest e1
  end.

End Session.

Definition quote : string := String (byteOf 34) EmptyString.

(** [NewEditor] up to the start of the event loop.  [lines] is the answer
    of [fs.ReadFileToLines] ([None]: an error), [dim] the size of the
    terminal [terminal.NewScreen] opened, [th] the theme
    [loadThemeFromGovimrc] found, if any. *)
Definition NewEditor (f : string) (lines : option (list string)) (dim : Vertex)
    (th : option theme.Theme) : outcome Editor :=
  let name := quote +:+ f +:+ quote in
  let '(buf, status) :=
    match lines with
    | None => ([EmptyString], name +:+ " [New File]")
    | Some ls =>
      let charCount := fold_left (fun n line => n + (len line + 1)) ls 0 in
      (ls, name +:+ " " +:+ itoa (lenS ls) +:+ "L, " +:+ itoa charCount +:+ "C")
    end in
  let e := mkEditor MODE_NORMAL status f buf 0 (mkVertex 0 0) EmptyString
             CURSOR_UP 0 0 (NewScreen dim) false th in
  e1 ← syncTextFrame false e;
  e2 ← syncCursor e1;
  mret (syncStatusBar e2).

End editor.

(** ** Notions used to state the properties *)

Import terminal actions editor.

(** A persistence layer that always succeeds, and one that always fails. *)
Definition saveOk : string → list string → option string := fun _ _ => None.

(** The Enter and Backspace keys, as the terminal reports them. *)
Definition enterKey : Event := mkEvent KEY_PRESS KeyEnter 13.
Definition backspaceKey : Event := mkEvent KEY_PRESS KeyBackspace2 127.

(** A command text made of decimal digits only, as the specification
    words the numeric command. *)
Definition isDigit (a : ascii) : bool := between 48 57 (byteZ a).
Fixpoint allDigits (s : string) : bool :=
  match s with
  | EmptyString => true
  | String a s' => isDigit a && allDigits s'
  end.
Definition isDigitString (s : string) : bool :=
  negb (String.eqb s "") && allDigits s.

(** The commands [runCommand] names. *)
Definition isQuitCommand (cmd : string) : bool :=
  String.eqb cmd "q" || String.eqb cmd "q!" || String.eqb cmd "wq" || String.eqb cmd "x".

(** An editor in Command-line mode with [cmd] typed after the colon, over
    a two-line file on a 10 by 5 terminal. *)
Definition commandLineEditor (cmd : string) (dirty : bool) : Editor :=
  mkEditor MODE_COMMAND_LINE "" "f.txt" ["abc"; "def"]%string 0 (mkVertex 0 0)
    (":" +:+ cmd) CURSOR_UP 0 1 (NewScreen (mkVertex 10 5)) dirty None.

(** An editor in Insert mode over [buf] with the cursor at column [x] of
    row [y], on a 10 by 5 terminal. *)
Definition insertEditor (buf : list string) (x y : Z) : Editor :=
  mkEditor MODE_INSERT "-- INSERT --" "f.txt" buf 0 (mkVertex x y)
    "" CURSOR_UP 0 0 (NewScreen (mkVertex 10 5)) false None.

(** The number of physical rows of a line of [n] characters on a grid
    [W] wide in the words of the specification: [ceil(n/W)], and 1 for an
    empty line. *)
Definition specRows (W n : Z) : Z := Z.max 1 ((n + W - 1) / W).

(** The number of rows the code gives a line of [n] characters: the
    quotient [syncCursor] and [fixVerticalCursorOverflow] add, plus the
    row every line starts on. *)
Definition rowsOf (W n : Z) : Z := Z.quot n W + 1.

(** Sessions: a file of the given lines opened on a terminal of the given
    size, then the given key events. *)
Definition session (lines : option (list string)) (dim : Vertex)
    (events : list Event) : outcome Editor :=
  e ← NewEditor "f.txt" lines dim None; handleEvents saveOk events e.

Definition twentyC : string := "cccccccccccccccccccc".

(** The alias chain of a theme: [Reaches t a x] when [x] is found from [a]
    by repeated lookup in [Links], every name before [x] being one that
    [Groups] does not define. *)
Inductive Reaches (t : theme.Theme) : string → string → Prop :=
| reaches_here (a : string) : Reaches t a a
| reaches_next (a next x : string) :
    theme.Groups t !! a = None → theme.Links t !! a = Some next →
    Reaches t next x → Reaches t a x.

(** What the chain from a name can come to: a group defined with a
    highlight, a name that is neither defined nor linked, or a name that
    the chain comes back to. *)
Definition Defined_at (t : theme.Theme) (x : string) (hl : theme.TextHighlight) : Prop :=
  theme.Groups t !! x = Some hl.
Definition Undefined_at (t : theme.Theme) (x : string) : Prop :=
  theme.Groups t !! x = None ∧ theme.Links t !! x = None.
Definition Cycle_at (t : theme.Theme) (x : string) : Prop :=
  theme.Groups t !! x = None ∧ ∃ y, theme.Links t !! x = Some y ∧ Reaches t y x.

(** A theme with a chain that ends in a group, a cycle and a dangling link. *)
Definition sampleTheme : theme.Theme :=
  theme.mkTheme "sample" "dark"
    {[ "Normal"%string := theme.zeroHighlight ]}
    {[ "Comment"%string := "Dim"%string; "Dim"%string := "Normal"%string;
       "Ping"%string := "Pong"%string; "Pong"%string := "Ping"%string;
       "Lost"%string := "Nowhere"%string ]}
    (replicate 16 theme.zeroColor).

(** No line of the buffer reaches the width of the grid, so none wraps. *)
Definition unwrapped (W : Z) (buf : list string) : Prop :=
  Forall (fun line => lenS (runes line) < W) buf.

(** Every row of the frame that is not nil has [W] cells. *)
Definition rowWide (W : Z) (row : option (list Z)) : Prop :=
  match row with
  | None => True
  | Some cells => lenS cells = W
  end.
Definition rowsWide (W : Z) (fr : TextFrame) : Prop := Forall (rowWide W) fr.

(** Reading a frame: the row at index [y], and the character of the cell
    at row [y], column [x]. *)
Definition rowAt (fr : TextFrame) (y : Z) : option (option (list Z)) :=
  if y <? 0 then None else fr !! Z.to_nat y.
Definition cellAt (fr : TextFrame) (y x : Z) : option Z :=
  match rowAt fr y with
  | Some (Some cells) => if x <? 0 then None else cells !! Z.to_nat x
  | _ => None
  end.

(** Row [y] holds no character: it is nil, or past the frame. *)
Definition unwritten (fr : TextFrame) (y : Z) : Prop :=
  match rowAt fr y with
  | Some (Some _) => False
  | _ => True
  end.

(** The length of a line as the frame sees it, in runes; the cursor
    mapping sees [len], in bytes. *)
Definition runeCount (line : string) : Z := lenS (runes line).

(** The rows the code gives to the lines [i], ..., [r - 1] together, for a
    measure [count] of the length of a line. *)
Definition rowsAbove (count : string → Z) (e : Editor) (i r : Z) : Z :=
  foldr (fun j acc =>
           match dataBuffer e !! Z.to_nat j with
           | Some line => rowsOf (dimX e) (count line) + acc
           | None => acc
           end) 0 (seqZ i (r - i)).


(** A call ends: it returns, panics or exits. *)
Definition ends {A : Type} (o : outcome A) : Prop := o ≠ Hang.

(** ** Notions for the further properties *)

(** What a redraw and a scroll leave as they were: everything but the
    window and what the screen shows. *)
Definition sameDocument (e e' : Editor) : Prop :=
  currentMode e' = currentMode e
  ∧ statusMessage e' = statusMessage e
  ∧ fileName e' = fileName e
  ∧ dataBuffer e' = dataBuffer e
  ∧ cursorPos e' = cursorPos e
  ∧ currentCommand e' = currentCommand e
  ∧ isDirty e' = isDirty e
  ∧ theme e' = theme e
  ∧ ScreenDim (screen e') = ScreenDim (screen e).

(** The column [fixHorizontalCursorOverflow] brings the cursor back to:
    the length of the line in Insert mode, the last character (or column
    0 of an empty line) in the other modes. *)
Definition colLimit (m : mode) (line : string) : Z :=
  match m with
  | MODE_INSERT => len line
  | _ => if len line - 1 <? 0 then 0 else len line - 1
  end.

(** No line of the buffer has as many bytes as the grid is wide. *)
Definition narrow (W : Z) (buf : list string) : Prop :=
  Forall (fun line => len line < W) buf.

(** The cursor is on a row of a buffer that has one, at a column that is
    not negative. *)
Definition cursorOnRow (e : Editor) : Prop :=
  1 <= getLinesCount e
  ∧ 0 <= Y (cursorPos e) < getLinesCount e
  ∧ 0 <= X (cursorPos e).

(** The cursor is within its line, the position after the last character
    included. *)
Definition cursorInLine (e : Editor) : Prop :=
  ∃ line, dataBuffer e !! Z.to_nat (Y (cursorPos e)) = Some line
          ∧ 0 <= Y (cursorPos e)
          ∧ 0 <= X (cursorPos e) <= len line.

(** The bytes of a line before and from column [x]. *)
Definition before (x : Z) (line : string) : string :=
  substring 0 (Z.to_nat x) line.
Definition after (x : Z) (line : string) : string :=
  substring (Z.to_nat x) (String.length line - Z.to_nat x) line.

(** Two states of the same file: name, lines, dirty flag, theme and
    terminal size. *)
Definition sameText (e e' : Editor) : Prop :=
  fileName e' = fileName e
  ∧ dataBuffer e' = dataBuffer e
  ∧ isDirty e' = isDirty e
  ∧ theme e' = theme e
  ∧ ScreenDim (screen e') = ScreenDim (screen e).

(** What a session never changes, and the dirty flag, which it never
    clears. *)
Definition sameSession (e e' : Editor) : Prop :=
  fileName e' = fileName e
  ∧ theme e' = theme e
  ∧ ScreenDim (screen e') = ScreenDim (screen e)
  ∧ (isDirty e = true → isDirty e' = true).

(** An editor in Normal mode on a terminal 10 wide and 5 high. *)
Definition normalEditor (buf : list string) (x y : Z) : Editor :=
  mkEditor MODE_NORMAL "" "f.txt" buf 0 (mkVertex x y)
    "" CURSOR_UP 0 0 (NewScreen (mkVertex 10 5)) false None.

Definition isArrow (k : Key) : bool :=
  match k with
  | KeyLeft | KeyRight | KeyUp | KeyDown => true
  | _ => false
  end.

(** The mode after a key press, from the mode before and the key. *)
Definition nextMode (event : Event) (m : mode) : mode :=
  if negb (String.eqb (Kind event) KEY_PRESS) then m
  else
    match m with
    | MODE_INSERT =>
      if bool_decide (Value event = KeyEscape) then MODE_NORMAL else MODE_INSERT
    | MODE_NORMAL =>
      if isArrow (Value event) then MODE_NORMAL
      else if Rune event =? 58 then MODE_COMMAND_LINE
      else if (Rune event =? 105) || (Rune event =? 65) then MODE_INSERT
      else MODE_NORMAL
    | MODE_COMMAND_LINE =>
      if bool_decide (Value event = KeyEscape) || bool_decide (Value event = KeyEnter)
      then MODE_NORMAL else MODE_COMMAND_LINE
    end.

(** The bytes of the runes [rs], one after the other. *)
Definition encodeRunes (rs : list Z) : string :=
  foldr (fun r s => encodeRune r +:+ s) EmptyString rs.

(** A row of [W] blank cells, and one of a tilde followed by blanks. *)
Definition blankRow (W : Z) : list Z := replicate (Z.to_nat W) 0.
Definition tildeRow (W : Z) : list Z := <[0%nat := 126]> (blankRow W).

Definition isNil (row : option (list Z)) : bool :=
  match row with
  | None => true
  | Some _ => false
  end.

(** What [fillEmptyLinesIfAnyWithTilde] makes of a row: a written row
    stays, a nil row becomes a tilde row when [tilde] and a blank row
    otherwise. *)
Definition filledRow (W : Z) (tilde : bool) (row : option (list Z)) : list Z :=
  match row with
  | Some cells => cells
  | None => if tilde then tildeRow W else blankRow W
  end.

(** ** The colour scheme reader of theme.go *)

(** *** Go's [strings], [unicode/utf8] and [strconv], as theme.go calls
    them *)

Module gostrings.

(** [s[n:]] and [s[:n]] within the string. *)
Definition from (n : nat) (s : string) : string :=
  substring n (String.length s - n) s.
Definition upto (n : nat) (s : string) : string := substring 0 n s.

Definition byteAt (s : string) (i : Z) : Z :=
  match String.get (Z.to_nat i) s with
  | Some a => byteZ a
  | None => 0
  end.

(** [utf8.DecodeRuneInString]: the first rune and its width in bytes; an
    ill-formed sequence is [RuneError] of width 1, the empty string
    [RuneError] of width 0. *)
Definition DecodeRuneInString (s : string) : Z * Z :=
  match s with
  | EmptyString => (RuneError, 0)
  | String a0 s1 =>
    let b0 := byteZ a0 in
    if b0 <? 128 then (b0, 1)
    else
      match s1 with
      | String a1 s2 =>
        let b1 := byteZ a1 in
        if between 194 223 b0 && isCont b1
        then (Z.lor (Z.shiftl (Z.land b0 31) 6) (low6 b1), 2)
        else
          match s2 with
          | String a2 s3 =>
            let b2 := byteZ a2 in
            if second3 b0 b1 && isCont b2
            then (Z.lor (Z.shiftl (Z.land b0 15) 12)
                    (Z.lor (Z.shiftl (low6 b1) 6) (low6 b2)), 3)
            else
              match s3 with
              | String a3 s4 =>
                let b3 := byteZ a3 in
                if second4 b0 b1 && isCont b2 && isCont b3
                then (Z.lor (Z.shiftl (Z.land b0 7) 18)
                        (Z.lor (Z.shiftl (low6 b1) 12)
                           (Z.lor (Z.shiftl (low6 b2) 6) (low6 b3))), 4)
                else (RuneError, 1)
              | EmptyString => (RuneError, 1)
              end
          | EmptyString => (RuneError, 1)
          end
      | EmptyString => (RuneError, 1)
      end
  end.

(** [utf8.RuneStart]: the byte is not a continuation byte. *)
Definition RuneStart (b : Z) : bool := negb (Z.land b 192 =? 128).

(** The loop [for start--; start >= lim; start--] of
    [utf8.DecodeLastRuneInString], which stops on a rune start; it looks
    at three bytes at most. *)
Fixpoint findStart (fuel : nat) (s : string) (start lim : Z) : Z :=
  match fuel with
  | O => start
  | S fuel' =>
    if start <? lim then start
    else if RuneStart (byteAt s start) then start
    else findStart fuel' s (start - 1) lim
  end.

(** [utf8.DecodeLastRuneInString]: the last rune and its width. *)
Definition DecodeLastRuneInString (s : string) : Z * Z :=
  let end_ := len s in
  if end_ =? 0 then (RuneError, 0)
  else
    let r := byteAt s (end_ - 1) in
    if r <? 128 then (r, 1)
    else
      let lim := if end_ - 4 <? 0 then 0 else end_ - 4 in
      let start := findStart 4 s (end_ - 2) lim in
      let start := if start <? 0 then 0 else start in
      let '(r, size) := DecodeRuneInString (from (Z.to_nat start) s) in
      if start + size =? end_ then (r, size) else (RuneError, 1).

(** The table [asciiSpace] of [strings], and [unicode.IsSpace]. *)
Definition asciiSpace (b : Z) : bool := between 9 13 b || (b =? 32).

Definition IsSpace (r : Z) : bool :=
  if r <=? 255
  then between 9 13 r || (r =? 32) || (r =? 133) || (r =? 160)
  else (r =? 5760) || between 8192 8202 r || between 8232 8233 r
       || (r =? 8239) || (r =? 8287) || (r =? 12288).

(** [strings.TrimLeftFunc(s, unicode.IsSpace)]; a space rune is at least
    one byte wide, so [fuel] at the length of [s] is never used up. *)
Fixpoint trimLeftSpace (fuel : nat) (s : string) : string :=
  match fuel with
  | O => EmptyString
  | S fuel' =>
    match s with
    | EmptyString => EmptyString
    | _ =>
      let '(r, w) := DecodeRuneInString s in
      if IsSpace r then trimLeftSpace fuel' (from (Z.to_nat w) s) else s
    end
  end.
Definition TrimLeftSpace (s : string) : string := trimLeftSpace (String.length s) s.

(** [lastIndexFunc(s, unicode.IsSpace, false)]: the index of the last
    rune that is not a space, or -1. *)
Fixpoint lastIndexNotSpace (fuel : nat) (s : string) (i : Z) : Z :=
  match fuel with
  | O => -1
  | S fuel' =>
    if i >? 0 then
      let '(r, size) := DecodeLastRuneInString (upto (Z.to_nat i) s) in
      if IsSpace r then lastIndexNotSpace fuel' s (i - size) else i - size
    else -1
  end.

(** [strings.TrimRightFunc(s, unicode.IsSpace)]. *)
Definition TrimRightSpace (s : string) : string :=
  let i := lastIndexNotSpace (S (String.length s)) s (len s) in
  let i := if (i >=? 0) && (byteAt s i >=? 128)
           then i + snd (DecodeRuneInString (from (Z.to_nat i) s))
           else i + 1 in
  upto (Z.to_nat i) s.

(** The second loop of [strings.TrimSpace], from the end of [s] down,
    [s] being the string from the first byte kept. *)
Fixpoint trimEnd (stop : nat) (s : string) : string :=
  match stop with
  | O => EmptyString
  | S stop' =>
    let c := byteAt s (Z.of_nat stop') in
    if c >=? 128 then TrimRightSpace (upto stop s)
    else if asciiSpace c then trimEnd stop' s
    else upto stop s
  end.

(** [strings.TrimSpace]: ASCII spaces are dropped byte by byte from both
    ends; on a byte of 128 or more the runes are decoded. *)
Fixpoint TrimSpace (s : string) : string :=
  match s with
  | EmptyString => EmptyString
  | String a rest =>
    if byteZ a >=? 128 then TrimRightSpace (TrimLeftSpace s)
    else if asciiSpace (byteZ a) then TrimSpace rest
    else trimEnd (String.length s) s
  end.

(** [strings.Trim(s, cutset)] for a cutset of one ASCII byte [c]:
    [trimLeftByte(trimRightByte(s, c), c)]. *)
Fixpoint trimLeftByte (s : string) (c : ascii) : string :=
  match s with
  | EmptyString => EmptyString
  | String a rest => if Ascii.eqb a c then trimLeftByte rest c else s
  end.
Fixpoint trimRightByte (s : string) (c : ascii) : string :=
  match s with
  | EmptyString => EmptyString
  | String a rest =>
    match trimRightByte rest c with
    | EmptyString => if Ascii.eqb a c then EmptyString else String a EmptyString
    | kept => String a kept
    end
  end.
Definition Trim (s : string) (c : ascii) : string :=
  trimLeftByte (trimRightByte s c) c.

(** [strings.Fields]: the maximal runs of runes that are not spaces.
    [cur] is the field being read, if any. *)
Fixpoint fieldsLoop (fuel : nat) (s : string) (cur : option string)
    (out : list string) : list string :=
  match fuel with
  | O => out
  | S fuel' =>
    match s with
    | EmptyString =>
      match cur with
      | Some f => out ++ [f]
      | None => out
      end
    | _ =>
      let '(r, w) := DecodeRuneInString s in
      let rest := from (Z.to_nat w) s in
      if IsSpace r then
        match cur with
        | Some f => fieldsLoop fuel' rest None (out ++ [f])
        | None => fieldsLoop fuel' rest None out
        end
      else
        let chunk := upto (Z.to_nat w) s in
        match cur with
        | Some f => fieldsLoop fuel' rest (Some (f +:+ chunk)) out
        | None => fieldsLoop fuel' rest (Some chunk) out
        end
    end
  end.
Definition Fields (s : string) : list string :=
  fieldsLoop (S (String.length s)) s None [].

(** [strings.EqualFold(v, "NONE")]: the letters [N], [O] and [E] fold
    with their lower case only, so [v] is four bytes, each one of the
    two cases of its letter. *)
Definition foldsTo (a : ascii) (upper : Z) : bool :=
  (byteZ a =? upper) || (byteZ a =? upper + 32).
Definition EqualFoldNONE (v : string) : bool :=
  match v with
  | String a (String b (String c (String d EmptyString))) =>
    foldsTo a 78 && foldsTo b 79 && foldsTo c 78 && foldsTo d 69
  | _ => false
  end.

(** [strconv.ParseUint(s, 16, 8)]: one or more hexadecimal digits in
    either case, no sign, no prefix, the value at most 255; [None] is a
    non-nil error. *)
Definition hexVal (a : ascii) : option Z :=
  let b := byteZ a in
  if between 48 57 b then Some (b - 48)
  else if between 97 102 b then Some (b - 87)
  else if between 65 70 b then Some (b - 55)
  else None.
Fixpoint parseHex (s : string) (acc : Z) : option Z :=
  match s with
  | EmptyString => Some acc
  | String a s' =>
    match hexVal a with
    | Some d => parseHex s' (acc * 16 + d)
    | None => None
    end
  end.
Definition ParseUintHex8 (s : string) : option Z :=
  match s with
  | EmptyString => None
  | _ =>
    match parseHex s 0 with
    | Some n => if n <=? 255 then Some n else None
    | None => None
    end
  end.

End gostrings.

(** *** theme.go: arguments, colours and links *)

Module scheme.

Import gostrings.

Definition quoteByte : ascii := "'"%char.
Definition commaByte : ascii := ","%char.

(** The loop of [splitArguments] over the bytes of [s]: [b] is the
    builder, [out] the arguments found. *)
Fixpoint splitLoop (s : string) (b : string) (inQuote : bool) (out : list string)
  : list string :=
  match s with
  | EmptyString =>
    let tail := TrimSpace b in
    if String.eqb tail EmptyString then out else out ++ [tail]
  | String ch rest =>
    if Ascii.eqb ch quoteByte then
      splitLoop rest (b +:+ String ch EmptyString) (negb inQuote) out
    else if Ascii.eqb ch commaByte then
      if inQuote then splitLoop rest (b +:+ String ch EmptyString) inQuote out
      else splitLoop rest EmptyString inQuote (out ++ [TrimSpace b])
    else splitLoop rest (b +:+ String ch EmptyString) inQuote out
  end.

Definition splitArguments (s : string) : list string :=
  splitLoop s EmptyString false [].

Definition unquote (s : string) : string := Trim (TrimSpace s) quoteByte.

Definition colorNone : theme.Color := theme.mkColor theme.COLOR_NONE 0 0 0 0.
Definition colorRGB (r g b : Z) : theme.Color := theme.mkColor theme.COLOR_RGB r g b 0.
Definition colorIndex (n : Z) : theme.Color := theme.mkColor theme.COLOR_INDEX 0 0 0 n.

(** [parseColorArgument]; the slices [v[1:3]], [v[3:5]] and [v[5:7]] are
    taken of a [v] of seven bytes. *)
Definition parseColorArgument (s : string) : theme.Color :=
  let v := unquote (TrimSpace s) in
  if String.eqb v EmptyString || EqualFoldNONE v then colorNone
  else if String.prefix "#" v && (len v =? 7) then
    match ParseUintHex8 (substring 1 2 v), ParseUintHex8 (substring 3 2 v),
          ParseUintHex8 (substring 5 2 v) with
    | Some r, Some g, Some b => colorRGB r g b
    | _, _, _ => colorNone
    end
  else
    match Atoi v with
    | Some n => colorIndex n
    | None => colorNone
    end.

(** The loop of [parseHiLink] at index [i]; every index read is below
    the bound of the loop, so no read is out of range. *)
Fixpoint hiLinkLoop (fuel : nat) (fields : list string) (i : Z)
  : string * string * bool :=
  match fuel with
  | O => (EmptyString, EmptyString, false)
  | S fuel' =>
    if i <? lenS fields - 2 then
      match fields !! Z.to_nat i, fields !! Z.to_nat (i + 1),
            fields !! Z.to_nat (i + 2) with
      | Some f, Some a, Some b =>
        if String.eqb f "link" && (i + 2 <? lenS fields) then (a, b, true)
        else hiLinkLoop fuel' fields (i + 1)
      | _, _, _ => (EmptyString, EmptyString, false)
      end
    else (EmptyString, EmptyString, false)
  end.

Definition parseHiLink (line : string) : string * string * bool :=
  let fields := Fields line in
  hiLinkLoop (length fields) fields 0.

End scheme.

(** Words and arguments, for the properties of the reader. *)

(** An argument as [splitArguments] sees it: every comma is inside single
    quotes, and a quote opened is closed.  [scanArgument p q] is the
    state of the quotes after [p] from the state [q], if [p] has no comma
    outside quotes. *)
Fixpoint scanArgument (p : string) (inQuote : bool) : option bool :=
  match p with
  | EmptyString => Some inQuote
  | String ch rest =>
    if Ascii.eqb ch scheme.quoteByte then scanArgument rest (negb inQuote)
    else if Ascii.eqb ch scheme.commaByte then
      if inQuote then scanArgument rest inQuote else None
    else scanArgument rest inQuote
  end.
Definition isArgument (p : string) : Prop := scanArgument p false = Some false.

(** The arguments [ps] written one after the other, a comma after each. *)
Definition commaEach (ps : list string) : string :=
  foldr (fun p s => p +:+ "," +:+ s) EmptyString ps.

(** A word: one or more ASCII bytes, none of them a space. *)
Definition wordByte (a : ascii) : bool :=
  (byteZ a <? 128) && negb (gostrings.asciiSpace (byteZ a)).
Fixpoint allBytes (f : ascii → bool) (s : string) : bool :=
  match s with
  | EmptyString => true
  | String a rest => f a && allBytes f rest
  end.
Definition isWord (w : string) : Prop :=
  w ≠ EmptyString ∧ allBytes wordByte w = true.

(** The words [ws] separated by single blanks. *)
Fixpoint unwords (ws : list string) : string :=
  match ws with
  | [] => EmptyString
  | [w] => w
  | w :: rest => w +:+ " " +:+ unwords rest
  end.

Definition notQuote (a : ascii) : bool := negb (Ascii.eqb a scheme.quoteByte).

(** ** Properties *)

(** *** Helpers on strings and slices *)

Lemma bind_Ret {A B : Type} (a : A) (f : A → outcome B) : Ret a ≫= f = f a.
Proof. reflexivity. Qed.

Lemma substring_all (s : string) : substring 0 (String.length s) s = s.
Proof. induction s as [|a s IH]; simpl; [reflexivity | now rewrite IH]. Qed.

Lemma slice_tail (c : ascii) (s : string) :
  slice (String c s) 1 (len (String c s)) = Ret s.
Proof.
  unfold slice, len. simpl String.length.
  replace ((0 <=? 1) && (1 <=? Z.of_nat (S (String.length s)))
           && (Z.of_nat (S (String.length s)) <=? Z.of_nat (S (String.length s))))
    with true.
  - replace (Z.to_nat (Z.of_nat (S (String.length s)) - 1)) with (String.length s) by lia.
    simpl. now rewrite substring_all.
  - symmetry. rewrite !andb_true_iff, !Z.leb_le. lia.
Qed.

(** *** Quitting *)

(** C6. An unforced quit with the dirty flag set is refused: [quit false]
    returns with the status message E37 and nothing else changed, and the
    command [:q] entered in Command-line mode leaves the buffer as it was,
    shows E37 on the status bar and keeps the process running.  The forced
    quit, as [quit true] and as the command [:q!], ends the process
    whatever the dirty flag is. *)
Theorem quit_refused_when_dirty (W : string → list string → option string)
    (event : Event) (e : Editor) :
  (isDirty e = true →
     quit false e = Ret (set_statusMessage E37 e)
     ∧ (Kind event = KEY_PRESS → Value event = KeyEnter →
        currentMode e = MODE_COMMAND_LINE → currentCommand e = ":q"%string →
        ∃ e', handleEvent W event e = Ret e'
              ∧ dataBuffer e' = dataBuffer e
              ∧ cursorPos e' = cursorPos e
              ∧ statusMessage e' = E37
              ∧ shownStatus (screen e') = E37
              ∧ isDirty e' = true))
  ∧ quit true e = Exit 0
  ∧ (Kind event = KEY_PRESS → Value event = KeyEnter →
     currentMode e = MODE_COMMAND_LINE → currentCommand e = ":q!"%string →
     handleEvent W event e = Exit 0).
Proof.
  split; [intros Hd; split|split].
  - unfold quit. now rewrite Hd.
  - intros Hk Hv Hm Hc. unfold handleEvent. rewrite Hk, Hm, Hv, Hc. simpl.
    unfold runCommand. rewrite slice_tail. simpl.
    unfold quit. rewrite Hd. simpl.
    unfold handleKeyCommandLineMode. rewrite Hv. rewrite orb_true_r.
    eexists. split; [reflexivity|].
    unfold syncStatusBar; simpl. destruct (theme.ResolveGroup _ _); simpl; auto.
  - unfold quit. now rewrite andb_false_r.
  - intros Hk Hv Hm Hc. unfold handleEvent. rewrite Hk, Hm, Hv, Hc. simpl.
    unfold runCommand. rewrite slice_tail. simpl.
    unfold quit. now rewrite andb_false_r.
Qed.

Lemma quit_refused_when_dirty_witness :
  quit false (commandLineEditor "q" true)
    = Ret (set_statusMessage E37 (commandLineEditor "q" true))
  ∧ ∃ e', handleEvent saveOk enterKey (commandLineEditor "q" true) = Ret e'
          ∧ dataBuffer e' = ["abc"; "def"]%string
          ∧ cursorPos e' = mkVertex 0 0
          ∧ statusMessage e' = E37
          ∧ shownStatus (screen e') = E37
          ∧ isDirty e' = true.
Proof.
  destruct (quit_refused_when_dirty saveOk enterKey (commandLineEditor "q" true))
    as [H _].
  destruct (H eq_refl) as [Hq Hev]. split; [exact Hq|].
  apply Hev; reflexivity.
Defined.

(** C10. Backspace in Insert mode with the cursor at row 0, column 0
    returns at once: the editor is the one before with the dirty flag set,
    so buffer and cursor are those before, and an unforced quit is then
    refused with E37. *)
Theorem backspace_at_origin_only_sets_dirty
    (W : string → list string → option string) (event : Event) (e : Editor) :
  isBackspace (Value event) = true →
  cursorPos e = mkVertex 0 0 →
  handleKeyInsertMode event e = Ret (set_isDirty true e)
  ∧ (Kind event = KEY_PRESS → currentMode e = MODE_INSERT →
     handleEvent W event e = Ret (set_isDirty true e))
  ∧ dataBuffer (set_isDirty true e) = dataBuffer e
  ∧ cursorPos (set_isDirty true e) = cursorPos e
  ∧ isDirty (set_isDirty true e) = true
  ∧ quit false (set_isDirty true e) = Ret (set_statusMessage E37 (set_isDirty true e)).
Proof.
  intros Hb Hc.
  assert (Hins : handleKeyInsertMode event e = Ret (set_isDirty true e)).
  { unfold handleKeyInsertMode. simpl. rewrite Hc. simpl.
    unfold isBackspace in Hb.
    destruct (Value event); simpl in Hb; try discriminate; reflexivity. }
  split; [exact Hins|]. split; [|repeat split].
  intros Hk Hm. unfold handleEvent. rewrite Hk, Hm.
  assert (Hesc : bool_decide (Value event = KeyEscape) = false).
  { unfold isBackspace in Hb. destruct (Value event); simpl in Hb; now try discriminate. }
  assert (Hmove : handleTextAreaCursorMovement event e = Ret (false, e)).
  { unfold handleTextAreaCursorMovement, isBackspace in *.
    destruct (Value event); simpl in Hb; now try discriminate. }
  rewrite Hesc, Hmove. exact Hins.
Qed.

Lemma backspace_at_origin_only_sets_dirty_witness :
  handleKeyInsertMode backspaceKey (insertEditor ["abc"; "def"]%string 0 0)
    = Ret (set_isDirty true (insertEditor ["abc"; "def"]%string 0 0))
  ∧ handleEvent saveOk backspaceKey (insertEditor ["abc"; "def"]%string 0 0)
    = Ret (set_isDirty true (insertEditor ["abc"; "def"]%string 0 0)).
Proof.
  destruct (backspace_at_origin_only_sets_dirty saveOk backspaceKey
              (insertEditor ["abc"; "def"]%string 0 0) eq_refl eq_refl)
    as (H1 & H2 & _).
  split; [exact H1 | apply H2; reflexivity].
Defined.

(** *** Write-and-quit *)




(** *** Commands that are not recognised *)

(** C8, as the code has it. Enter in Command-line mode on a non-empty
    accumulated string whose text after the first character [Atoi] does
    not accept and which is none of [q], [q!], [wq], [x] changes nothing
    but the command string, which is cleared, the status bar, which is
    redrawn, and the mode, which is Normal again. *)
Theorem unrecognised_command_is_ignored
    (W : string → list string → option string) (event : Event) (e : Editor)
    (c : ascii) (cmd : string) :
  Kind event = KEY_PRESS → Value event = KeyEnter →
  currentMode e = MODE_COMMAND_LINE →
  currentCommand e = String c cmd →
  Atoi cmd = None → isQuitCommand cmd = false →
  handleEvent W event e
    = Ret (set_currentMode MODE_NORMAL (syncStatusBar (set_currentCommand "" e)))
  ∧ ∀ e', handleEvent W event e = Ret e' →
      dataBuffer e' = dataBuffer e ∧ cursorPos e' = cursorPos e
      ∧ currentCommand e' = ""%string ∧ currentMode e' = MODE_NORMAL
      ∧ isDirty e' = isDirty e.
Proof.
  intros Hk Hv Hm Hc Ha Hq.
  assert (Heq : handleEvent W event e
    = Ret (set_currentMode MODE_NORMAL (syncStatusBar (set_currentCommand "" e)))).
  { unfold handleEvent. rewrite Hk, Hm, Hv. simpl.
    unfold runCommand. rewrite Hc, slice_tail. simpl. rewrite Ha.
    unfold isQuitCommand in Hq. rewrite !orb_false_iff in Hq.
    destruct Hq as [[[Hq1 Hq2] Hq3] Hq4]. rewrite Hq1, Hq2, Hq3, Hq4. simpl.
    unfold handleKeyCommandLineMode. rewrite Hv, orb_true_r. reflexivity. }
  split; [exact Heq|].
  intros e' He'. rewrite Heq in He'. injection He' as <-.
  unfold syncStatusBar; simpl. destruct (theme.ResolveGroup _ _); simpl; auto.
Qed.

Lemma unrecognised_command_is_ignored_witness :
  handleEvent saveOk enterKey (commandLineEditor "xy" false)
    = Ret (set_currentMode MODE_NORMAL
             (syncStatusBar (set_currentCommand "" (commandLineEditor "xy" false)))).
Proof.
  apply (unrecognised_command_is_ignored saveOk enterKey
           (commandLineEditor "xy" false) ":" "xy"); reflexivity.
Defined.

(** C8, as stated, fails. The text [+2] is not a string of digits and not
    a quit command, yet [Atoi] accepts it and the cursor moves to the second
    line; and the accumulated string emptied by Backspace makes Enter
    panic on [cmdFull[1:]]. *)
Lemma signed_number_command_moves_cursor :
  isDigitString "+2" = false ∧ isQuitCommand "+2" = false
  ∧ cursorPos (commandLineEditor "+2" false) = mkVertex 0 0
  ∧ (∃ e', handleEvent saveOk enterKey (commandLineEditor "+2" false) = Ret e'
           ∧ cursorPos e' = mkVertex 0 1)
  ∧ handleEvents saveOk [backspaceKey; enterKey] (commandLineEditor "" false) = Panic.
Proof.
  repeat split; try reflexivity.
  eexists. split; [vm_compute; reflexivity | reflexivity].
Qed.

(** *** The window and the frame on long lines *)

(** C1 fails on the code. A file of four lines whose third has twenty
    characters is opened on a terminal 10 wide and 3 high; after two
    presses of Down the cursor is on row 2 while the window starts at row
    3 and the cursor is drawn on screen row -1: the scroll advance added
    the wrap count of the long line to the first visible row.  Likewise a
    file of a twenty-character line and two empty ones on the same
    terminal is drawn with the window [0, 2], whose lines need four rows
    where two are usable. *)
Lemma cursor_above_window_after_scroll :
  (∃ e, session (Some ["a"; "b"; twentyC; "d"]%string) (mkVertex 10 3)
          [press KeyDown; press KeyDown] = Ret e
        ∧ Y (cursorPos e) = 2 ∧ firstLineInFrame e = 3 ∧ lastLineInFrame e = 3
        ∧ shownCursor (screen e) = mkVertex 0 (-1))
  ∧ (∃ e, session (Some [twentyC; ""; ""]%string) (mkVertex 10 3) [] = Ret e
          ∧ firstLineInFrame e = 0 ∧ lastLineInFrame e = 2
          ∧ dimY e - 1 = 2
          ∧ specRows 10 20 + specRows 10 0 + specRows 10 0 = 4).
Proof.
  split; eexists; (split; [vm_compute; reflexivity | repeat split]).
Qed.

(** C3 fails on the code. On a terminal 2 wide and 2 high, which has one
    usable row, the frame of the one-line buffer [abc] is not built: the
    third character is written to row 1 of a frame of one row, which
    panics, and opening such a file ends the same way.  So does opening,
    on a terminal 10 wide and 3 high, a file whose second line has twenty
    characters and one usable row left.  And the frame of a new file,
    whose only line is empty, keeps a nil first row. *)
Lemma frame_of_long_line_panics :
  fillTextFrameFromTop
    (mkEditor MODE_NORMAL "" "f.txt" ["abc"%string] 0 (mkVertex 0 0) "" CURSOR_UP
       0 0 (NewScreen (mkVertex 2 2)) false None) = Panic
  ∧ session (Some ["abc"%string]) (mkVertex 2 2) [] = Panic
  ∧ session (Some ["a"%string; twentyC]) (mkVertex 10 3) [] = Panic
  ∧ (∃ e, session None (mkVertex 2 2) [] = Ret e
          ∧ shownFrame (screen e) = [None]).
Proof.
  split; [reflexivity|]. split; [reflexivity|]. split; [reflexivity|].
  eexists. split; [vm_compute; reflexivity | reflexivity].
Qed.

(** *** Enter and Backspace in Insert mode *)

(** C4 fails on the code. In the two-line buffer [abc], [def], [A] puts
    the cursor after the last character of the first line in Insert mode;
    Enter then leaves [abc], [abc], [def]: the line after the cursor's is a
    copy of it, not an empty line. *)
Lemma enter_at_end_of_line_copies_it :
  ∃ e1 e2,
    session (Some ["abc"; "def"]%string) (mkVertex 10 5) [typed 65] = Ret e1
    ∧ currentMode e1 = MODE_INSERT
    ∧ dataBuffer e1 = ["abc"; "def"]%string
    ∧ cursorPos e1 = mkVertex 3 0
    ∧ handleEvent saveOk enterKey e1 = Ret e2
    ∧ dataBuffer e2 = ["abc"; "abc"; "def"]%string
    ∧ cursorPos e2 = mkVertex 0 1.
Proof.
  eexists. eexists. split; [vm_compute; reflexivity|].
  do 3 (split; [reflexivity|]). split; [vm_compute; reflexivity|].
  split; reflexivity.
Qed.

(** *** Group resolution *)

Section Chains.

Variable t : theme.Theme.

Lemma Reaches_trans (a b c : string) :
  Reaches t a b → Reaches t b c → Reaches t a c.
Proof.
  induction 1 as [|a next x Hg Hl _ IH]; [auto|].
  intros Hbc. eapply reaches_next; eauto.
Qed.

Lemma Reaches_step (a next : string) :
  theme.Groups t !! a = None → theme.Links t !! a = Some next → Reaches t a next.
Proof. intros Hg Hl. eapply reaches_next; eauto. constructor. Qed.

(** The chain is a line: of two names found from the same one, one is
    found from the other. *)
Lemma Reaches_linear (a x z : string) :
  Reaches t a x → Reaches t a z → Reaches t x z ∨ Reaches t z x.
Proof.
  induction 1 as [|a next x Hg Hl Hx IH]; intros Hz; [now left|].
  inversion Hz as [|a' next' z' Hg' Hl' Hz']; subst.
  - right. eapply reaches_next; eauto.
  - rewrite Hl in Hl'. injection Hl' as <-. auto.
Qed.

(** The chain stops at a defined group and at an undefined name. *)
Lemma Reaches_stops_defined (x z : string) (hl : theme.TextHighlight) :
  Defined_at t x hl → Reaches t x z → z = x.
Proof.
  unfold Defined_at. intros Hd Hr.
  inversion Hr; subst; [reflexivity | congruence].
Qed.

Lemma Reaches_stops_undefined (x z : string) :
  Undefined_at t x → Reaches t x z → z = x.
Proof.
  intros [Hg Hl] Hr. inversion Hr; subst; [reflexivity | congruence].
Qed.

(** A name found from one on a cycle is on a cycle. *)
Lemma Cycle_closed (x z : string) :
  Reaches t x z → Cycle_at t x → Cycle_at t z.
Proof.
  induction 1 as [|a next x Hg Hl Hx IH]; [auto|].
  intros (_ & y & Hy & Hback). rewrite Hl in Hy. injection Hy as <-.
  apply IH. inversion Hback as [|a' m x' Hg' Hl' Hm]; subst.
  - split; [assumption|]. exists a. split; [assumption | constructor].
  - split; [assumption|]. exists m. split; [assumption|].
    eapply Reaches_trans; [exact Hm|]. now apply Reaches_step.
Qed.

(** The three ends exclude one another along one chain. *)
Lemma chain_end_unique (a x z : string) (hl : theme.TextHighlight) :
  Reaches t a x → Defined_at t x hl → Reaches t a z →
  (∀ hl', Defined_at t z hl' → hl' = hl)
  ∧ ¬ Undefined_at t z ∧ ¬ Cycle_at t z.
Proof.
  intros Hx Hd Hz. destruct (Reaches_linear _ _ _ Hx Hz) as [Hxz|Hzx].
  - apply (Reaches_stops_defined _ _ _ Hd) in Hxz. subst z.
    unfold Defined_at, Undefined_at, Cycle_at in *. repeat split.
    + intros hl' Hd'. congruence.
    + intros [Hg _]. congruence.
    + intros [Hg _]. congruence.
  - repeat split.
    + intros hl' Hd'. apply (Reaches_stops_defined _ _ _ Hd') in Hzx. subst.
      unfold Defined_at in *. congruence.
    + intros Hu. apply (Reaches_stops_undefined _ _ Hu) in Hzx. subst.
      destruct Hu as [Hg _]. unfold Defined_at in Hd. congruence.
    + intros Hc. apply (Cycle_closed _ _ Hzx) in Hc. destruct Hc as [Hg _].
      unfold Defined_at in Hd. congruence.
Qed.

(** What the loop returns, read off its own recursion: with every visited
    name an undefined one whose link leads to the current name, [Some] is a
    group found along the chain and [None] an undefined name or a cycle. *)
Lemma resolveFrom_sound (visited : gset string) (cur : string) :
  (∀ v, v ∈ visited →
     theme.Groups t !! v = None
     ∧ ∃ y, theme.Links t !! v = Some y ∧ Reaches t y cur) →
  match theme.resolveFrom t visited cur with
  | Some hl => ∃ x, Reaches t cur x ∧ Defined_at t x hl
  | None => ∃ x, Reaches t cur x ∧ (Undefined_at t x ∨ Cycle_at t x)
  end.
Proof.
  funelim (theme.resolveFrom t visited cur); intros Hinv.
  - (* cur was visited: a cycle *)
    exists cur. split; [constructor|]. right.
    destruct (Hinv cur e) as (Hg & y & Hy & Hr). split; eauto.
  - (* cur is a defined group *)
    exists cur. split; [constructor | assumption].
  - (* cur is linked to next *)
    match goal with
    | IH : _ → match theme.resolveFrom t _ next with _ => _ end |- _ =>
      assert (Hnext := IH)
    end.
    assert (Hstep : Reaches t cur next) by now apply Reaches_step.
    match type of Hnext with ?P → _ => assert (Hpre : P) end.
    { intros v Hv. apply elem_of_union in Hv as [Hv|Hv].
      - apply elem_of_singleton in Hv. subst v. split; [assumption|].
        exists next. split; [assumption | constructor].
      - destruct (Hinv v Hv) as (Hg & y & Hy & Hr). split; [assumption|].
        exists y. split; [assumption|]. eapply Reaches_trans; eauto. }
    specialize (Hnext Hpre).
    destruct (theme.resolveFrom t ({[cur]} ∪ visited) next).
    + destruct Hnext as (x & Hx & Hd). exists x. split; [|assumption].
      eapply Reaches_trans; eauto.
    + destruct Hnext as (x & Hx & Hd). exists x. split; [|assumption].
      eapply Reaches_trans; eauto.
  - (* cur is neither defined nor linked *)
    exists cur. split; [constructor|]. left. now split.
Qed.

End Chains.

(** C9. [ResolveGroup] is a total function of the theme and the name: its
    loop is defined by recursion on the number of linked names not yet
    visited.  It follows the alias chain by repeated lookup: when the
    chain from [name] comes to a defined group the answer is that group's
    highlight; when it comes to a name that is neither defined nor linked,
    or comes back to a name it has passed, the answer is "unresolved"; and
    every chain comes to one of these three ends. *)
Theorem ResolveGroup_follows_alias_chain (t : theme.Theme) (name : string) :
  (∀ x hl, Reaches t name x → Defined_at t x hl →
           theme.ResolveGroup (Some t) name = Some hl)
  ∧ (∀ x, Reaches t name x → Undefined_at t x →
          theme.ResolveGroup (Some t) name = None)
  ∧ (∀ x, Reaches t name x → Cycle_at t x →
          theme.ResolveGroup (Some t) name = None)
  ∧ ((∃ x hl, Reaches t name x ∧ Defined_at t x hl)
     ∨ (∃ x, Reaches t name x ∧ (Undefined_at t x ∨ Cycle_at t x))).
Proof.
  assert (Hs := resolveFrom_sound t ∅ name).
  assert (Hpre : ∀ v : string, v ∈ (∅ : gset string) →
            theme.Groups t !! v = None
            ∧ ∃ y, theme.Links t !! v = Some y ∧ Reaches t y name).
  { intros v Hv. now apply not_elem_of_empty in Hv. }
  specialize (Hs Hpre). clear Hpre. unfold theme.ResolveGroup.
  destruct (theme.resolveFrom t ∅ name) as [hl0|].
  - destruct Hs as (x0 & Hx0 & Hd0).
    destruct (chain_end_unique t name x0) with (hl := hl0) (z := x0)
      as (_ & _ & _); auto.
    repeat split.
    + intros x hl Hx Hd.
      destruct (chain_end_unique t name x x0 hl Hx Hd Hx0) as (Hu & _ & _).
      f_equal. now apply Hu.
    + intros x Hx Hu.
      destruct (chain_end_unique t name x0 x hl0 Hx0 Hd0 Hx) as (_ & Hn & _).
      contradiction.
    + intros x Hx Hc.
      destruct (chain_end_unique t name x0 x hl0 Hx0 Hd0 Hx) as (_ & _ & Hn).
      contradiction.
    + left. eauto.
  - destruct Hs as (x0 & Hx0 & Hend). repeat split; auto.
    + intros x hl Hx Hd.
      destruct (chain_end_unique t name x x0 hl Hx Hd Hx0) as (_ & Hn1 & Hn2).
      destruct Hend; contradiction.
    + right. eauto.
Qed.

Lemma ResolveGroup_follows_alias_chain_witness :
  theme.ResolveGroup (Some sampleTheme) "Comment" = Some theme.zeroHighlight
  ∧ theme.ResolveGroup (Some sampleTheme) "Lost" = None
  ∧ theme.ResolveGroup (Some sampleTheme) "Ping" = None.
Proof.
  split; [|split].
  - apply (proj1 (ResolveGroup_follows_alias_chain sampleTheme "Comment") "Normal").
    + apply (reaches_next _ _ "Dim"); [reflexivity | reflexivity |].
      apply (reaches_next _ _ "Normal"); [reflexivity | reflexivity |].
      constructor.
    + reflexivity.
  - apply (proj1 (proj2 (ResolveGroup_follows_alias_chain sampleTheme "Lost")) "Nowhere").
    + apply (reaches_next _ _ "Nowhere"); [reflexivity | reflexivity |].
      constructor.
    + split; reflexivity.
  - apply (proj1 (proj2 (proj2 (ResolveGroup_follows_alias_chain sampleTheme "Ping"))) "Ping").
    + constructor.
    + split; [reflexivity|]. exists "Pong"%string. split; [reflexivity|].
      apply (reaches_next _ _ "Ping"); [reflexivity | reflexivity |].
      constructor.
Defined.

(** *** Reads and writes of slices *)

Lemma index_Ret {A : Type} (l : list A) (i : Z) (a : A) :
  0 <= i → l !! Z.to_nat i = Some a → index l i = Ret a.
Proof.
  intros Hi Hl. unfold index.
  destruct (Z.ltb_spec i 0); [lia|]. now rewrite Hl.
Qed.

Lemma index_inv {A : Type} (l : list A) (i : Z) (a : A) :
  index l i = Ret a → 0 <= i ∧ l !! Z.to_nat i = Some a.
Proof.
  unfold index. destruct (Z.ltb_spec i 0); [discriminate|].
  destruct (l !! Z.to_nat i) eqn:E; [|discriminate].
  intros [= <-]. auto.
Qed.

Lemma index_middle {A : Type} (l1 l2 : list A) (a : A) :
  index (l1 ++ a :: l2) (lenS l1) = Ret a.
Proof.
  apply index_Ret; [unfold lenS; lia|].
  unfold lenS. rewrite Nat2Z.id. now apply list_lookup_middle.
Qed.

Lemma store_Ret {A : Type} (l : list A) (i : Z) (v : A) :
  0 <= i < lenS l → store l i v = Ret (<[Z.to_nat i := v]> l).
Proof.
  intros Hi. unfold store.
  destruct (Z.ltb_spec i 0); [lia|].
  destruct (Z.leb_spec (lenS l) i); [lia|]. reflexivity.
Qed.

Lemma store_inv {A : Type} (l l' : list A) (i : Z) (v : A) :
  store l i v = Ret l' → 0 <= i < lenS l ∧ l' = <[Z.to_nat i := v]> l.
Proof.
  unfold store.
  destruct (Z.ltb_spec i 0); [discriminate|].
  destruct (Z.leb_spec (lenS l) i); [discriminate|].
  intros [= <-]. split; [lia | reflexivity].
Qed.

Lemma make_Ret {A : Type} (z : A) (n : Z) :
  0 <= n → make z n = Ret (replicate (Z.to_nat n) z).
Proof. intros Hn. unfold make. destruct (Z.ltb_spec n 0); [lia | reflexivity]. Qed.

Lemma take_insert_next {A : Type} (l : list A) (j : nat) (v : A) :
  (j < length l)%nat → take (S j) (<[j := v]> l) = take j l ++ [v].
Proof.
  intros Hj. rewrite (take_S_r _ _ v) by now apply list_lookup_insert_eq.
  f_equal. apply take_insert_ge. lia.
Qed.

(** *** The merge loop of Backspace *)

Section Merge.

Variable e : Editor.
Variables (prev cur : string).
Hypothesis Hcur : index (dataBuffer e) (Y (cursorPos e)) = Ret cur.

(** Below the cursor's row the loop copies every line one index up. *)
Lemma mergeLoop_below (rest : list string) : ∀ (i j : Z) (nb : list string),
  Y (cursorPos e) < i → 0 <= j → j + lenS rest = lenS nb →
  mergeLoop e rest i j nb = Ret (take (Z.to_nat j) nb ++ rest).
Proof.
  induction rest as [|line rest IH]; intros i j nb Hi Hj Hlen; simpl.
  - unfold lenS in *. simpl in Hlen. rewrite app_nil_r, take_ge by lia. reflexivity.
  - unfold lenS in Hlen. simpl in Hlen.
    destruct (Z.eqb_spec i (Y (cursorPos e))); [lia|].
    destruct (Z.eqb_spec i (Y (cursorPos e) - 1)); [lia|]. simpl.
    rewrite store_Ret by (unfold lenS; lia). simpl.
    rewrite IH; [|lia|lia|unfold lenS; rewrite length_insert; lia].
    replace (Z.to_nat (j + 1)) with (S (Z.to_nat j)) by lia.
    rewrite take_insert_next by lia. now rewrite <- app_assoc.
Qed.

(** From a row above the cursor's the loop copies the lines up to the
    previous one, writes the previous one joined with the cursor's, and
    drops the cursor's. *)
Lemma mergeLoop_above (above rest : list string) : ∀ (i j : Z) (nb : list string),
  i + lenS above = Y (cursorPos e) - 1 → 0 <= j →
  j + lenS above + 1 + lenS rest = lenS nb →
  mergeLoop e (above ++ prev :: cur :: rest) i j nb
    = Ret (take (Z.to_nat j) nb ++ above ++ (prev +:+ cur) :: rest).
Proof.
  induction above as [|line above IH]; intros i j nb Hi Hj Hlen;
    unfold lenS in Hi, Hlen; simpl in Hi, Hlen; simpl.
  - destruct (Z.eqb_spec i (Y (cursorPos e))); [lia|].
    destruct (Z.eqb_spec i (Y (cursorPos e) - 1)); [|lia].
    rewrite Hcur. simpl. rewrite store_Ret by (unfold lenS; lia). simpl.
    destruct (Z.eqb_spec (i + 1) (Y (cursorPos e))); [|lia].
    rewrite mergeLoop_below; [|lia|lia|unfold lenS; rewrite length_insert; lia].
    replace (Z.to_nat (j + 1)) with (S (Z.to_nat j)) by lia.
    rewrite take_insert_next by lia. now rewrite <- app_assoc.
  - destruct (Z.eqb_spec i (Y (cursorPos e))); [lia|].
    destruct (Z.eqb_spec i (Y (cursorPos e) - 1)); [lia|]. simpl.
    rewrite store_Ret by (unfold lenS; lia). simpl.
    rewrite IH; [|unfold lenS; lia|lia|unfold lenS; rewrite length_insert; lia].
    replace (Z.to_nat (j + 1)) with (S (Z.to_nat j)) by lia.
    rewrite take_insert_next by lia. now rewrite <- app_assoc.
Qed.

End Merge.

(** *** What a redraw leaves alone *)

(** Case analysis on the first call of a sequence that returned. *)
Ltac bind_inv H :=
  match type of H with
  | mbind _ ?m = Ret _ =>
    let E := fresh "E" in
    destruct m eqn:E; simpl in H; try discriminate H
  end.

Lemma fillTextFrameFromTop_fields (e e' : Editor) (fr : TextFrame) :
  fillTextFrameFromTop e = Ret (fr, e') →
  ∃ last, e' = set_lastLineInFrame last e.
Proof.
  unfold fillTextFrameFromTop. intros H.
  bind_inv H. bind_inv H. destruct a0 as [fr' i].
  injection H as _ <-. eauto.
Qed.

Lemma drawTextFrame_fields (e e' : Editor) :
  drawTextFrame e = Ret e' →
  ∃ scr last, e' = set_screen scr (set_lastLineInFrame last e)
              ∧ ScreenDim scr = ScreenDim (screen e).
Proof.
  unfold drawTextFrame. intros H.
  bind_inv H. destruct a as [fr e1].
  apply fillTextFrameFromTop_fields in E as [last ->].
  bind_inv H.
  destruct (theme.ResolveGroup _ _); injection H as <-;
    eexists; eexists; split; reflexivity.
Qed.

Lemma syncCursor_fields (e e' : Editor) :
  syncCursor e = Ret e' →
  ∃ scr last, e' = set_screen scr (set_lastLineInFrame last e)
              ∧ ScreenDim scr = ScreenDim (screen e).
Proof.
  unfold syncCursor. intros H.
  bind_inv H. bind_inv H.
  apply drawTextFrame_fields in E0 as (scr & last & -> & Hd).
  injection H as <-. eexists; eexists; split; [reflexivity | exact Hd].
Qed.

Lemma syncTextFrame_fields (b : bool) (e e' : Editor) :
  syncTextFrame b e = Ret e' →
  ∃ scr last, e' = set_screen scr (set_lastLineInFrame last e)
              ∧ ScreenDim scr = ScreenDim (screen e).
Proof.
  unfold syncTextFrame. intros H.
  bind_inv H.
  apply drawTextFrame_fields in E as (scr & last & -> & Hd).
  destruct b.
  - injection H as <-. eauto.
  - apply syncCursor_fields in H as (scr' & last' & -> & Hd').
    eexists; eexists; split; [reflexivity|]. simpl in Hd'. congruence.
Qed.

(** The state Backspace at column 0 of a row below the first hands to
    the redraw, out of the source's three assignments. *)
Lemma backspace_merge_state (event : Event) (e : Editor)
    (above below : list string) (prev cur : string) :
  isBackspace (Value event) = true →
  dataBuffer e = above ++ prev :: cur :: below →
  cursorPos e = mkVertex 0 (lenS above + 1) →
  handleKeyInsertMode event e
    = syncTextFrame false
        (set_dataBuffer (above ++ (prev +:+ cur) :: below)
           (set_cursorY (lenS above)
              (set_cursorX (len prev) (set_isDirty true e)))).
Proof.
  intros Hb Hbuf Hc.
  assert (Hcur : index (dataBuffer (set_isDirty true e))
                   (Y (cursorPos (set_isDirty true e))) = Ret cur).
  { simpl. rewrite Hbuf, Hc. simpl.
    replace (above ++ prev :: cur :: below) with ((above ++ [prev]) ++ cur :: below)
      by now rewrite <- app_assoc.
    replace (lenS above + 1) with (lenS (above ++ [prev]))
      by (unfold lenS; rewrite length_app; simpl; lia).
    apply index_middle. }
  assert (Hprev : index (dataBuffer e) (lenS above) = Ret prev).
  { rewrite Hbuf. apply index_middle. }
  assert (Hmerge := mergeLoop_above (set_isDirty true e) prev cur Hcur above below 0 0
            (replicate (Z.to_nat (getLinesCount e - 1)) EmptyString)).
  assert (Hn : getLinesCount e = lenS above + 2 + lenS below).
  { unfold getLinesCount, lenS. rewrite Hbuf, length_app. simpl. lia. }
  unfold handleKeyInsertMode, isBackspace in *.
  destruct (Value event); simpl in Hb; try discriminate.
  all: change (cursorPos (set_isDirty true e)) with (cursorPos e) in *.
  all: change (dataBuffer (set_isDirty true e)) with (dataBuffer e).
  all: change (getLinesCount (set_isDirty true e)) with (getLinesCount e).
  all: rewrite Hc in *; simpl X; simpl Y in *.
  all: change (0 =? 0) with true; change (0 >? 0) with false.
  all: destruct (Z.eqb_spec (lenS above + 1) 0); [unfold lenS in *; lia|].
  all: simpl andb; cbv iota.
  all: rewrite make_Ret by (unfold lenS in *; lia); simpl mbind at 2.
  all: rewrite Hbuf at 1.
  all: rewrite Hmerge;
         [|lia|lia|unfold lenS in *; rewrite length_replicate; lia].
  all: replace (lenS above + 1 - 1) with (lenS above) by lia.
  all: rewrite Hprev; reflexivity.
Qed.

(** *** The redraw returns when no line wraps *)

Lemma putRune_Ret (W : Z) (fr : TextFrame) (x y ch : Z) :
  rowsWide W fr → 0 <= y < lenS fr → 0 <= x < W →
  ∃ fr', putRune W fr x y ch = Ret fr' ∧ rowsWide W fr' ∧ length fr' = length fr.
Proof.
  intros Hw Hy Hx. unfold putRune.
  destruct (lookup_lt_is_Some_2 fr (Z.to_nat y)) as [row Hrow];
    [unfold lenS in Hy; lia|].
  rewrite (index_Ret _ _ _ (proj1 Hy) Hrow). simpl.
  assert (Hrw : rowWide W row) by (eapply Forall_lookup_1; eauto).
  assert (Hcells : ∃ cells, match row with
                            | Some cells => mret cells
                            | None => make 0 W
                            end = Ret cells ∧ lenS cells = W).
  { destruct row as [cells|]; simpl in *; [eauto|].
    rewrite make_Ret by lia. eexists. split; [reflexivity|].
    unfold lenS. rewrite length_replicate. lia. }
  destruct Hcells as (cells & -> & Hlen). simpl.
  rewrite store_Ret by lia. simpl. rewrite store_Ret by lia.
  eexists. split; [reflexivity|]. split; [|now rewrite length_insert].
  apply Forall_insert; [assumption|]. simpl. unfold lenS in *.
  now rewrite length_insert.
Qed.

Lemma layLine_unwrapped (W : Z) (chars : list Z) : ∀ (fr : TextFrame) (x y : Z),
  rowsWide W fr → 0 <= y < lenS fr → 0 <= x → x + lenS chars < W →
  ∃ fr', layLine W chars fr x y = Ret (fr', x + lenS chars, y)
         ∧ rowsWide W fr' ∧ length fr' = length fr.
Proof.
  induction chars as [|ch chars IH]; intros fr x y Hw Hy Hx Hfit.
  - simpl. exists fr. unfold lenS. simpl. rewrite Z.add_0_r. auto.
  - unfold lenS in Hfit. simpl length in Hfit. simpl.
    destruct (putRune_Ret W fr x y ch Hw Hy) as (fr1 & -> & Hw1 & Hl1); [lia|].
    simpl. destruct (Z.eqb_spec (x + 1) W); [lia|].
    destruct (IH fr1 (x + 1) y Hw1) as (fr' & -> & Hw' & Hl');
      [unfold lenS in *; lia | lia | unfold lenS; lia |].
    exists fr'. split; [|split; [assumption | congruence]].
    do 3 f_equal. unfold lenS. simpl length. lia.
Qed.

Lemma fillLoop_unwrapped (e : Editor) : ∀ (fuel : nat) (i y : Z) (fr : TextFrame),
  unwrapped (dimX e) (dataBuffer e) →
  rowsWide (dimX e) fr → lenS fr = dimY e - 1 →
  0 <= i < getLinesCount e → 0 <= y <= dimY e - 2 →
  (Z.to_nat (getLinesCount e - i) <= fuel)%nat →
  ∃ fr' last, fillLoop fuel e i y fr = Ret (fr', last)
              ∧ length fr' = length fr.
Proof.
  induction fuel as [|fuel IH]; intros i y fr Hu Hw Hl Hi Hy Hfuel; [lia|].
  simpl.
  destruct (lookup_lt_is_Some_2 (dataBuffer e) (Z.to_nat i)) as [line Hline];
    [unfold getLinesCount, lenS in Hi; lia|].
  rewrite (index_Ret _ _ _ (proj1 Hi) Hline). simpl.
  assert (Hshort : lenS (runes line) < dimX e).
  { eapply (Forall_lookup_1 _ _ _ _ Hu Hline). }
  destruct (layLine_unwrapped (dimX e) (runes line) fr 0 y Hw) as (fr1 & -> & Hw1 & Hl1);
    [lia | lia | lia |].
  simpl.
  destruct ((i + 1 =? getLinesCount e) || (y =? dimY e - 2)) eqn:Hstop.
  - eauto.
  - apply orb_false_iff in Hstop as [H1 H2].
    apply Z.eqb_neq in H1. apply Z.eqb_neq in H2.
    destruct (IH (i + 1) (y + 1) fr1 Hu Hw1) as (fr' & last & -> & Hl');
      [unfold lenS in *; lia | lia | lia | lia |].
    exists fr', last. split; [reflexivity | congruence].
Qed.

Lemma tildeLoop_Ret (W : Z) : ∀ (i : nat) (b : bool) (fr : TextFrame),
  1 <= W → (i = 0 ∨ i < length fr)%nat →
  ∃ fr', tildeLoop W i b fr = Ret fr'.
Proof.
  induction i as [|i IH]; intros b fr HW Hi; simpl; [eauto|].
  destruct Hi as [Hi|Hi]; [discriminate|].
  destruct (lookup_lt_is_Some_2 fr (S i)) as [row Hrow]; [lia|].
  rewrite (index_Ret fr (Z.of_nat (S i)) row) by (rewrite ?Nat2Z.id; auto; lia).
  simpl. destruct row as [cells|].
  - apply IH; [assumption | lia].
  - rewrite make_Ret by lia. simpl.
    assert (Hc : ∃ cells', (if b then store (replicate (Z.to_nat W) 0) 0 126
                            else mret (replicate (Z.to_nat W) 0)) = Ret cells').
    { destruct b; [|eauto]. rewrite store_Ret; [eauto|].
      unfold lenS. rewrite length_replicate. lia. }
    destruct Hc as [cells' ->]. simpl.
    rewrite store_Ret by (unfold lenS; lia). simpl.
    apply IH; [assumption|]. rewrite length_insert. lia.
Qed.

Lemma drawTextFrame_Ret (e : Editor) :
  1 <= dimX e → 2 <= dimY e →
  0 <= firstLineInFrame e < getLinesCount e →
  unwrapped (dimX e) (dataBuffer e) →
  ∃ e', drawTextFrame e = Ret e'.
Proof.
  intros HW HH Hfirst Hu. unfold drawTextFrame, fillTextFrameFromTop.
  rewrite make_Ret by lia. rewrite bind_Ret.
  destruct (fillLoop_unwrapped e (S (length (dataBuffer e))) (firstLineInFrame e) 0
              (replicate (Z.to_nat (dimY e - 1)) None) Hu)
    as (fr & last & -> & Hlen).
  - apply Forall_replicate. exact I.
  - unfold lenS. rewrite length_replicate. lia.
  - assumption.
  - lia.
  - unfold getLinesCount, lenS in *. lia.
  - simpl. unfold fillEmptyLinesIfAnyWithTilde.
    destruct (tildeLoop_Ret (dimX (set_lastLineInFrame last e))
                (Nat.pred (length fr)) true fr) as [fr' ->]; [exact HW | lia |].
    simpl. destruct (theme.ResolveGroup _ _); eauto.
Qed.

Lemma wrappedAbove_Ret (e : Editor) (rows : list Z) : ∀ y : Z,
  dimX e ≠ 0 → Forall (fun i => 0 <= i < getLinesCount e) rows →
  ∃ y', wrappedAbove e rows y = Ret y'.
Proof.
  induction rows as [|i rows IH]; intros y HW Hrows; simpl; [eauto|].
  apply Forall_cons in Hrows as [Hi Hrows].
  destruct (lookup_lt_is_Some_2 (dataBuffer e) (Z.to_nat i)) as [line Hline];
    [unfold getLinesCount, lenS in Hi; lia|].
  rewrite (index_Ret _ _ _ (proj1 Hi) Hline). simpl.
  unfold div. destruct (Z.eqb_spec (dimX e) 0); [contradiction|]. simpl.
  now apply IH.
Qed.

(** With a width of at least one the second loop of [syncCursor] ends
    within the turns it is given. *)
Lemma wrapCursor_Ret (W : Z) : ∀ (fuel : nat) (x y : Z),
  1 <= W → (Z.to_nat x < fuel)%nat → ∃ v, wrapCursor fuel W x y = Ret v.
Proof.
  induction fuel as [|fuel IH]; intros x y HW Hfuel; [lia|].
  simpl. destruct (Z.gtb_spec x W); [|eauto].
  apply IH; [assumption | lia].
Qed.

Lemma cursorPosScreen_Ret (e : Editor) :
  1 <= dimX e → 0 <= firstLineInFrame e →
  Y (cursorPos e) < getLinesCount e →
  ∃ v, cursorPosScreen e = Ret v.
Proof.
  intros HW Hfirst Hcy. unfold cursorPosScreen.
  destruct (wrappedAbove_Ret e
              (seqZ (firstLineInFrame e) (Y (cursorPos e) - firstLineInFrame e))
              (Y (cursorPos e) - firstLineInFrame e)) as [y ->]; [lia| |].
  - apply Forall_forall. intros i Hi. apply elem_of_seqZ in Hi. lia.
  - rewrite bind_Ret. apply wrapCursor_Ret; [assumption | lia].
Qed.

(** The redraw after a change returns when the terminal has a column and
    two rows, the window starts on a line of the buffer, the cursor's row
    is not past the buffer and no line wraps. *)
Lemma syncTextFrame_Ret (b : bool) (e : Editor) :
  1 <= dimX e → 2 <= dimY e →
  0 <= firstLineInFrame e < getLinesCount e →
  Y (cursorPos e) < getLinesCount e →
  unwrapped (dimX e) (dataBuffer e) →
  ∃ e', syncTextFrame b e = Ret e'.
Proof.
  intros HW HH Hfirst Hcy Hu. unfold syncTextFrame.
  destruct (drawTextFrame_Ret e HW HH Hfirst Hu) as [e1 He1]. rewrite He1. simpl.
  destruct b; [eauto|].
  destruct (drawTextFrame_fields _ _ He1) as (scr & last & -> & Hd).
  unfold syncCursor.
  destruct (cursorPosScreen_Ret (set_screen scr (set_lastLineInFrame last e)))
    as [v ->].
  - unfold dimX in *. simpl. now rewrite Hd.
  - simpl. lia.
  - exact Hcy.
  - simpl.
    destruct (drawTextFrame_Ret (set_screen scr (set_lastLineInFrame last e)))
      as [e2 ->]; unfold dimX, dimY in *; simpl; rewrite ?Hd; eauto.
Qed.

(** In Insert mode the event loop hands Enter and Backspace to
    [handleKeyInsertMode]. *)
Lemma handleEvent_insert_key (W : string → list string → option string)
    (event : Event) (e : Editor) :
  Kind event = KEY_PRESS → currentMode e = MODE_INSERT →
  isBackspace (Value event) = true ∨ Value event = KeyEnter →
  handleEvent W event e = handleKeyInsertMode event e.
Proof.
  intros Hk Hm Hv. unfold handleEvent. rewrite Hk, Hm.
  assert (Hesc : bool_decide (Value event = KeyEscape) = false).
  { destruct Hv as [Hv|Hv]; [|now rewrite Hv].
    unfold isBackspace in Hv. destruct (Value event); simpl in Hv; now try discriminate. }
  assert (Hmove : handleTextAreaCursorMovement event e = Ret (false, e)).
  { unfold handleTextAreaCursorMovement.
    destruct Hv as [Hv|Hv]; [|now rewrite Hv].
    unfold isBackspace in Hv. destruct (Value event); simpl in Hv; now try discriminate. }
  now rewrite Hesc, Hmove.
Qed.

(** The join of two lines, where the redraw returns.  Backspace in Insert
    mode at column 0 of a row that has a row
    [prev] before it is handled by [handleKeyInsertMode]: the editor
    handed to the redraw has the cursor's line [cur] appended to [prev],
    the row removed and the rows below moved up, the cursor on the
    previous row at the length [prev] had, and the dirty flag set; buffer
    and cursor are those whenever the key press returns; and it returns
    when no line of the merged buffer wraps and the window starts inside
    it. *)
Theorem backspace_joins_line_with_previous
    (W : string → list string → option string) (event : Event) (e : Editor)
    (above below : list string) (prev cur : string) :
  isBackspace (Value event) = true →
  dataBuffer e = above ++ prev :: cur :: below →
  cursorPos e = mkVertex 0 (lenS above + 1) →
  (Kind event = KEY_PRESS → currentMode e = MODE_INSERT →
   handleEvent W event e = handleKeyInsertMode event e)
  ∧ handleKeyInsertMode event e
    = syncTextFrame false
        (set_dataBuffer (above ++ (prev +:+ cur) :: below)
           (set_cursorY (lenS above)
              (set_cursorX (len prev) (set_isDirty true e))))
  ∧ (∀ e', handleKeyInsertMode event e = Ret e' →
       dataBuffer e' = above ++ (prev +:+ cur) :: below
       ∧ cursorPos e' = mkVertex (len prev) (lenS above)
       ∧ isDirty e' = true)
  ∧ (1 <= dimX e → 2 <= dimY e →
     0 <= firstLineInFrame e <= lenS above + lenS below →
     unwrapped (dimX e) (above ++ (prev +:+ cur) :: below) →
     ∃ e', handleKeyInsertMode event e = Ret e').
Proof.
  intros Hb Hbuf Hc.
  assert (Heq := backspace_merge_state event e above below prev cur Hb Hbuf Hc).
  split; [intros Hk Hm; apply handleEvent_insert_key; auto|].
  split; [exact Heq|]. rewrite Heq. split.
  - intros e' He'.
    apply syncTextFrame_fields in He' as (scr & last & -> & _). auto.
  - intros HW HH Hfirst Hu.
    apply syncTextFrame_Ret; try assumption.
    + unfold getLinesCount, lenS in *. simpl. rewrite length_app. simpl. lia.
    + unfold getLinesCount, lenS. simpl. rewrite length_app. simpl. lia.
Qed.

Lemma backspace_joins_line_with_previous_witness :
  ∃ e', handleEvent saveOk backspaceKey (insertEditor ["abc"; "def"]%string 0 1) = Ret e'
        ∧ dataBuffer e' = ["abcdef"%string]
        ∧ cursorPos e' = mkVertex 3 0
        ∧ isDirty e' = true.
Proof.
  destruct (backspace_joins_line_with_previous saveOk backspaceKey
              (insertEditor ["abc"; "def"]%string 0 1) [] [] "abc" "def"
              eq_refl eq_refl eq_refl) as (Hloop & _ & Hstate & Hret).
  rewrite (Hloop eq_refl eq_refl).
  destruct Hret as [e' He'].
  - unfold dimX. simpl. lia.
  - unfold dimY. simpl. lia.
  - simpl. unfold lenS. simpl. lia.
  - repeat constructor.
  - exists e'. split; [exact He'|]. exact (Hstate e' He').
Defined.

(** C5 fails on the code.  The join leaves [firstLineInFrame] where it
    was.  A file of the two lines [ab] and [cd] is opened on a terminal
    10 wide and 2 high; Down puts the cursor on the second row and the
    window start with it, [i] enters Insert mode, and the editor then has
    two lines and the cursor at column 0 of the second row, as the claim
    asks.  Backspace joins the lines into one and the redraw reads the
    line at index 1 of a buffer of one line: the editor panics, where the
    claim has the buffer [abcd] and the cursor at row 0, column 2.
    Likewise on the three lines [a], [b], [c] and a terminal 10 wide and 3
    high, after Down, Down, Up and [i], Backspace returns with the lines
    joined and the cursor on row 0 while the window still starts at row
    1, and the cursor is drawn on screen row -1. *)
Lemma backspace_join_panics_at_window_start :
  (∃ e, session (Some ["ab"; "cd"]%string) (mkVertex 10 2)
          [press KeyDown; typed 105] = Ret e
        ∧ currentMode e = MODE_INSERT
        ∧ dataBuffer e = ["ab"; "cd"]%string
        ∧ cursorPos e = mkVertex 0 1
        ∧ firstLineInFrame e = 1)
  ∧ session (Some ["ab"; "cd"]%string) (mkVertex 10 2)
      [press KeyDown; typed 105; backspaceKey] = Panic
  ∧ (∃ e, session (Some ["a"; "b"; "c"]%string) (mkVertex 10 3)
            [press KeyDown; press KeyDown; press KeyUp; typed 105; backspaceKey]
          = Ret e
          ∧ dataBuffer e = ["ab"; "c"]%string
          ∧ cursorPos e = mkVertex 1 0
          ∧ firstLineInFrame e = 1
          ∧ shownCursor (screen e) = mkVertex 1 (-1)).
Proof.
  split; [eexists; split; [vm_compute; reflexivity | repeat split]|].
  split; [vm_compute; reflexivity|].
  eexists; split; [vm_compute; reflexivity | repeat split].
Qed.

(** *** Where the frame puts the characters *)

Lemma next_cell_wrap (W p : Z) :
  1 <= W → 0 <= p → p mod W + 1 = W →
  (p + 1) mod W = 0 ∧ (p + 1) / W = p / W + 1.
Proof.
  intros HW Hp Hw.
  assert (Hdm := Z.div_mod p W ltac:(lia)).
  assert (Heq : p + 1 = (p / W + 1) * W) by lia.
  rewrite Heq. split; [apply Z_mod_mult | apply Z_div_mult; lia].
Qed.

Lemma next_cell_same_row (W p : Z) :
  1 <= W → 0 <= p → p mod W + 1 ≠ W →
  (p + 1) mod W = p mod W + 1 ∧ (p + 1) / W = p / W.
Proof.
  intros HW Hp Hw.
  assert (Hdm := Z.div_mod p W ltac:(lia)).
  assert (Hr := Z.mod_pos_bound p W ltac:(lia)).
  assert (Heq : p + 1 = W * (p / W) + (p mod W + 1)) by lia.
  split; symmetry.
  - apply (Z.mod_unique (p + 1) W (p / W)); [left; lia | exact Heq].
  - apply (Z.div_unique (p + 1) W (p / W) (p mod W + 1)); [left; lia | exact Heq].
Qed.

Lemma cell_of_position_inj (W a b : Z) :
  1 <= W → a / W = b / W → a mod W = b mod W → a = b.
Proof.
  intros HW Hq Hr.
  rewrite (Z.div_mod a W), (Z.div_mod b W) by lia. now rewrite Hq, Hr.
Qed.

Lemma rowAt_lookup (fr : TextFrame) (y : Z) :
  0 <= y → rowAt fr y = fr !! Z.to_nat y.
Proof. intros Hy. unfold rowAt. destruct (Z.ltb_spec y 0); [lia | reflexivity]. Qed.

(** What one write does to the frame. *)
Lemma putRune_inv (W : Z) (fr fr1 : TextFrame) (x y ch : Z) :
  putRune W fr x y ch = Ret fr1 →
  0 <= y < lenS fr ∧ 0 <= x
  ∧ ∃ cells, fr1 = <[Z.to_nat y := Some (<[Z.to_nat x := ch]> cells)]> fr
             ∧ x < lenS cells
             ∧ (fr !! Z.to_nat y = Some (Some cells) ∨ fr !! Z.to_nat y = Some None).
Proof.
  unfold putRune. intros H.
  bind_inv H. apply index_inv in E as [Hy Hrow].
  bind_inv H. bind_inv H. apply store_inv in E0 as [Hx ->].
  apply store_inv in H as [Hy' ->].
  split; [lia|]. split; [lia|]. exists a0. split; [reflexivity|].
  split; [lia|]. destruct a as [cells|]; simpl in E.
  - injection E as ->. now left.
  - now right.
Qed.

Lemma putRune_length (W : Z) (fr fr1 : TextFrame) (x y ch : Z) :
  putRune W fr x y ch = Ret fr1 → length fr1 = length fr.
Proof.
  intros H. apply putRune_inv in H as (_ & _ & cells & -> & _).
  apply length_insert.
Qed.

Lemma putRune_rowAt (W : Z) (fr fr1 : TextFrame) (x y ch k : Z) :
  putRune W fr x y ch = Ret fr1 → k ≠ y → rowAt fr1 k = rowAt fr k.
Proof.
  intros H Hk. apply putRune_inv in H as (Hy & _ & cells & -> & _).
  unfold rowAt. destruct (Z.ltb_spec k 0); [reflexivity|].
  apply list_lookup_insert_ne. lia.
Qed.

Lemma putRune_cell_written (W : Z) (fr fr1 : TextFrame) (x y ch : Z) :
  putRune W fr x y ch = Ret fr1 → cellAt fr1 y x = Some ch.
Proof.
  intros H. apply putRune_inv in H as (Hy & Hx & cells & -> & Hlen & _).
  unfold cellAt. rewrite rowAt_lookup by lia.
  rewrite list_lookup_insert_eq by (unfold lenS in Hy; lia).
  destruct (Z.ltb_spec x 0); [lia|].
  apply list_lookup_insert_eq. unfold lenS in Hlen. lia.
Qed.

Lemma putRune_cell_kept (W : Z) (fr fr1 : TextFrame) (x y ch y0 x0 c : Z) :
  putRune W fr x y ch = Ret fr1 → (y0 ≠ y ∨ x0 ≠ x) →
  cellAt fr y0 x0 = Some c → cellAt fr1 y0 x0 = Some c.
Proof.
  intros H Hne Hc. destruct (Z.eq_dec y0 y) as [->|Hy0].
  - destruct Hne as [Hne|Hne]; [contradiction|].
    apply putRune_inv in H as (Hy & Hx & cells & -> & Hlen & Hrow).
    unfold cellAt in *. rewrite rowAt_lookup in * by lia.
    rewrite list_lookup_insert_eq by (unfold lenS in Hy; lia).
    destruct Hrow as [Hrow|Hrow]; rewrite Hrow in Hc; [|discriminate].
    destruct (Z.ltb_spec x0 0); [discriminate|].
    rewrite list_lookup_insert_ne by lia. exact Hc.
  - unfold cellAt in *. now rewrite (putRune_rowAt _ _ _ _ _ _ _ H Hy0).
Qed.

(** The characters of a line are written to consecutive cells.  Counting
    the cells of the frame row after row, the write that starts at cell
    [p], which is column [p mod W] of row [p / W], puts character [k] in
    cell [p + k] and touches no other cell and no other row. *)
Lemma layLine_cells (W : Z) (chars : list Z) :
  1 <= W →
  ∀ (fr fr' : TextFrame) (p x' y' : Z),
  0 <= p →
  layLine W chars fr (p mod W) (p / W) = Ret (fr', x', y') →
  x' = (p + lenS chars) mod W ∧ y' = (p + lenS chars) / W
  ∧ length fr' = length fr
  ∧ (∀ (k : nat) (ch : Z), chars !! k = Some ch →
       cellAt fr' ((p + Z.of_nat k) / W) ((p + Z.of_nat k) mod W) = Some ch)
  ∧ (∀ y0 x0 c, cellAt fr y0 x0 = Some c →
       (∀ j, 0 <= j < lenS chars → y0 ≠ (p + j) / W ∨ x0 ≠ (p + j) mod W) →
       cellAt fr' y0 x0 = Some c)
  ∧ (∀ k, (∀ j, 0 <= j < lenS chars → k ≠ (p + j) / W) →
       rowAt fr' k = rowAt fr k).
Proof.
  intros HW. induction chars as [|ch rest IH]; intros fr fr' p x' y' Hp H.
  - simpl in H. injection H as <- <- <-. unfold lenS. simpl.
    rewrite Z.add_0_r. repeat split; auto.
    intros k c Hk. rewrite lookup_nil in Hk. discriminate.
  - simpl in H. bind_inv H. rename a into fr1.
    assert (Hnext : layLine W rest fr1 ((p + 1) mod W) ((p + 1) / W) = Ret (fr', x', y')).
    { destruct (Z.eqb_spec (p mod W + 1) W) as [Hw|Hw].
      - destruct (next_cell_wrap W p HW Hp Hw) as [-> ->]. exact H.
      - destruct (next_cell_same_row W p HW Hp Hw) as [-> ->]. exact H. }
    clear H.
    destruct (IH fr1 fr' (p + 1) x' y' ltac:(lia) Hnext)
      as (Hx' & Hy' & Hlen & Hcells & Hkept & Hrows).
    assert (Hl : lenS (ch :: rest) = 1 + lenS rest)
      by (unfold lenS; simpl length; lia).
    rewrite Hl.
    replace (p + (1 + lenS rest)) with (p + 1 + lenS rest) by lia.
    split; [exact Hx'|]. split; [exact Hy'|].
    split; [rewrite Hlen; eapply putRune_length; eauto|].
    split; [|split].
    + intros [|k] c Hk.
      * simpl in Hk. injection Hk as ->. rewrite Z.add_0_r.
        apply Hkept; [eapply putRune_cell_written; eauto|].
        intros j Hj.
        destruct (Z.eq_dec (p / W) ((p + 1 + j) / W)) as [Hq|Hq]; [|now left].
        right. intros Hr. apply (cell_of_position_inj W _ _ HW Hq) in Hr. lia.
      * simpl in Hk.
        replace (p + Z.of_nat (S k)) with (p + 1 + Z.of_nat k) by lia.
        now apply Hcells.
    + intros y0 x0 c Hc Hfree. apply Hkept.
      * eapply putRune_cell_kept; eauto.
        specialize (Hfree 0 ltac:(unfold lenS in *; lia)).
        now rewrite Z.add_0_r in Hfree.
      * intros j Hj. specialize (Hfree (1 + j) ltac:(lia)).
        now replace (p + (1 + j)) with (p + 1 + j) in Hfree by lia.
    + intros k Hfree. rewrite Hrows.
      * eapply putRune_rowAt; eauto.
        specialize (Hfree 0 ltac:(unfold lenS in *; lia)).
        now rewrite Z.add_0_r in Hfree.
      * intros j Hj. specialize (Hfree (1 + j) ltac:(lia)).
        now replace (p + (1 + j)) with (p + 1 + j) in Hfree by lia.
Qed.

(** The same for a line begun at column 0 of row [y]. *)
Lemma layLine_from_row (W : Z) (chars : list Z) (fr fr' : TextFrame) (y x' y' : Z) :
  1 <= W → 0 <= y →
  layLine W chars fr 0 y = Ret (fr', x', y') →
  x' = lenS chars mod W ∧ y' = y + lenS chars / W
  ∧ length fr' = length fr
  ∧ (∀ (k : nat) (ch : Z), chars !! k = Some ch →
       cellAt fr' (y + Z.of_nat k / W) (Z.of_nat k mod W) = Some ch)
  ∧ (∀ k, (k < y ∨ y + (lenS chars - 1) / W < k
           ∨ (0 < lenS chars ∧ lenS chars mod W = 0 ∧ k = y + lenS chars / W)) →
       rowAt fr' k = rowAt fr k).
Proof.
  intros HW Hy H.
  assert (Hm : ∀ j, (y * W + j) mod W = j mod W)
    by (intros j; rewrite Z.add_comm; apply Z_mod_plus_full).
  assert (Hd : ∀ j, (y * W + j) / W = y + j / W)
    by (intros j; rewrite Z.add_comm, Z_div_plus_full by lia; lia).
  assert (H0m : (y * W) mod W = 0) by apply Z_mod_mult.
  assert (H0d : (y * W) / W = y) by (apply Z_div_mult; lia).
  rewrite <- H0m in H at 1. rewrite <- H0d in H at 2.
  destruct (layLine_cells W chars HW fr fr' (y * W) x' y' ltac:(nia) H)
    as (Hx' & Hy' & Hlen & Hcells & _ & Hrows).
  rewrite Hm in Hx'. rewrite Hd in Hy'.
  split; [exact Hx'|]. split; [exact Hy'|]. split; [exact Hlen|]. split.
  - intros k c Hk. specialize (Hcells k c Hk). now rewrite Hd, Hm in Hcells.
  - intros k Hk. apply Hrows. intros j Hj. rewrite Hd.
    assert (0 <= j / W) by (apply Z.div_pos; lia).
    assert (j / W <= (lenS chars - 1) / W) by (apply Z.div_le_mono; lia).
    destruct Hk as [Hk|[Hk|(Hpos & Hmult & ->)]]; [lia | lia |].
    assert (lenS chars = W * (lenS chars / W))
      by (rewrite (Z.div_mod (lenS chars) W) at 1 by lia; lia).
    assert ((lenS chars - 1) / W < lenS chars / W); [|lia].
    apply Z.div_lt_upper_bound; lia.
Qed.

Lemma rowsOf_div (W n : Z) : 1 <= W → 0 <= n → rowsOf W n = n / W + 1.
Proof. intros HW Hn. unfold rowsOf. rewrite Z.quot_div_nonneg by lia. reflexivity. Qed.

Lemma rowsAbove_none (count : string → Z) (e : Editor) (i : Z) :
  rowsAbove count e i i = 0.
Proof. unfold rowsAbove. now rewrite Z.sub_diag. Qed.

Lemma rowsAbove_first (count : string → Z) (e : Editor) (i r : Z) (line : string) :
  0 <= i < r → dataBuffer e !! Z.to_nat i = Some line →
  rowsAbove count e i r
    = rowsOf (dimX e) (count line) + rowsAbove count e (i + 1) r.
Proof.
  intros Hi Hline. unfold rowsAbove.
  rewrite (seqZ_cons i (r - i)) by lia. simpl. rewrite Hline.
  now replace (Z.pred (r - i)) with (r - (i + 1)) by lia.
Qed.

Lemma runeCount_nonneg (line : string) : 0 <= runeCount line.
Proof. unfold runeCount, lenS. lia. Qed.

(** The loop over the lines never goes back to a row above the one it is on. *)
Lemma fillLoop_rows_above (e : Editor) :
  1 <= dimX e →
  ∀ (fuel : nat) (i y : Z) (fr fr' : TextFrame) (last : Z),
  0 <= y →
  fillLoop fuel e i y fr = Ret (fr', last) →
  ∀ k, k < y → rowAt fr' k = rowAt fr k.
Proof.
  intros HW. induction fuel as [|fuel IH]; intros i y fr fr' last Hy H k Hk;
    [discriminate|].
  simpl in H. bind_inv H. bind_inv H. destruct a0 as [[fr1 x1] y1].
  destruct (layLine_from_row _ _ _ _ _ _ _ HW Hy E0) as (_ & Hy1 & _ & _ & Hrows).
  assert (0 <= lenS (runes a) / dimX e) by (apply Z.div_pos; unfold lenS; lia).
  destruct ((i + 1 =? getLinesCount e) || (y1 =? dimY e - 2)).
  - injection H as <- <-. apply Hrows. now left.
  - assert (Heq : rowAt fr' k = rowAt fr1 k) by (eapply IH; [|exact H|]; lia).
    rewrite Heq. apply Hrows. now left.
Qed.

(** Where the loop puts each line it shows.  Started on line [i] at row
    [y] with nothing written from row [y] on, it writes character [k] of
    every line [r] up to the last one it reaches to column [k mod W] of row
    [k / W] counted from the line's first row, and the first row of a line
    comes [n / W + 1] rows after the first row of the line before, of [n]
    characters; when [n] is a positive multiple of [W] the last of these
    rows is left unwritten. *)
Lemma fillLoop_layout (e : Editor) :
  1 <= dimX e →
  ∀ (fuel : nat) (i y : Z) (fr fr' : TextFrame) (last : Z),
  0 <= i → 0 <= y →
  (∀ k, y <= k → unwritten fr k) →
  fillLoop fuel e i y fr = Ret (fr', last) →
  i <= last < getLinesCount e
  ∧ ∀ (r : Z) (line : string),
      i <= r <= last → dataBuffer e !! Z.to_nat r = Some line →
      (∀ (k : nat) (ch : Z), runes line !! k = Some ch →
         cellAt fr' (y + rowsAbove runeCount e i r + Z.of_nat k / dimX e)
           (Z.of_nat k mod dimX e) = Some ch)
      ∧ (r < last → 0 < runeCount line → runeCount line mod dimX e = 0 →
         unwritten fr' (y + rowsAbove runeCount e i r + runeCount line / dimX e)).
Proof.
  intros HW. induction fuel as [|fuel IH]; intros i y fr fr' last Hi Hy Hblank H;
    [discriminate|].
  simpl in H. bind_inv H. rename a into line0.
  apply index_inv in E as [_ Hline0].
  assert (Hin : i < getLinesCount e).
  { apply lookup_lt_Some in Hline0. unfold getLinesCount, lenS. lia. }
  bind_inv H. destruct a as [[fr1 x1] y1].
  destruct (layLine_from_row _ _ _ _ _ _ _ HW Hy E) as (_ & Hy1 & _ & Hcells & Hrows).
  fold (runeCount line0) in Hy1, Hrows.
  assert (Hn := runeCount_nonneg line0).
  assert (Hq : 0 <= runeCount line0 / dimX e) by (apply Z.div_pos; lia).
  assert (Hq' : (runeCount line0 - 1) / dimX e <= runeCount line0 / dimX e)
    by (apply Z.div_le_mono; lia).
  destruct ((i + 1 =? getLinesCount e) || (y1 =? dimY e - 2)).
  - injection H as <- <-. split; [lia|].
    intros r line Hr Hline. assert (r = i) as -> by lia.
    rewrite Hline0 in Hline. injection Hline as <-.
    rewrite rowsAbove_none, Z.add_0_r. split; [exact Hcells | lia].
  - assert (Hblank1 : ∀ k, y1 + 1 <= k → unwritten fr1 k).
    { intros k Hk. unfold unwritten. rewrite Hrows by lia. apply Hblank. lia. }
    destruct (IH (i + 1) (y1 + 1) fr1 fr' last ltac:(lia) ltac:(lia) Hblank1 H)
      as (Hlast & Hrest).
    split; [lia|].
    intros r line Hr Hline. destruct (Z.eq_dec r i) as [->|Hne].
    + rewrite Hline0 in Hline. injection Hline as <-.
      rewrite rowsAbove_none, Z.add_0_r. split.
      * intros k ch Hk. unfold cellAt.
        assert (Hkn : Z.of_nat k < runeCount line0).
        { apply lookup_lt_Some in Hk. unfold runeCount, lenS. lia. }
        assert (Z.of_nat k / dimX e <= (runeCount line0 - 1) / dimX e)
          by (apply Z.div_le_mono; lia).
        rewrite (fillLoop_rows_above e HW _ _ (y1 + 1) _ _ _ ltac:(lia) H) by lia.
        now apply Hcells.
      * intros _ Hpos Hmult. unfold unwritten.
        rewrite (fillLoop_rows_above e HW _ _ (y1 + 1) _ _ _ ltac:(lia) H) by lia.
        rewrite Hrows by (right; right; auto).
        apply Hblank. lia.
    + destruct (Hrest r line ltac:(lia) Hline) as (Hc & Hb).
      rewrite (rowsAbove_first runeCount e i r line0) by (auto; lia).
      rewrite rowsOf_div by lia.
      replace (y + (runeCount line0 / dimX e + 1 + rowsAbove runeCount e (i + 1) r))
        with (y1 + 1 + rowsAbove runeCount e (i + 1) r) by lia.
      split; assumption.
Qed.

(** *** Where the cursor is drawn *)


(** The second loop of [syncCursor] in closed form: the column is brought
    down to at most [W] by taking [W] off it [(x - 1) / W] times. *)
Lemma wrapCursor_closed (W : Z) : 1 <= W →
  ∀ (fuel : nat) (x y : Z), (Z.to_nat x < fuel)%nat →
  wrapCursor fuel W x y
    = Ret (mkVertex (x - W * Z.max 0 ((x - 1) / W)) (y + Z.max 0 ((x - 1) / W))).
Proof.
  intros HW. induction fuel as [|fuel IH]; intros x y Hfuel; [lia|].
  simpl. destruct (Z.gtb_spec x W) as [Hgt|Hle].
  - rewrite IH by lia.
    assert (Hq : (x - 1) / W = (x - W - 1) / W + 1).
    { replace (x - 1) with (x - W - 1 + 1 * W) by lia.
      now rewrite Z_div_plus_full by lia. }
    assert (0 <= (x - W - 1) / W) by (apply Z.div_pos; lia).
    rewrite Hq. f_equal. f_equal; lia.
  - assert ((x - 1) / W <= 0).
    { destruct (Z.le_gt_cases 1 x).
      - rewrite Z.div_small by lia. lia.
      - apply Z.lt_le_incl, Z.div_lt_upper_bound; lia. }
    replace (Z.max 0 ((x - 1) / W)) with 0 by lia.
    simpl. f_equal. f_equal; lia.
Qed.



Lemma fresh_frame_unwritten (n : nat) (k : Z) :
  unwritten (replicate n (None : option (list Z))) k.
Proof.
  unfold unwritten, rowAt. destruct (k <? 0); [exact I|].
  destruct (replicate _ _ !! _) as [row|] eqn:Hrow; [|exact I].
  apply lookup_replicate in Hrow as [-> _]. exact I.
Qed.




(** *** The loops end *)

Lemma ends_Ret {A : Type} (a : A) : ends (Ret a).
Proof. discriminate. Qed.

Lemma ends_Panic {A : Type} : ends (Panic : outcome A).
Proof. discriminate. Qed.

Lemma ends_Exit {A : Type} (c : Z) : ends (Exit c : outcome A).
Proof. discriminate. Qed.

Lemma ends_bind {A B : Type} (m : outcome A) (f : A → outcome B) :
  ends m → (∀ a, m = Ret a → ends (f a)) → ends (m ≫= f).
Proof.
  unfold ends. destruct m; simpl; intros Hm Hf; auto; discriminate.
Qed.

Lemma index_ends {A : Type} (l : list A) (i : Z) : ends (index l i).
Proof. unfold index. destruct (i <? 0); [|destruct (l !! _)]; discriminate. Qed.

Lemma store_ends {A : Type} (l : list A) (i : Z) (v : A) : ends (store l i v).
Proof. unfold store. destruct (_ || _); discriminate. Qed.

Lemma make_ends {A : Type} (z : A) (n : Z) : ends (make z n).
Proof. unfold make. destruct (n <? 0); discriminate. Qed.

Lemma slice_ends (s : string) (lo hi : Z) : ends (slice s lo hi).
Proof. unfold slice. destruct (_ && _); discriminate. Qed.

Lemma div_ends (a b : Z) : ends (div a b).
Proof. unfold div. destruct (b =? 0); discriminate. Qed.

Create HintDb ends discriminated.
#[local] Hint Resolve ends_Ret ends_Panic ends_Exit index_ends store_ends
  make_ends slice_ends div_ends : ends.

(** One step through a sequence of calls, a test or a case analysis. *)
Ltac ends_step :=
  match goal with
  | |- ends (mret _) => apply ends_Ret
  | |- ends (_ ≫= _) => apply ends_bind; [|intros ? ?]
  | |- ends (if ?b then _ else _) => destruct b eqn:?
  | |- ends (match ?x with _ => _ end) => destruct x eqn:?
  | |- ends _ => solve [auto with ends]
  end.

Lemma putRune_ends (W : Z) (fr : TextFrame) (x y ch : Z) : ends (putRune W fr x y ch).
Proof. unfold putRune. repeat ends_step. Qed.

Lemma layLine_ends (W : Z) (chars : list Z) : ∀ (fr : TextFrame) (x y : Z),
  ends (layLine W chars fr x y).
Proof.
  induction chars as [|ch rest IH]; intros fr x y; simpl; [apply ends_Ret|].
  apply ends_bind; [apply putRune_ends|]. intros fr1 _.
  destruct (x + 1 =? W); apply IH.
Qed.

(** The turns [fillTextFrameFromTop] gives its loop are enough. *)
Lemma fillLoop_ends (e : Editor) : ∀ (fuel : nat) (i y : Z) (fr : TextFrame),
  (0 < fuel)%nat → (0 <= i → (Z.to_nat (getLinesCount e - i) <= fuel)%nat) →
  ends (fillLoop fuel e i y fr).
Proof.
  induction fuel as [|fuel IH]; intros i y fr Hpos Hfuel; [lia|].
  simpl. apply ends_bind; [apply index_ends|]. intros line Hline.
  apply index_inv in Hline as [Hi Hline]. apply lookup_lt_Some in Hline.
  apply ends_bind; [apply layLine_ends|]. intros [[fr1 x1] y1] _.
  destruct (Z.eqb_spec (i + 1) (getLinesCount e)) as [Hlast|Hmore]; simpl;
    [apply ends_Ret|].
  destruct (y1 =? dimY e - 2); [apply ends_Ret|].
  unfold getLinesCount, lenS in *. apply IH; lia.
Qed.

Lemma fillTextFrameFromTop_ends (e : Editor) : ends (fillTextFrameFromTop e).
Proof.
  unfold fillTextFrameFromTop. apply ends_bind; [apply make_ends|]. intros fr _.
  apply ends_bind.
  - apply fillLoop_ends; [lia|]. unfold getLinesCount, lenS. lia.
  - intros [fr' i] _. apply ends_Ret.
Qed.

Lemma tildeLoop_ends (W : Z) : ∀ (i : nat) (b : bool) (fr : TextFrame),
  ends (tildeLoop W i b fr).
Proof.
  induction i as [|i IH]; intros b fr; simpl; [apply ends_Ret|].
  apply ends_bind; [apply index_ends|]. intros [cells|] _; [apply IH|].
  repeat ends_step; apply IH.
Qed.

Lemma drawTextFrame_ends (e : Editor) : ends (drawTextFrame e).
Proof.
  unfold drawTextFrame. apply ends_bind; [apply fillTextFrameFromTop_ends|].
  intros [fr e1] _. apply ends_bind; [apply tildeLoop_ends|]. intros fr' _.
  destruct (theme.ResolveGroup _ _); apply ends_Ret.
Qed.

Lemma wrappedAbove_ends (e : Editor) (rows : list Z) : ∀ y : Z,
  ends (wrappedAbove e rows y).
Proof.
  induction rows as [|i rows IH]; intros y; simpl; [apply ends_Ret|].
  repeat ends_step.
Qed.

(** With a width of at least one [syncCursor] ends. *)
Lemma syncCursor_ends (e : Editor) : 1 <= dimX e → ends (syncCursor e).
Proof.
  intros HW. unfold syncCursor, cursorPosScreen.
  apply ends_bind.
  - apply ends_bind; [apply wrappedAbove_ends|]. intros y _.
    rewrite wrapCursor_closed by lia. apply ends_Ret.
  - intros pos _. apply ends_bind; [apply drawTextFrame_ends|].
    intros e1 _. apply ends_Ret.
Qed.

(** The turns [fixVerticalCursorOverflow] gives its loops are enough. *)
Lemma trimTop_ends (e : Editor) : ∀ (fuel : nat) (i first : Z),
  (0 < fuel)%nat → (Z.to_nat (i + 2) <= fuel)%nat → ends (trimTop fuel e i first).
Proof.
  induction fuel as [|fuel IH]; intros i first Hpos Hfuel; [lia|].
  simpl. destruct (i >=? first); [|apply ends_Ret].
  apply ends_bind; [apply index_ends|]. intros line Hline.
  apply index_inv in Hline as [Hi _].
  apply ends_bind; [apply div_ends|]. intros q _. apply IH; lia.
Qed.

#[local] Arguments trimTop : simpl never.

Lemma advanceFrame_ends : ∀ (fuel : nat) (e : Editor),
  (Z.to_nat (Y (cursorPos e) - lastLineInFrame e) < fuel)%nat →
  ends (advanceFrame fuel e).
Proof.
  induction fuel as [|fuel IH]; intros e Hfuel; [lia|].
  simpl. destruct (Z.gtb_spec (Y (cursorPos e)) (lastLineInFrame e)); [|apply ends_Ret].
  destruct (_ >=? _); [apply ends_Ret|].
  apply ends_bind; [apply trimTop_ends; lia|]. intros first' _.
  apply IH. simpl. lia.
Qed.

Lemma fixVerticalCursorOverflow_ends (e : Editor) : ends (fixVerticalCursorOverflow e).
Proof. unfold fixVerticalCursorOverflow. apply advanceFrame_ends. lia. Qed.

(** *** A key press ends *)

Lemma syncStatusBar_dim (e : Editor) : dimX (syncStatusBar e) = dimX e.
Proof. unfold syncStatusBar, dimX. now destruct (theme.ResolveGroup _ _). Qed.

Lemma fixHorizontalCursorOverflow_dim (e e' : Editor) :
  fixHorizontalCursorOverflow e = Ret e' → dimX e' = dimX e.
Proof.
  unfold fixHorizontalCursorOverflow. intros H. bind_inv H.
  destruct (_ <? _); injection H as <-; reflexivity.
Qed.

Lemma advanceFrame_dim : ∀ (fuel : nat) (e e' : Editor),
  advanceFrame fuel e = Ret e' → dimX e' = dimX e.
Proof.
  induction fuel as [|fuel IH]; intros e e' H; [discriminate|].
  simpl in H. destruct (_ >? _); [|now injection H as <-].
  destruct (_ >=? _); [now injection H as <-|].
  bind_inv H. now apply IH in H.
Qed.

Lemma syncCursor_dim (e e' : Editor) : syncCursor e = Ret e' → dimX e' = dimX e.
Proof.
  intros H. apply syncCursor_fields in H as (scr & last & -> & Hd).
  unfold dimX. simpl. now rewrite Hd.
Qed.

Lemma fixHorizontalCursorOverflow_ends (e : Editor) :
  ends (fixHorizontalCursorOverflow e).
Proof. unfold fixHorizontalCursorOverflow, getCurrentLineLength. repeat ends_step. Qed.

Lemma syncTextFrame_ends (b : bool) (e : Editor) :
  1 <= dimX e → ends (syncTextFrame b e).
Proof.
  intros HW. unfold syncTextFrame. apply ends_bind; [apply drawTextFrame_ends|].
  intros e1 He1. destruct b; [apply ends_Ret|]. apply syncCursor_ends.
  apply drawTextFrame_fields in He1 as (scr & last & -> & Hd).
  unfold dimX in *. simpl. now rewrite Hd.
Qed.

Lemma handleTextAreaCursorMovement_ends (event : Event) (e : Editor) :
  1 <= dimX e → ends (handleTextAreaCursorMovement event e).
Proof.
  intros HW. unfold handleTextAreaCursorMovement.
  destruct (Value event); try apply ends_Ret.
  - (* Left *)
    destruct (negb _); [|apply ends_Ret].
    apply ends_bind; [now apply syncCursor_ends | intros; apply ends_Ret].
  - (* Right *)
    apply ends_bind; [apply fixHorizontalCursorOverflow_ends|]. intros e1 He1.
    apply fixHorizontalCursorOverflow_dim in He1.
    apply ends_bind; [apply syncCursor_ends; now rewrite He1 | intros; apply ends_Ret].
  - (* Up *)
    destruct (negb _); [|apply ends_Ret].
    apply ends_bind; [apply fixHorizontalCursorOverflow_ends|]. intros e2 He2.
    apply fixHorizontalCursorOverflow_dim in He2.
    apply ends_bind; [|intros; apply ends_Ret].
    apply syncCursor_ends.
    destruct (_ <? _); [destruct (_ >? _)|]; unfold dimX in *; simpl; now rewrite He2.
  - (* Down *)
    destruct (negb _); [|apply ends_Ret].
    apply ends_bind; [apply fixHorizontalCursorOverflow_ends|]. intros e2 He2.
    apply fixHorizontalCursorOverflow_dim in He2.
    apply ends_bind; [apply fixVerticalCursorOverflow_ends|]. intros e3 He3.
    apply advanceFrame_dim in He3.
    apply ends_bind; [|intros; apply ends_Ret].
    apply syncCursor_ends. now rewrite He3, He2.
Qed.

Lemma handleTextAreaCursorMovement_dim (event : Event) (e e' : Editor) (b : bool) :
  handleTextAreaCursorMovement event e = Ret (b, e') → dimX e' = dimX e.
Proof.
  unfold handleTextAreaCursorMovement. intros H.
  destruct (Value event); try (injection H as _ <-; reflexivity).
  - destruct (negb _); [|now injection H as _ <-].
    bind_inv H. injection H as _ <-. now apply syncCursor_dim in E.
  - bind_inv H. bind_inv H. injection H as _ <-.
    apply syncCursor_dim in E0. apply fixHorizontalCursorOverflow_dim in E.
    now rewrite E0, E.
  - destruct (negb _); [|now injection H as _ <-].
    bind_inv H. bind_inv H. injection H as _ <-.
    apply syncCursor_dim in E0. apply fixHorizontalCursorOverflow_dim in E.
    rewrite E0. destruct (_ <? _); [destruct (_ >? _)|]; exact E.
  - destruct (negb _); [|now injection H as _ <-].
    bind_inv H. bind_inv H. bind_inv H. injection H as _ <-.
    apply syncCursor_dim in E1. apply advanceFrame_dim in E0.
    apply fixHorizontalCursorOverflow_dim in E. now rewrite E1, E0, E.
Qed.

Lemma quit_ends (force : bool) (e : Editor) : ends (quit force e).
Proof. unfold quit. destruct (_ && _); [apply ends_Ret | apply ends_Exit]. Qed.

Lemma handleKeyCommandLineMode_ends (event : Event) (e : Editor) :
  ends (handleKeyCommandLineMode event e).
Proof. unfold handleKeyCommandLineMode. repeat ends_step. Qed.

Lemma runCommand_ends (W : string → list string → option string)
    (cmdFull : string) (e : Editor) :
  1 <= dimX e → ends (runCommand W cmdFull e).
Proof.
  intros HW. unfold runCommand.
  apply ends_bind; [apply slice_ends|]. intros cmd _.
  apply ends_bind; [|intros; apply ends_Ret].
  destruct (Atoi cmd).
  - apply ends_bind; [apply fixVerticalCursorOverflow_ends|]. intros e1 He1.
    apply advanceFrame_dim in He1. apply syncTextFrame_ends. now rewrite He1.
  - repeat ends_step; apply quit_ends.
Qed.

Lemma handleKeyNormalMode_ends (event : Event) (e : Editor) :
  1 <= dimX e → ends (handleKeyNormalMode event e).
Proof.
  intros HW. unfold handleKeyNormalMode.
  destruct (_ =? 58); [apply handleKeyCommandLineMode_ends|].
  destruct (_ =? 105); [apply ends_Ret|].
  destruct (_ =? 65).
  { unfold getCurrentLineLength. apply ends_bind; [repeat ends_step|].
    intros x _. apply syncCursor_ends. unfold switchToInsertMode.
    now rewrite syncStatusBar_dim. }
  destruct (_ =? 71); [|apply ends_Ret].
  apply ends_bind; [apply fixVerticalCursorOverflow_ends|]. intros e1 He1.
  apply advanceFrame_dim in He1. apply syncTextFrame_ends. now rewrite He1.
Qed.

Lemma shiftLoop_ends : ∀ (i : nat) (cy : Z) (newBuffer : list string),
  ends (shiftLoop i cy newBuffer).
Proof.
  induction i as [|i IH]; intros cy newBuffer; simpl.
  - destruct (0 >? cy); [apply ends_Panic | apply ends_Ret].
  - repeat ends_step.
Qed.

Lemma mergeLoop_ends (e : Editor) (lines : list string) :
  ∀ (i j : Z) (newBuffer : list string), ends (mergeLoop e lines i j newBuffer).
Proof.
  induction lines as [|line rest IH]; intros i j newBuffer; simpl; [apply ends_Ret|].
  repeat ends_step.
Qed.

Lemma handleKeyInsertMode_ends (event : Event) (e : Editor) :
  1 <= dimX e → ends (handleKeyInsertMode event e).
Proof.
  intros HW. unfold handleKeyInsertMode. cbv zeta.
  assert (Hsync : ∀ e1, dimX e1 = dimX e → ends (syncTextFrame false e1))
    by (intros e1 He1; apply syncTextFrame_ends; now rewrite He1).
  destruct (Value event).
  1: { (* Enter *)
    apply ends_bind; [apply make_ends|]. intros nb _.
    apply ends_bind; [destruct (_ <? _); [apply shiftLoop_ends | apply ends_Ret]|].
    intros nb1 _. unfold getCurrentLineLength.
    apply ends_bind; [repeat ends_step|]. intros cl _.
    apply ends_bind; [repeat ends_step|]. intros nb2 _.
    apply ends_bind; [apply fixVerticalCursorOverflow_ends|]. intros e2 He2.
    apply advanceFrame_dim in He2. apply Hsync. now rewrite He2. }
  2, 3: (* Backspace *)
    destruct (_ && _); [apply ends_Ret|];
    apply ends_bind;
      [destruct (_ >? _); repeat ends_step; apply mergeLoop_ends|];
    intros e1 He1; apply Hsync;
    destruct (_ >? _); repeat bind_inv He1; now injection He1 as <-.
  all: (* a character *)
    destruct (_ =? 0); [apply ends_Ret|];
    do 4 (apply ends_bind; [auto with ends | intros ? _]); now apply Hsync.
Qed.

(** On a terminal at least one column wide the handling of a key event
    ends: it returns to the event loop, panics or exits the process. *)
Lemma handleEvent_ends (W : string → list string → option string)
    (event : Event) (e : Editor) :
  1 <= dimX e → ends (handleEvent W event e).
Proof.
  intros HW. unfold handleEvent.
  destruct (negb _); [apply ends_Ret|].
  destruct (currentMode e).
  - apply ends_bind; [now apply handleTextAreaCursorMovement_ends|].
    intros [processed e1] He1. apply handleTextAreaCursorMovement_dim in He1.
    destruct processed;
      [apply syncCursor_ends | apply handleKeyNormalMode_ends]; now rewrite He1.
  - destruct (bool_decide _).
    + apply ends_bind; [apply fixHorizontalCursorOverflow_ends|]. intros e2 He2.
      apply fixHorizontalCursorOverflow_dim in He2. apply syncCursor_ends.
      now rewrite He2, syncStatusBar_dim.
    + apply ends_bind; [now apply handleTextAreaCursorMovement_ends|].
      intros [processed e1] He1. apply handleTextAreaCursorMovement_dim in He1.
      destruct processed;
        [apply syncCursor_ends | apply handleKeyInsertMode_ends]; now rewrite He1.
  - destruct (bool_decide _); [apply ends_Ret|].
    apply ends_bind; [|intros; apply handleKeyCommandLineMode_ends].
    destruct (bool_decide _); [now apply runCommand_ends | apply ends_Ret].
Qed.

(** *** Enter at the end of a line *)

(** The shift loop of the Enter case: started at index [i] it moves the
    elements at [cy], ..., [i - 1] one index up and leaves the others. *)
Lemma shiftLoop_shifts (cy : nat) : ∀ (i : nat) (nb : list string),
  (cy <= i < length nb)%nat →
  shiftLoop i (Z.of_nat cy) nb
    = Ret (take (S cy) nb ++ take (i - cy) (drop cy nb) ++ drop (S i) nb).
Proof.
  induction i as [|i IH]; intros nb Hi.
  - assert (cy = 0)%nat as -> by lia. simpl.
    destruct nb as [|a nb]; [simpl in Hi; lia|]. simpl. now rewrite drop_0.
  - simpl shiftLoop. destruct (Z.gtb_spec (Z.of_nat (S i)) (Z.of_nat cy)) as [Hgt|Hle].
    + destruct (lookup_lt_is_Some_2 nb i) as [v Hv]; [lia|].
      rewrite (index_Ret nb (Z.of_nat (S i) - 1) v)
        by (try replace (Z.to_nat (Z.of_nat (S i) - 1)) with i by lia; auto; lia).
      rewrite bind_Ret, store_Ret by (unfold lenS; lia). rewrite bind_Ret.
      rewrite Nat2Z.id, IH by (rewrite length_insert; lia).
      f_equal.
      rewrite take_insert_ge by lia.
      rewrite drop_insert_ge by lia.
      rewrite take_insert_ge by lia.
      rewrite drop_insert_ge by lia.
      replace (S i - S i)%nat with 0%nat by lia.
      replace (S i - cy)%nat with (S (i - cy)) by lia.
      rewrite (take_S_r (drop cy nb) (i - cy) v)
        by (rewrite lookup_drop; replace (cy + (i - cy))%nat with i by lia; exact Hv).
      destruct (drop (S i) nb) as [|w rest] eqn:Hd.
      * apply (f_equal length) in Hd. rewrite length_drop in Hd. simpl in Hd. lia.
      * simpl. rewrite <- !app_assoc. simpl.
        assert (Hrest : drop (S (S i)) nb = rest).
        { replace (S (S i)) with (S i + 1)%nat by lia.
          now rewrite <- drop_drop, Hd. }
        now rewrite Hrest.
    + assert (cy = S i) as -> by lia.
      rewrite Nat.sub_diag. simpl take at 2. simpl app.
      now rewrite take_drop.
Qed.

(** Enter in Insert mode with the cursor at or past the end of its line
    [line], on the state handed to the scroll advance and the redraw: the
    cursor goes to column 0 of the next row in both cases; on the last row
    of the buffer an empty line is added after [line]; on any other row the
    row added after [line] is a copy of [line]. *)
Lemma enter_at_end_of_line_state (event : Event) (e : Editor)
    (above below : list string) (line : string) :
  Value event = KeyEnter →
  dataBuffer e = above ++ line :: below →
  Y (cursorPos e) = lenS above → len line <= X (cursorPos e) →
  handleKeyInsertMode event e
    = (e2 ← fixVerticalCursorOverflow
              (set_dataBuffer
                 (above ++ line :: match below with
                                    | [] => [EmptyString]
                                    | _ => line :: below
                                    end)
                 (set_lastUpDownCursorMovement CURSOR_DOWN
                    (set_cursorX 0 (set_cursorY (lenS above + 1) (set_isDirty true e)))));
       syncTextFrame false e2).
Proof.
  intros Hv Hbuf Hcy Hcx. unfold handleKeyInsertMode. rewrite Hv. cbv zeta.
  change (cursorPos (set_isDirty true e)) with (cursorPos e).
  change (dataBuffer (set_isDirty true e)) with (dataBuffer e).
  change (getLinesCount (set_isDirty true e)) with (getLinesCount e).
  unfold getCurrentLineLength.
  change (cursorPos (set_isDirty true e)) with (cursorPos e).
  change (dataBuffer (set_isDirty true e)) with (dataBuffer e).
  assert (Hn : getLinesCount e = lenS above + 1 + lenS below).
  { unfold getLinesCount, lenS. rewrite Hbuf, length_app. simpl. lia. }
  rewrite make_Ret by (unfold lenS in *; lia). rewrite bind_Ret.
  rewrite Hcy, Hbuf, index_middle, bind_Ret.
  assert (Hge : (X (cursorPos e) <? len line) = false) by (apply Z.ltb_ge; lia).
  assert (Hcopy : copy (replicate (Z.to_nat (getLinesCount e + 1)) EmptyString)
                    (above ++ line :: below)
                  = above ++ line :: below ++ [EmptyString]).
  { unfold copy. rewrite length_replicate, take_ge
      by (rewrite length_app; simpl; unfold lenS in Hn; lia).
    rewrite drop_replicate.
    replace (Z.to_nat (getLinesCount e + 1) - length (above ++ line :: below))%nat
      with 1%nat by (rewrite length_app; simpl; unfold lenS in Hn; lia).
    simpl. now rewrite <- app_assoc. }
  rewrite Hcopy.
  destruct below as [|next below]; simpl app.
  - destruct (Z.ltb_spec (lenS above) (getLinesCount e - 1)) as [Hlt|_];
      [unfold lenS in *; simpl in Hn; lia|].
    rewrite !bind_Ret, Hge, bind_Ret. reflexivity.
  - destruct (Z.ltb_spec (lenS above) (getLinesCount e - 1)) as [_|Hge'];
      [|unfold lenS in *; simpl in Hn; lia].
    change (shiftLoop ?i (lenS above) ?nb)
      with (shiftLoop i (Z.of_nat (length above)) nb).
    rewrite shiftLoop_shifts
      by (rewrite !length_app; simpl; rewrite length_app; simpl; lia).
    rewrite !bind_Ret, Hge, bind_Ret. do 3 f_equal.
    assert (Hlen : length (above ++ line :: next :: below ++ [EmptyString])
                   = S (S (S (length above + length below)))).
    { rewrite length_app. simpl. rewrite length_app. simpl. lia. }
    rewrite Hlen. simpl Nat.pred.
    rewrite (drop_ge _ (S (S (S (length above + length below)))))
      by (rewrite Hlen; lia).
    rewrite app_nil_r.
    rewrite drop_app_length.
    replace (S (S (length above + length below)) - length above)%nat
      with (S (S (length below))) by lia.
    simpl take at 2. rewrite take_app_length.
    replace (above ++ line :: next :: below ++ [EmptyString])
      with ((above ++ [line]) ++ next :: below ++ [EmptyString])
      by (now rewrite <- app_assoc).
    rewrite take_app_length' by (rewrite length_app; simpl; lia).
    now rewrite <- app_assoc.
Qed.

(** *** The frame is built when the lines fit *)

Lemma layLine_fits (W : Z) (chars : list Z) :
  1 <= W →
  ∀ (fr : TextFrame) (p : Z),
  0 <= p → rowsWide W fr →
  (chars ≠ [] → (p + lenS chars - 1) / W < lenS fr) →
  ∃ fr', layLine W chars fr (p mod W) (p / W)
           = Ret (fr', (p + lenS chars) mod W, (p + lenS chars) / W)
         ∧ rowsWide W fr' ∧ length fr' = length fr.
Proof.
  intros HW. induction chars as [|ch rest IH]; intros fr p Hp Hw Hfit.
  - simpl. exists fr. unfold lenS. simpl. rewrite Z.add_0_r. auto.
  - assert (Hl : lenS (ch :: rest) = 1 + lenS rest)
      by (unfold lenS; simpl length; lia).
    specialize (Hfit ltac:(discriminate)). rewrite Hl in Hfit.
    assert (Hrow : 0 <= p / W < lenS fr).
    { split; [apply Z.div_pos; lia|].
      eapply Z.le_lt_trans; [|exact Hfit]. apply Z.div_le_mono; unfold lenS; lia. }
    assert (Hcol := Z.mod_pos_bound p W ltac:(lia)).
    simpl.
    destruct (putRune_Ret W fr (p mod W) (p / W) ch Hw Hrow Hcol)
      as (fr1 & -> & Hw1 & Hl1).
    rewrite bind_Ret.
    assert (Hnext : (if p mod W + 1 =? W
                     then layLine W rest fr1 0 (p / W + 1)
                     else layLine W rest fr1 (p mod W + 1) (p / W))
                    = layLine W rest fr1 ((p + 1) mod W) ((p + 1) / W)).
    { destruct (Z.eqb_spec (p mod W + 1) W) as [Hwrap|Hsame].
      - now destruct (next_cell_wrap W p HW Hp Hwrap) as [-> ->].
      - now destruct (next_cell_same_row W p HW Hp Hsame) as [-> ->]. }
    rewrite Hnext.
    destruct (IH fr1 (p + 1) ltac:(lia) Hw1) as (fr' & Heq & Hw' & Hl').
    { intros _. replace (p + 1 + lenS rest - 1) with (p + (1 + lenS rest) - 1) by lia.
      unfold lenS in *. rewrite Hl1. exact Hfit. }
    exists fr'. rewrite Heq, Hl.
    replace (p + 1 + lenS rest) with (p + (1 + lenS rest)) by lia.
    split; [reflexivity|]. split; [assumption | congruence].
Qed.

Lemma rowsAbove_nonneg (e : Editor) (i r : Z) :
  1 <= dimX e → 0 <= rowsAbove runeCount e i r.
Proof.
  intros HW. unfold rowsAbove.
  induction (seqZ i (r - i)) as [|j js IH]; simpl; [lia|].
  destruct (dataBuffer e !! Z.to_nat j) as [line|]; [|exact IH].
  rewrite rowsOf_div by (auto using runeCount_nonneg).
  assert (0 <= runeCount line / dimX e)
    by (apply Z.div_pos; [apply runeCount_nonneg | lia]).
  lia.
Qed.

(** When the lines from the first visible one to the end of the buffer
    take no more rows than are usable, the frame is built. *)
Lemma fillLoop_fits (e : Editor) :
  1 <= dimX e →
  ∀ (fuel : nat) (i y : Z) (fr : TextFrame),
  rowsWide (dimX e) fr → lenS fr = dimY e - 1 →
  0 <= i < getLinesCount e → 0 <= y →
  y + rowsAbove runeCount e i (getLinesCount e) <= dimY e - 1 →
  (Z.to_nat (getLinesCount e - i) <= fuel)%nat →
  ∃ fr' last, fillLoop fuel e i y fr = Ret (fr', last).
Proof.
  intros HW. induction fuel as [|fuel IH]; intros i y fr Hw Hl Hi Hy Hfit Hfuel; [lia|].
  simpl.
  destruct (lookup_lt_is_Some_2 (dataBuffer e) (Z.to_nat i)) as [line Hline];
    [unfold getLinesCount, lenS in Hi; lia|].
  rewrite (index_Ret _ _ _ (proj1 Hi) Hline), bind_Ret.
  rewrite (rowsAbove_first runeCount e i _ line) in Hfit by (auto; lia).
  rewrite rowsOf_div in Hfit by (auto using runeCount_nonneg).
  assert (Hrest := rowsAbove_nonneg e (i + 1) (getLinesCount e) HW).
  assert (Hn := runeCount_nonneg line). unfold runeCount in *.
  assert (Hq : (lenS (runes line) - 1) / dimX e <= lenS (runes line) / dimX e)
    by (apply Z.div_le_mono; lia).
  assert (H0m : (y * dimX e) mod dimX e = 0) by apply Z_mod_mult.
  assert (H0d : (y * dimX e) / dimX e = y) by (apply Z_div_mult; lia).
  destruct (layLine_fits (dimX e) (runes line) HW fr (y * dimX e) ltac:(nia) Hw)
    as (fr1 & Heq & Hw1 & Hl1).
  { intros _.
    replace (y * dimX e + lenS (runes line) - 1)
      with (lenS (runes line) - 1 + y * dimX e) by lia.
    rewrite Z_div_plus_full by lia. lia. }
  rewrite H0m, H0d in Heq. rewrite Heq, bind_Ret.
  replace ((y * dimX e + lenS (runes line)) / dimX e)
    with (y + lenS (runes line) / dimX e)
    by (rewrite (Z.add_comm (y * dimX e)), Z_div_plus_full by lia; lia).
  destruct (Z.eqb_spec (i + 1) (getLinesCount e)) as [Hstop|Hmore]; simpl; [eauto|].
  destruct (_ =? _); [eauto|].
  assert (0 <= lenS (runes line) / dimX e) by (apply Z.div_pos; lia).
  apply IH; try assumption; unfold lenS in *; lia.
Qed.

Lemma fillTextFrameFromTop_fits (e : Editor) :
  1 <= dimX e → 0 <= firstLineInFrame e < getLinesCount e →
  rowsAbove runeCount e (firstLineInFrame e) (getLinesCount e) <= dimY e - 1 →
  ∃ fr e', fillTextFrameFromTop e = Ret (fr, e').
Proof.
  intros HW Hfirst Hfit. unfold fillTextFrameFromTop.
  assert (Hrows := rowsAbove_nonneg e (firstLineInFrame e) (getLinesCount e) HW).
  rewrite make_Ret by lia. rewrite bind_Ret.
  destruct (fillLoop_fits e HW (S (length (dataBuffer e))) (firstLineInFrame e) 0
              (replicate (Z.to_nat (dimY e - 1)) None)) as (fr & last & ->).
  - apply Forall_replicate. exact I.
  - unfold lenS. rewrite length_replicate. lia.
  - assumption.
  - lia.
  - lia.
  - unfold getLinesCount, lenS in *. lia.
  - rewrite bind_Ret. eauto.
Qed.

(** What a frame that was built does keep of the window: it ends on a line
    of the buffer, at or after the line it starts on. *)
Lemma fillTextFrameFromTop_window (e e' : Editor) (fr : TextFrame) :
  1 <= dimX e → 0 <= firstLineInFrame e →
  fillTextFrameFromTop e = Ret (fr, e') →
  firstLineInFrame e' = firstLineInFrame e
  ∧ firstLineInFrame e <= lastLineInFrame e' < getLinesCount e.
Proof.
  intros HW Hfirst H. unfold fillTextFrameFromTop in H.
  bind_inv H. bind_inv H. destruct a0 as [fr' last]. injection H as _ <-.
  unfold make in E. destruct (dimY e - 1 <? 0); [discriminate|].
  injection E as <-.
  destruct (fillLoop_layout e HW (S (length (dataBuffer e))) (firstLineInFrame e) 0
              _ _ _ Hfirst (Z.le_refl 0)
              (fun k _ => fresh_frame_unwritten _ k) E0) as (Hlast & _).
  split; [reflexivity | exact Hlast].
Qed.

(** * Further properties *)

(** *** What scrolls and redraws keep *)

Lemma sameDocument_refl (e : Editor) : sameDocument e e.
Proof. unfold sameDocument. repeat split. Qed.

Lemma sameDocument_trans (e1 e2 e3 : Editor) :
  sameDocument e1 e2 → sameDocument e2 e3 → sameDocument e1 e3.
Proof.
  unfold sameDocument. intros H1 H2.
  destruct H1 as (?&?&?&?&?&?&?&?&?), H2 as (?&?&?&?&?&?&?&?&?).
  repeat split; congruence.
Qed.

Lemma sameDocument_window (e : Editor) (scr : Screen) (first last : Z) :
  ScreenDim scr = ScreenDim (screen e) →
  sameDocument e (set_screen scr (set_firstLineInFrame first (set_lastLineInFrame last e))).
Proof. intros Hd. unfold sameDocument. simpl. repeat split. exact Hd. Qed.

Lemma syncTextFrame_same (b : bool) (e e' : Editor) :
  syncTextFrame b e = Ret e' →
  sameDocument e e' ∧ firstLineInFrame e' = firstLineInFrame e.
Proof.
  intros H. apply syncTextFrame_fields in H as (scr & last & -> & Hd).
  unfold sameDocument. simpl. repeat split. exact Hd.
Qed.

Lemma syncCursor_same (e e' : Editor) :
  syncCursor e = Ret e' →
  sameDocument e e' ∧ firstLineInFrame e' = firstLineInFrame e.
Proof.
  intros H. apply syncCursor_fields in H as (scr & last & -> & Hd).
  unfold sameDocument. simpl. repeat split. exact Hd.
Qed.

Lemma advanceFrame_same : ∀ (fuel : nat) (e e' : Editor),
  advanceFrame fuel e = Ret e' → sameDocument e e'.
Proof.
  induction fuel as [|fuel IH]; intros e e' H; [discriminate|].
  simpl in H. destruct (_ >? _); [|injection H as <-; apply sameDocument_refl].
  destruct (_ >=? _); [injection H as <-; apply sameDocument_refl|].
  bind_inv H. apply IH in H.
  eapply sameDocument_trans; [|exact H].
  unfold sameDocument. simpl. repeat split.
Qed.

Lemma fixVerticalCursorOverflow_same (e e' : Editor) :
  fixVerticalCursorOverflow e = Ret e' → sameDocument e e'.
Proof. apply advanceFrame_same. Qed.

(** *** Bytes and runes *)

(** A line has at most as many runes as bytes. *)
Lemma runes_length (s : string) : (length (runes s) <= String.length s)%nat.
Proof.
  remember (String.length s) as n eqn:Hn.
  revert s Hn. induction n as [n IH] using lt_wf_ind. intros s Hn.
  destruct s as [|a0 s1]; [simpl; lia|].
  assert (Hone : (length (RuneError :: runes s1) <= n)%nat).
  { simpl in *. specialize (IH (String.length s1) ltac:(lia) s1 eq_refl). lia. }
  simpl runes. destruct (byteZ a0 <? 128).
  { simpl in *. specialize (IH (String.length s1) ltac:(lia) s1 eq_refl). lia. }
  destruct s1 as [|a1 s2]; [exact Hone|].
  destruct (_ && _).
  { simpl in *. specialize (IH (String.length s2) ltac:(lia) s2 eq_refl). lia. }
  destruct s2 as [|a2 s3]; [exact Hone|].
  destruct (_ && _).
  { simpl in *. specialize (IH (String.length s3) ltac:(lia) s3 eq_refl). lia. }
  destruct s3 as [|a3 s4]; [exact Hone|].
  destruct (_ && _); [|exact Hone].
  simpl in *. specialize (IH (String.length s4) ltac:(lia) s4 eq_refl). lia.
Qed.

Lemma narrow_unwrapped (W : Z) (buf : list string) :
  narrow W buf → unwrapped W buf.
Proof.
  unfold narrow, unwrapped. intros Hn. eapply Forall_impl; [exact Hn|].
  intros line Hline. assert (H := runes_length line). unfold lenS, len in *. lia.
Qed.

(** *** Parts of a line *)

Lemma append_cons (c : ascii) (a b : string) :
  String c a +:+ b = String c (a +:+ b).
Proof. reflexivity. Qed.

Lemma append_empty (b : string) : EmptyString +:+ b = b.
Proof. reflexivity. Qed.

Lemma len_append (a b : string) : len (a +:+ b) = len a + len b.
Proof.
  unfold len. induction a as [|c a IH].
  - rewrite append_empty. simpl. lia.
  - rewrite append_cons. simpl String.length. lia.
Qed.

Lemma substring_split (line : string) : ∀ n : nat,
  (n <= String.length line)%nat →
  substring 0 n line +:+ substring n (String.length line - n) line = line.
Proof.
  induction line as [|c line IH]; intros n Hn.
  - simpl in Hn. assert (n = 0)%nat as -> by lia. reflexivity.
  - destruct n as [|n].
    + simpl substring at 1. rewrite append_empty, Nat.sub_0_r. apply substring_all.
    + simpl in Hn. simpl substring. rewrite append_cons. f_equal.
      replace (String.length (String c line) - S n)%nat
        with (String.length line - n)%nat by (simpl; lia).
      apply IH. lia.
Qed.

Lemma substring_length_prefix (line : string) : ∀ n : nat,
  (n <= String.length line)%nat → String.length (substring 0 n line) = n.
Proof.
  induction line as [|c line IH]; intros n Hn.
  - simpl in Hn. assert (n = 0)%nat as -> by lia. reflexivity.
  - destruct n as [|n]; simpl; [reflexivity|].
    simpl in Hn. f_equal. apply IH. lia.
Qed.

Lemma before_after (x : Z) (line : string) :
  0 <= x <= len line → before x line +:+ after x line = line.
Proof.
  intros Hx. unfold before, after. apply substring_split. unfold len in Hx. lia.
Qed.

Lemma len_before (x : Z) (line : string) :
  0 <= x <= len line → len (before x line) = x.
Proof.
  intros Hx. unfold before, len in *.
  rewrite substring_length_prefix by lia. lia.
Qed.

Lemma len_after (x : Z) (line : string) :
  0 <= x <= len line → len (after x line) = len line - x.
Proof.
  intros Hx. assert (H := before_after x line Hx).
  apply (f_equal len) in H. rewrite len_append, len_before in H by assumption. lia.
Qed.

Lemma slice_before (x : Z) (line : string) :
  0 <= x <= len line → slice line 0 x = Ret (before x line).
Proof.
  intros Hx. unfold slice, before.
  destruct (Z.leb_spec 0 0); [|lia].
  destruct (Z.leb_spec 0 x); [|lia].
  destruct (Z.leb_spec x (len line)); [|lia].
  simpl. now rewrite Z.sub_0_r.
Qed.

Lemma slice_after (x : Z) (line : string) :
  0 <= x <= len line → slice line x (len line) = Ret (after x line).
Proof.
  intros Hx. unfold slice, after.
  destruct (Z.leb_spec 0 x); [|lia].
  destruct (Z.leb_spec x (len line)); [|lia].
  destruct (Z.leb_spec (len line) (len line)); [|lia].
  simpl. do 2 f_equal. unfold len in *. lia.
Qed.

Lemma store_middle {A : Type} (l1 l2 : list A) (a v : A) :
  store (l1 ++ a :: l2) (lenS l1) v = Ret (l1 ++ v :: l2).
Proof.
  rewrite store_Ret by (unfold lenS; rewrite length_app; simpl; lia).
  f_equal. unfold lenS. rewrite Nat2Z.id.
  rewrite insert_app_r_alt by lia. now rewrite Nat.sub_diag.
Qed.

Lemma store_after_middle {A : Type} (l1 l2 : list A) (a b v : A) :
  store (l1 ++ a :: b :: l2) (lenS l1 + 1) v = Ret (l1 ++ a :: v :: l2).
Proof.
  replace (l1 ++ a :: b :: l2) with ((l1 ++ [a]) ++ b :: l2)
    by now rewrite <- app_assoc.
  replace (lenS l1 + 1) with (lenS (l1 ++ [a]))
    by (unfold lenS; rewrite length_app; simpl; lia).
  rewrite store_middle. now rewrite <- app_assoc.
Qed.

(** *** Scroll and redraw on narrow lines *)

Lemma trimTop_narrow (e : Editor) :
  1 <= dimX e → narrow (dimX e) (dataBuffer e) →
  ∀ (fuel : nat) (i first : Z),
  0 <= first → i < getLinesCount e → (Z.to_nat (i + 1) < fuel)%nat →
  trimTop fuel e i first = Ret first.
Proof.
  intros HW Hn. induction fuel as [|fuel IH]; intros i first Hfirst Hi Hfuel; [lia|].
  unfold trimTop; fold trimTop.
  destruct (Z.geb_spec i first) as [Hge|Hlt]; [|reflexivity].
  destruct (lookup_lt_is_Some_2 (dataBuffer e) (Z.to_nat i)) as [line Hline];
    [unfold getLinesCount, lenS in Hi; lia|].
  rewrite (index_Ret (dataBuffer e) i line ltac:(lia) Hline), bind_Ret.
  assert (Hshort : len line < dimX e) by (eapply (Forall_lookup_1 _ _ _ _ Hn Hline)).
  unfold div. destruct (Z.eqb_spec (dimX e) 0); [lia|].
  rewrite bind_Ret, Z.quot_small by (unfold len in *; lia).
  rewrite Z.add_0_r. apply IH; lia.
Qed.

Lemma advanceFrame_narrow :
  ∀ (fuel : nat) (e : Editor),
  1 <= dimX e → 2 <= dimY e → narrow (dimX e) (dataBuffer e) →
  0 <= firstLineInFrame e < getLinesCount e →
  (Z.to_nat (Y (cursorPos e) - lastLineInFrame e) < fuel)%nat →
  ∃ e', advanceFrame fuel e = Ret e'
        ∧ 0 <= firstLineInFrame e' < getLinesCount e'.
Proof.
  induction fuel as [|fuel IH]; intros e HW HH Hn Hfirst Hfuel; [lia|].
  unfold advanceFrame; fold advanceFrame.
  destruct (Z.gtb_spec (Y (cursorPos e)) (lastLineInFrame e)) as [Hgt|Hle]; [|eauto].
  destruct (Z.geb_spec (lastLineInFrame e + 1) (getLinesCount e)) as [Hend|Hmore];
    [eauto|].
  set (first := if lastLineInFrame e + 1 - firstLineInFrame e >? dimY e - 2
                then firstLineInFrame e + 1 else firstLineInFrame e).
  assert (Hf : 0 <= first < getLinesCount e).
  { unfold first. destruct (Z.gtb_spec (lastLineInFrame e + 1 - firstLineInFrame e)
                             (dimY e - 2)); lia. }
  rewrite (trimTop_narrow e HW Hn) by lia. rewrite bind_Ret.
  apply IH; simpl; try assumption. lia.
Qed.

(** On narrow lines, in a window that starts on a line of the buffer, the
    scroll advance and the redraw that follow an edit return. *)
Lemma scroll_redraw_narrow (e : Editor) :
  1 <= dimX e → 2 <= dimY e → narrow (dimX e) (dataBuffer e) →
  0 <= firstLineInFrame e < getLinesCount e →
  Y (cursorPos e) < getLinesCount e →
  ∃ e', (e2 ← fixVerticalCursorOverflow e; syncTextFrame false e2) = Ret e'.
Proof.
  intros HW HH Hn Hfirst Hcy. unfold fixVerticalCursorOverflow.
  destruct (advanceFrame_narrow _ e HW HH Hn Hfirst (Nat.lt_succ_diag_r _))
    as (e2 & He2 & Hf2).
  rewrite He2, bind_Ret.
  destruct (advanceFrame_same _ _ _ He2) as (_ & _ & _ & Hb & Hc & _ & _ & _ & Hd).
  apply syncTextFrame_Ret.
  - unfold dimX in *. now rewrite Hd.
  - unfold dimY in *. now rewrite Hd.
  - exact Hf2.
  - unfold getLinesCount in *. now rewrite Hc, Hb.
  - apply narrow_unwrapped. unfold dimX in *. now rewrite Hd, Hb.
Qed.

Lemma redraw_narrow (b : bool) (e : Editor) :
  1 <= dimX e → 2 <= dimY e → narrow (dimX e) (dataBuffer e) →
  0 <= firstLineInFrame e < getLinesCount e →
  Y (cursorPos e) < getLinesCount e →
  ∃ e', syncTextFrame b e = Ret e'.
Proof.
  intros HW HH Hn Hfirst Hcy.
  apply syncTextFrame_Ret; auto using narrow_unwrapped.
Qed.

(** *** Enter inside a line *)

Lemma narrow_split (W : Z) (above below : list string) (line : string) (x : Z) :
  0 <= x <= len line → narrow W (above ++ line :: below) →
  narrow W (above ++ before x line :: after x line :: below).
Proof.
  unfold narrow. intros Hx Hn.
  apply Forall_app in Hn as [Ha Hl]. apply Forall_cons in Hl as [Hl Hb].
  apply Forall_app. split; [assumption|].
  repeat apply Forall_cons_2; try assumption.
  - rewrite len_before by assumption. lia.
  - rewrite len_after by assumption. lia.
Qed.

(** The state Enter hands to the scroll advance and the redraw when the
    cursor is before the end of its line. *)
Lemma enter_split_state (event : Event) (e : Editor)
    (above below : list string) (line : string) :
  Value event = KeyEnter →
  dataBuffer e = above ++ line :: below →
  Y (cursorPos e) = lenS above → 0 <= X (cursorPos e) < len line →
  handleKeyInsertMode event e
    = (e2 ← fixVerticalCursorOverflow
              (set_dataBuffer
                 (above ++ before (X (cursorPos e)) line
                        :: after (X (cursorPos e)) line :: below)
                 (set_lastUpDownCursorMovement CURSOR_DOWN
                    (set_cursorX 0 (set_cursorY (lenS above + 1) (set_isDirty true e)))));
       syncTextFrame false e2).
Proof.
  intros Hv Hbuf Hcy Hcx. unfold handleKeyInsertMode. rewrite Hv. cbv zeta.
  change (cursorPos (set_isDirty true e)) with (cursorPos e).
  change (dataBuffer (set_isDirty true e)) with (dataBuffer e).
  change (getLinesCount (set_isDirty true e)) with (getLinesCount e).
  unfold getCurrentLineLength.
  change (cursorPos (set_isDirty true e)) with (cursorPos e).
  change (dataBuffer (set_isDirty true e)) with (dataBuffer e).
  assert (Hn : getLinesCount e = lenS above + 1 + lenS below).
  { unfold getLinesCount, lenS. rewrite Hbuf, length_app. simpl. lia. }
  rewrite make_Ret by (unfold lenS in *; lia). rewrite bind_Ret.
  rewrite Hcy, Hbuf, index_middle.
  assert (Hlt : (X (cursorPos e) <? len line) = true) by (apply Z.ltb_lt; lia).
  assert (Hcopy : copy (replicate (Z.to_nat (getLinesCount e + 1)) EmptyString)
                    (above ++ line :: below)
                  = above ++ line :: below ++ [EmptyString]).
  { unfold copy. rewrite length_replicate, take_ge
      by (rewrite length_app; simpl; unfold lenS in Hn; lia).
    rewrite drop_replicate.
    replace (Z.to_nat (getLinesCount e + 1) - length (above ++ line :: below))%nat
      with 1%nat by (rewrite length_app; simpl; unfold lenS in Hn; lia).
    simpl. now rewrite <- app_assoc. }
  rewrite Hcopy.
  assert (Hshift :
    (if lenS above <? getLinesCount e - 1
     then shiftLoop (Nat.pred (length (above ++ line :: below ++ [EmptyString])))
            (lenS above) (above ++ line :: below ++ [EmptyString])
     else mret (above ++ line :: below ++ [EmptyString]))
    = Ret (above ++ line :: match below with
                            | [] => [EmptyString]
                            | _ => line :: below
                            end)).
  { destruct below as [|next below]; simpl app.
    - destruct (Z.ltb_spec (lenS above) (getLinesCount e - 1)) as [Hl|_];
        [unfold lenS in *; simpl in Hn; lia | reflexivity].
    - destruct (Z.ltb_spec (lenS above) (getLinesCount e - 1)) as [_|Hge'];
        [|unfold lenS in *; simpl in Hn; lia].
      change (shiftLoop ?i (lenS above) ?nb)
        with (shiftLoop i (Z.of_nat (length above)) nb).
      rewrite shiftLoop_shifts
        by (rewrite !length_app; simpl; rewrite length_app; simpl; lia).
      f_equal.
      assert (Hlen : length (above ++ line :: next :: below ++ [EmptyString])
                     = S (S (S (length above + length below)))).
      { rewrite length_app. simpl. rewrite length_app. simpl. lia. }
      rewrite Hlen. simpl Nat.pred.
      rewrite (drop_ge _ (S (S (S (length above + length below)))))
        by (rewrite Hlen; lia).
      rewrite app_nil_r, drop_app_length.
      replace (S (S (length above + length below)) - length above)%nat
        with (S (S (length below))) by lia.
      simpl take at 2. rewrite take_app_length.
      replace (above ++ line :: next :: below ++ [EmptyString])
        with ((above ++ [line]) ++ next :: below ++ [EmptyString])
        by (now rewrite <- app_assoc).
      rewrite take_app_length' by (rewrite length_app; simpl; lia).
      now rewrite <- app_assoc. }
  rewrite Hshift, !bind_Ret, Hlt. cbv iota.
  rewrite slice_before, bind_Ret by lia.
  rewrite store_middle, bind_Ret.
  rewrite slice_after, bind_Ret by lia.
  assert (Hstore : store (above ++ before (X (cursorPos e)) line
                                :: match below with
                                   | [] => [EmptyString]
                                   | _ :: _ => line :: below
                                   end)
                     (lenS above + 1) (after (X (cursorPos e)) line)
                   = Ret (above ++ before (X (cursorPos e)) line
                                :: after (X (cursorPos e)) line :: below)).
  { destruct below; apply store_after_middle. }
  rewrite Hstore, bind_Ret. reflexivity.
Qed.

(** X1. Enter in Insert mode with the cursor before the end of its line: the
    line is cut at the cursor, the part from the cursor on becomes a new
    row after it and the rows below move down; the cursor goes to column
    0 of the new row and the dirty flag is set.  The key press returns on
    narrow lines when the window starts on a line of the buffer. *)
Theorem enter_splits_line_at_cursor (event : Event) (e : Editor)
    (above below : list string) (line : string) :
  Value event = KeyEnter →
  dataBuffer e = above ++ line :: below →
  Y (cursorPos e) = lenS above → 0 <= X (cursorPos e) < len line →
  (∀ e', handleKeyInsertMode event e = Ret e' →
     dataBuffer e'
       = above ++ before (X (cursorPos e)) line :: after (X (cursorPos e)) line :: below
     ∧ cursorPos e' = mkVertex 0 (lenS above + 1)
     ∧ isDirty e' = true)
  ∧ (1 <= dimX e → 2 <= dimY e → narrow (dimX e) (dataBuffer e) →
     0 <= firstLineInFrame e < getLinesCount e →
     ∃ e', handleKeyInsertMode event e = Ret e').
Proof.
  intros Hv Hbuf Hcy Hcx.
  rewrite (enter_split_state event e above below line Hv Hbuf Hcy Hcx). split.
  - intros e' H. bind_inv H.
    apply fixVerticalCursorOverflow_same in E as (_ & _ & _ & Hb & Hc & _ & Hd & _).
    apply syncTextFrame_same in H as [(_ & _ & _ & Hb' & Hc' & _ & Hd' & _) _].
    rewrite Hb', Hc', Hd', Hb, Hc, Hd. auto.
  - intros HW HH Hn Hfirst. apply scroll_redraw_narrow; try assumption.
    + simpl. rewrite Hbuf in Hn. apply narrow_split; [lia | assumption].
    + unfold getLinesCount, lenS in *. simpl. rewrite Hbuf in Hfirst.
      rewrite length_app in *. simpl in *. lia.
    + unfold getLinesCount, lenS. simpl. rewrite length_app. simpl. lia.
Qed.

Lemma enter_splits_line_at_cursor_witness :
  ∃ e', handleKeyInsertMode enterKey (insertEditor ["abcd"; "ef"]%string 1 0) = Ret e'
        ∧ dataBuffer e' = ["a"; "bcd"; "ef"]%string
        ∧ cursorPos e' = mkVertex 0 1.
Proof.
  destruct (enter_splits_line_at_cursor enterKey
              (insertEditor ["abcd"; "ef"]%string 1 0) [] ["ef"%string] "abcd"
              eq_refl eq_refl eq_refl ltac:(simpl; unfold len; simpl; lia))
    as (Hstate & Hret).
  destruct Hret as [e' He'].
  - unfold dimX. simpl. lia.
  - unfold dimY. simpl. lia.
  - repeat constructor.
  - simpl. unfold getLinesCount, lenS. simpl. lia.
  - exists e'. split; [exact He'|].
    destruct (Hstate e' He') as (Hb & Hc & _). split; assumption.
Defined.

(** *** Typing and deleting a character *)

Lemma before_append (a b : string) : before (len a) (a +:+ b) = a.
Proof.
  unfold before, len. rewrite Nat2Z.id.
  induction a as [|c a IH]; [now destruct b|].
  rewrite append_cons. simpl. now rewrite IH.
Qed.

Lemma after_append (a b : string) : after (len a) (a +:+ b) = b.
Proof.
  unfold after, len. rewrite Nat2Z.id.
  induction a as [|c a IH].
  - rewrite append_empty. simpl String.length. rewrite Nat.sub_0_r. apply substring_all.
  - rewrite append_cons. simpl. exact IH.
Qed.

Lemma append_assoc (a b c : string) : (a +:+ b) +:+ c = a +:+ b +:+ c.
Proof.
  induction a as [|x a IH]; [reflexivity|].
  rewrite !append_cons. now rewrite IH.
Qed.

Lemma narrow_replace (W : Z) (above below : list string) (line line' : string) :
  len line' < W → narrow W (above ++ line :: below) →
  narrow W (above ++ line' :: below).
Proof.
  unfold narrow. intros Hl Hn.
  apply Forall_app in Hn as [Ha Hb]. apply Forall_cons in Hb as [_ Hb].
  apply Forall_app. split; [assumption|]. now apply Forall_cons_2.
Qed.

(** The state a typed character hands to the redraw. *)
Lemma insert_state (event : Event) (e : Editor)
    (above below : list string) (line : string) :
  Value event = KeyOther → Rune event ≠ 0 →
  dataBuffer e = above ++ line :: below →
  Y (cursorPos e) = lenS above → 0 <= X (cursorPos e) <= len line →
  handleKeyInsertMode event e
    = syncTextFrame false
        (set_cursorX (X (cursorPos e) + 1)
           (set_dataBuffer
              (above ++ (before (X (cursorPos e)) line
                         +:+ encodeRune (Rune event)
                         +:+ after (X (cursorPos e)) line) :: below)
              (set_isDirty true e))).
Proof.
  intros Hv Hr Hbuf Hcy Hcx. unfold handleKeyInsertMode. rewrite Hv. cbv zeta.
  change (cursorPos (set_isDirty true e)) with (cursorPos e).
  change (dataBuffer (set_isDirty true e)) with (dataBuffer e).
  destruct (Z.eqb_spec (Rune event) 0); [contradiction|].
  rewrite Hcy, Hbuf, index_middle, bind_Ret.
  rewrite slice_before, bind_Ret by lia.
  rewrite slice_after, bind_Ret by lia.
  rewrite store_middle, bind_Ret. reflexivity.
Qed.

(** The state Backspace hands to the redraw when the cursor is past
    column 0. *)
Lemma delete_state (event : Event) (e : Editor)
    (above below : list string) (line : string) :
  isBackspace (Value event) = true →
  dataBuffer e = above ++ line :: below →
  Y (cursorPos e) = lenS above → 0 < X (cursorPos e) <= len line →
  handleKeyInsertMode event e
    = syncTextFrame false
        (set_cursorX (X (cursorPos e) - 1)
           (set_dataBuffer
              (above ++ (before (X (cursorPos e) - 1) line
                         +:+ after (X (cursorPos e)) line) :: below)
              (set_isDirty true e))).
Proof.
  intros Hb Hbuf Hcy Hcx. unfold handleKeyInsertMode, isBackspace in *.
  destruct (Value event); simpl in Hb; try discriminate; cbv zeta.
  all: change (cursorPos (set_isDirty true e)) with (cursorPos e).
  all: change (dataBuffer (set_isDirty true e)) with (dataBuffer e).
  all: destruct (Z.eqb_spec (X (cursorPos e)) 0); [lia|]; simpl andb; cbv iota.
  all: destruct (Z.gtb_spec (X (cursorPos e)) 0); [|lia].
  all: rewrite Hcy, Hbuf, index_middle, bind_Ret.
  all: rewrite slice_before, bind_Ret by lia.
  all: rewrite slice_after, bind_Ret by lia.
  all: rewrite store_middle, bind_Ret; reflexivity.
Qed.

(** In Insert mode the event loop hands a character key to
    [handleKeyInsertMode]. *)
Lemma handleEvent_insert_character (W : string → list string → option string)
    (event : Event) (e : Editor) :
  Kind event = KEY_PRESS → currentMode e = MODE_INSERT → Value event = KeyOther →
  handleEvent W event e = handleKeyInsertMode event e.
Proof.
  intros Hk Hm Hv. unfold handleEvent, handleTextAreaCursorMovement.
  now rewrite Hk, Hm, Hv.
Qed.

(** X2. A character typed in Insert mode goes into the cursor's line at the
    cursor, as the bytes of its UTF-8 encoding; the cursor moves one column
    to the right, whatever the number of bytes, the other lines stay and
    the dirty flag is set.  The key press returns when the lines stay
    narrow and the window starts on a line of the buffer. *)
Theorem typed_character_is_inserted
    (W : string → list string → option string) (event : Event) (e : Editor)
    (above below : list string) (line : string) :
  Kind event = KEY_PRESS → Value event = KeyOther → Rune event ≠ 0 →
  currentMode e = MODE_INSERT →
  dataBuffer e = above ++ line :: below →
  Y (cursorPos e) = lenS above → 0 <= X (cursorPos e) <= len line →
  (∀ e', handleEvent W event e = Ret e' →
     dataBuffer e'
       = above ++ (before (X (cursorPos e)) line +:+ encodeRune (Rune event)
                   +:+ after (X (cursorPos e)) line) :: below
     ∧ cursorPos e' = mkVertex (X (cursorPos e) + 1) (lenS above)
     ∧ currentMode e' = MODE_INSERT ∧ isDirty e' = true)
  ∧ (1 <= dimX e → 2 <= dimY e →
     len line + len (encodeRune (Rune event)) < dimX e →
     narrow (dimX e) (dataBuffer e) →
     0 <= firstLineInFrame e < getLinesCount e →
     ∃ e', handleEvent W event e = Ret e').
Proof.
  intros Hk Hv Hr Hm Hbuf Hcy Hcx.
  rewrite (handleEvent_insert_character W event e Hk Hm Hv).
  rewrite (insert_state event e above below line Hv Hr Hbuf Hcy Hcx). split.
  - intros e' H.
    apply syncTextFrame_same in H as [(Hm' & _ & _ & Hb' & Hc' & _ & Hd' & _) _].
    rewrite Hb', Hc', Hd', Hm'. simpl. rewrite Hcy, Hm. auto.
  - intros HW HH Hfit Hn Hfirst. apply redraw_narrow; try assumption.
    + simpl. rewrite Hbuf in Hn. eapply narrow_replace; [|exact Hn].
      change (dimX (set_cursorX _ _)) with (dimX e).
      rewrite !len_append, len_before, len_after by lia. lia.
    + unfold getLinesCount, lenS in *. simpl. rewrite Hbuf in Hfirst.
      rewrite length_app in *. simpl in *. lia.
    + unfold getLinesCount, lenS in *. simpl. rewrite Hcy, length_app. simpl. lia.
Qed.

Lemma typed_character_is_inserted_witness :
  ∃ e', handleEvent saveOk (typed 120) (insertEditor ["abcd"; "ef"]%string 1 0) = Ret e'
        ∧ dataBuffer e' = ["axbcd"; "ef"]%string
        ∧ cursorPos e' = mkVertex 2 0.
Proof.
  destruct (typed_character_is_inserted saveOk (typed 120)
              (insertEditor ["abcd"; "ef"]%string 1 0) [] ["ef"%string] "abcd"
              eq_refl eq_refl ltac:(discriminate) eq_refl eq_refl eq_refl
              ltac:(simpl; unfold len; simpl; lia))
    as (Hstate & Hret).
  destruct Hret as [e' He'].
  - unfold dimX. simpl. lia.
  - unfold dimY. simpl. lia.
  - vm_compute. reflexivity.
  - repeat constructor.
  - simpl. unfold getLinesCount, lenS. simpl. lia.
  - exists e'. split; [exact He'|].
    destruct (Hstate e' He') as (Hb & Hc & _). split; assumption.
Defined.

(** X3. Backspace in Insert mode with the cursor past column 0 and within its
    line removes the byte before the cursor and moves the cursor one
    column to the left; the other lines stay and the dirty flag is set.
    The key press returns on narrow lines when the window starts on a line
    of the buffer. *)
Theorem backspace_deletes_byte_before_cursor
    (W : string → list string → option string) (event : Event) (e : Editor)
    (above below : list string) (line : string) :
  Kind event = KEY_PRESS → isBackspace (Value event) = true →
  currentMode e = MODE_INSERT →
  dataBuffer e = above ++ line :: below →
  Y (cursorPos e) = lenS above → 0 < X (cursorPos e) <= len line →
  (∀ e', handleEvent W event e = Ret e' →
     dataBuffer e'
       = above ++ (before (X (cursorPos e) - 1) line
                   +:+ after (X (cursorPos e)) line) :: below
     ∧ cursorPos e' = mkVertex (X (cursorPos e) - 1) (lenS above)
     ∧ currentMode e' = MODE_INSERT ∧ isDirty e' = true)
  ∧ (1 <= dimX e → 2 <= dimY e → narrow (dimX e) (dataBuffer e) →
     0 <= firstLineInFrame e < getLinesCount e →
     ∃ e', handleEvent W event e = Ret e').
Proof.
  intros Hk Hb Hm Hbuf Hcy Hcx.
  rewrite (handleEvent_insert_key W event e Hk Hm (or_introl Hb)).
  rewrite (delete_state event e above below line Hb Hbuf Hcy Hcx). split.
  - intros e' H.
    apply syncTextFrame_same in H as [(Hm' & _ & _ & Hb' & Hc' & _ & Hd' & _) _].
    rewrite Hb', Hc', Hd', Hm'. simpl. rewrite Hcy, Hm. auto.
  - intros HW HH Hn Hfirst. apply redraw_narrow; try assumption.
    + simpl. rewrite Hbuf in Hn. eapply narrow_replace; [|exact Hn].
      unfold narrow in Hn. apply Forall_app in Hn as [_ Hn].
      apply Forall_cons in Hn as [Hl _].
      change (dimX (set_cursorX _ _)) with (dimX e).
      rewrite len_append, len_before, len_after by lia. lia.
    + unfold getLinesCount, lenS in *. simpl. rewrite Hbuf in Hfirst.
      rewrite length_app in *. simpl in *. lia.
    + unfold getLinesCount, lenS in *. simpl. rewrite Hcy, length_app. simpl. lia.
Qed.

Lemma backspace_deletes_byte_before_cursor_witness :
  ∃ e', handleEvent saveOk backspaceKey (insertEditor ["abcd"; "ef"]%string 2 0) = Ret e'
        ∧ dataBuffer e' = ["acd"; "ef"]%string
        ∧ cursorPos e' = mkVertex 1 0.
Proof.
  destruct (backspace_deletes_byte_before_cursor saveOk backspaceKey
              (insertEditor ["abcd"; "ef"]%string 2 0) [] ["ef"%string] "abcd"
              eq_refl eq_refl eq_refl eq_refl eq_refl
              ltac:(simpl; unfold len; simpl; lia))
    as (Hstate & Hret).
  destruct Hret as [e' He'].
  - unfold dimX. simpl. lia.
  - unfold dimY. simpl. lia.
  - repeat constructor.
  - simpl. unfold getLinesCount, lenS. simpl. lia.
  - exists e'. split; [exact He'|].
    destruct (Hstate e' He') as (Hb & Hc & _). split; assumption.
Defined.

(** *** Round trips *)

(** A rune below 128 is one byte. *)
Lemma len_encodeRune_ascii (r : Z) : 0 <= r < 128 → len (encodeRune r) = 1.
Proof.
  intros Hr. unfold encodeRune, between.
  destruct (Z.ltb_spec r 0); [lia|].
  destruct (Z.ltb_spec 1114111 r); [lia|].
  destruct (Z.leb_spec 55296 r); [lia|]. simpl.
  destruct (Z.ltb_spec r 128); [|lia]. reflexivity.
Qed.

(** Removing the byte after a prefix [a] from [a ++ c ++ b], [c] one byte
    long, leaves [a ++ b]. *)
Lemma before_after_inserted (x : Z) (line c : string) :
  0 <= x <= len line → len c = 1 →
  before (x + 1 - 1) (before x line +:+ c +:+ after x line)
  +:+ after (x + 1) (before x line +:+ c +:+ after x line) = line.
Proof.
  intros Hx Hc. replace (x + 1 - 1) with x by lia.
  rewrite <- (len_before x line Hx) at 1. rewrite before_append.
  rewrite <- append_assoc.
  replace (x + 1) with (len (before x line +:+ c))
    by (rewrite len_append, len_before by assumption; lia).
  rewrite after_append. now apply before_after.
Qed.

(** X4. Typing a one-byte character and pressing Backspace gives back the
    buffer and the cursor; the two key presses return on lines that stay
    narrow. *)
Theorem typing_then_backspace_restores
    (W : string → list string → option string) (key bs : Event) (e : Editor)
    (above below : list string) (line : string) :
  Kind key = KEY_PRESS → Value key = KeyOther → 0 < Rune key < 128 →
  Kind bs = KEY_PRESS → isBackspace (Value bs) = true →
  currentMode e = MODE_INSERT →
  dataBuffer e = above ++ line :: below →
  Y (cursorPos e) = lenS above → 0 <= X (cursorPos e) <= len line →
  (∀ e', handleEvents W [key; bs] e = Ret e' →
     dataBuffer e' = dataBuffer e ∧ cursorPos e' = cursorPos e
     ∧ currentMode e' = MODE_INSERT)
  ∧ (1 <= dimX e → 2 <= dimY e → len line + 1 < dimX e →
     narrow (dimX e) (dataBuffer e) →
     0 <= firstLineInFrame e < getLinesCount e →
     ∃ e', handleEvents W [key; bs] e = Ret e').
Proof.
  intros Hk Hv Hr Hkb Hb Hm Hbuf Hcy Hcx.
  assert (Hone := len_encodeRune_ascii (Rune key) ltac:(lia)).
  set (line' := before (X (cursorPos e)) line +:+ encodeRune (Rune key)
                +:+ after (X (cursorPos e)) line).
  assert (Hlen' : len line' = len line + 1).
  { unfold line'. rewrite !len_append, len_before, len_after by lia. lia. }
  assert (Hstep1 := insert_state key e above below line Hv ltac:(lia) Hbuf Hcy Hcx).
  fold line' in Hstep1.
  rewrite <- (handleEvent_insert_character W key e Hk Hm Hv) in Hstep1.
  assert (Hstep2 : ∀ e1, handleEvent W key e = Ret e1 →
            handleEvent W bs e1
            = syncTextFrame false
                (set_cursorX (X (cursorPos e))
                   (set_dataBuffer (above ++ line :: below) (set_isDirty true e1)))
            ∧ sameDocument
                (set_cursorX (X (cursorPos e) + 1)
                   (set_dataBuffer (above ++ line' :: below) (set_isDirty true e)))
                e1
            ∧ firstLineInFrame e1 = firstLineInFrame e).
  { intros e1 H1. rewrite Hstep1 in H1.
    apply syncTextFrame_same in H1 as [Hsame Hf1].
    split; [|split; assumption].
    destruct Hsame as (Hm1 & _ & _ & Hb1 & Hc1 & _).
    simpl in Hm1, Hb1, Hc1.
    rewrite (handleEvent_insert_key W bs e1 Hkb ltac:(congruence) (or_introl Hb)).
    rewrite (delete_state bs e1 above below line' Hb Hb1).
    - rewrite Hc1. simpl X. unfold line'.
      rewrite before_after_inserted by (assumption || lia).
      now replace (X (cursorPos e) + 1 - 1) with (X (cursorPos e)) by lia.
    - rewrite Hc1. exact Hcy.
    - rewrite Hc1. simpl X. lia. }
  split.
  - intros e' H. simpl in H. bind_inv H.
    destruct (Hstep2 _ eq_refl) as (Hbs & (Hm1 & _ & _ & _ & Hc1 & _) & _).
    simpl in Hm1, Hc1.
    bind_inv H. injection H as <-. symmetry in Hbs.
    apply syncTextFrame_same in Hbs as [(Hm2 & _ & _ & Hb2 & Hc2 & _) _].
    simpl in Hm2, Hb2, Hc2. rewrite Hb2, Hc2, Hc1, Hm2, Hm1, Hbuf, Hm.
    destruct (cursorPos e) as [x y]. simpl in *. subst y. auto.
  - intros HW HH Hfit Hn Hfirst.
    assert (Hcount : getLinesCount e = lenS above + lenS below + 1).
    { unfold getLinesCount, lenS. rewrite Hbuf, length_app. simpl. lia. }
    destruct (redraw_narrow false
                (set_cursorX (X (cursorPos e) + 1)
                   (set_dataBuffer (above ++ line' :: below) (set_isDirty true e))))
      as [e1 He1].
    + exact HW.
    + exact HH.
    + simpl. change (dimX (set_cursorX _ _)) with (dimX e).
      rewrite Hbuf in Hn. eapply narrow_replace; [|exact Hn]. lia.
    + unfold getLinesCount, lenS in *. simpl. rewrite length_app. simpl. lia.
    + unfold getLinesCount, lenS in *. simpl. rewrite Hcy, length_app. simpl. lia.
    + rewrite <- Hstep1 in He1.
      destruct (Hstep2 _ He1) as (Hbs & (_ & _ & _ & _ & _ & _ & _ & _ & Hd) & Hf1).
      simpl in Hd.
      destruct (redraw_narrow false
                  (set_cursorX (X (cursorPos e))
                     (set_dataBuffer (above ++ line :: below) (set_isDirty true e1))))
        as [e2 He2].
      * unfold dimX in *. simpl. now rewrite Hd.
      * unfold dimY in *. simpl. now rewrite Hd.
      * unfold dimX in *. simpl. rewrite Hd. now rewrite <- Hbuf.
      * unfold getLinesCount, lenS in *. simpl. rewrite Hf1, length_app. simpl. lia.
      * unfold getLinesCount, lenS in *. simpl.
        replace (Y (cursorPos e1)) with (Y (cursorPos e)).
        -- rewrite Hcy, length_app. simpl. lia.
        -- destruct (Hstep2 _ He1) as (_ & (_ & _ & _ & _ & Hc1 & _) & _).
           now rewrite Hc1.
      * exists e2. simpl. rewrite He1, bind_Ret, Hbs, He2. reflexivity.
Qed.

Lemma typing_then_backspace_restores_witness :
  ∃ e', handleEvents saveOk [typed 120; backspaceKey]
          (insertEditor ["abcd"; "ef"]%string 1 0) = Ret e'
        ∧ dataBuffer e' = ["abcd"; "ef"]%string
        ∧ cursorPos e' = mkVertex 1 0.
Proof.
  destruct (typing_then_backspace_restores saveOk (typed 120) backspaceKey
              (insertEditor ["abcd"; "ef"]%string 1 0) [] ["ef"%string] "abcd"
              eq_refl eq_refl ltac:(simpl; lia) eq_refl eq_refl eq_refl eq_refl eq_refl
              ltac:(simpl; unfold len; simpl; lia))
    as (Hstate & Hret).
  destruct Hret as [e' He'].
  - unfold dimX. simpl. lia.
  - unfold dimY. simpl. lia.
  - vm_compute. reflexivity.
  - repeat constructor.
  - simpl. unfold getLinesCount, lenS. simpl. lia.
  - exists e'. split; [exact He'|].
    destruct (Hstate e' He') as (Hb & Hc & _). split; assumption.
Defined.

(** A redraw reads the line the window starts on: with the window start
    past the last line it panics. *)
Lemma drawTextFrame_outside (e : Editor) :
  getLinesCount e <= firstLineInFrame e → drawTextFrame e = Panic.
Proof.
  intros Hout. unfold drawTextFrame, fillTextFrameFromTop, make.
  destruct (dimY e - 1 <? 0); [reflexivity|]. rewrite bind_Ret.
  unfold fillLoop, index.
  destruct (firstLineInFrame e <? 0); [reflexivity|].
  rewrite (lookup_ge_None_2 (dataBuffer e) (Z.to_nat (firstLineInFrame e)));
    [reflexivity|].
  unfold getLinesCount, lenS in Hout. lia.
Qed.

(** X5. Enter inside a line followed by Backspace gives back the buffer and
    the cursor.  On narrow lines Enter returns, and Backspace after it
    returns when the window Enter left does not start on the line that
    Backspace removes as the last one. *)
Theorem enter_then_backspace_restores
    (W : string → list string → option string) (enter bs : Event) (e : Editor)
    (above below : list string) (line : string) :
  Kind enter = KEY_PRESS → Value enter = KeyEnter →
  Kind bs = KEY_PRESS → isBackspace (Value bs) = true →
  currentMode e = MODE_INSERT →
  dataBuffer e = above ++ line :: below →
  Y (cursorPos e) = lenS above → 0 <= X (cursorPos e) < len line →
  (∀ e', handleEvents W [enter; bs] e = Ret e' →
     dataBuffer e' = dataBuffer e ∧ cursorPos e' = cursorPos e
     ∧ currentMode e' = MODE_INSERT)
  ∧ (1 <= dimX e → 2 <= dimY e → narrow (dimX e) (dataBuffer e) →
     0 <= firstLineInFrame e < getLinesCount e →
     ∃ e1, handleEvent W enter e = Ret e1
           ∧ (firstLineInFrame e1 < getLinesCount e →
              ∃ e', handleEvents W [enter; bs] e = Ret e')).
Proof.
  intros Hk Hv Hkb Hb Hm Hbuf Hcy Hcx.
  set (x := X (cursorPos e)) in *.
  set (st := set_dataBuffer (above ++ before x line :: after x line :: below)
               (set_lastUpDownCursorMovement CURSOR_DOWN
                  (set_cursorX 0 (set_cursorY (lenS above + 1) (set_isDirty true e))))).
  assert (Hstep1 : handleEvent W enter e
                   = (e2 ← fixVerticalCursorOverflow st; syncTextFrame false e2)).
  { rewrite (handleEvent_insert_key W enter e Hk Hm (or_intror Hv)).
    apply enter_split_state; assumption. }
  assert (Hstep2 : ∀ e1, handleEvent W enter e = Ret e1 →
            sameDocument st e1
            ∧ handleEvent W bs e1
              = syncTextFrame false
                  (set_dataBuffer (above ++ line :: below)
                     (set_cursorY (lenS above)
                        (set_cursorX x (set_isDirty true e1))))).
  { intros e1 H1. rewrite Hstep1 in H1. bind_inv H1.
    apply fixVerticalCursorOverflow_same in E.
    apply syncTextFrame_same in H1 as [Hs _].
    assert (Hsame := sameDocument_trans _ _ _ E Hs).
    split; [exact Hsame|].
    destruct Hsame as (Hm1 & _ & _ & Hb1 & Hc1 & _). simpl in Hm1, Hb1, Hc1.
    rewrite (handleEvent_insert_key W bs e1 Hkb ltac:(congruence) (or_introl Hb)).
    rewrite (backspace_merge_state bs e1 above below (before x line) (after x line)
               Hb Hb1 Hc1).
    rewrite before_after, len_before by lia. reflexivity. }
  split.
  - intros e' H. simpl in H.
    destruct (handleEvent W enter e) as [e1| | |]; simpl in H; try discriminate H.
    destruct (Hstep2 e1 eq_refl) as ((Hm1 & _) & Hbs). simpl in Hm1.
    rewrite Hbs in H. bind_inv H. injection H as <-.
    apply syncTextFrame_same in E as [(Hm2 & _ & _ & Hb2 & Hc2 & _) _].
    simpl in Hm2, Hb2, Hc2. rewrite Hb2, Hc2, Hm2, Hm1, Hbuf, Hm.
    subst x. destruct (cursorPos e) as [cx cy]. simpl in *. subst cy. auto.
  - intros HW HH Hn Hfirst.
    assert (Hcount : getLinesCount e = lenS above + lenS below + 1).
    { unfold getLinesCount, lenS. rewrite Hbuf, length_app. simpl. lia. }
    assert (Hcount' : getLinesCount st = lenS above + lenS below + 2).
    { unfold getLinesCount, lenS. simpl. rewrite length_app. simpl. lia. }
    assert (Hn' : narrow (dimX st) (dataBuffer st)).
    { simpl. change (dimX st) with (dimX e). rewrite Hbuf in Hn.
      apply narrow_split; [lia | exact Hn]. }
    destruct (advanceFrame_narrow _ st HW HH Hn'
                ltac:(change (firstLineInFrame st) with (firstLineInFrame e); lia)
                (Nat.lt_succ_diag_r _)) as (e2 & He2 & Hf2).
    change (advanceFrame _ st) with (fixVerticalCursorOverflow st) in He2.
    destruct (fixVerticalCursorOverflow_same _ _ He2)
      as (_ & _ & _ & Hb2 & Hc2 & _ & _ & _ & Hd2).
    assert (Hg2 : getLinesCount e2 = getLinesCount st)
      by (unfold getLinesCount; now rewrite Hb2).
    destruct (redraw_narrow false e2) as [e1 He1].
    + unfold dimX in *. now rewrite Hd2.
    + unfold dimY in *. now rewrite Hd2.
    + unfold dimX in *. now rewrite Hd2, Hb2.
    + exact Hf2.
    + rewrite Hc2, Hg2, Hcount'. change (Y (cursorPos st)) with (lenS above + 1).
      unfold lenS. lia.
    + assert (Henter : handleEvent W enter e = Ret e1)
        by now rewrite Hstep1, He2, bind_Ret.
      exists e1. split; [exact Henter|]. intros Hin.
      destruct (Hstep2 e1 Henter) as ((_ & _ & _ & _ & _ & _ & _ & _ & Hd1) & Hbs).
      apply syncTextFrame_same in He1 as [_ Hf1].
      destruct (redraw_narrow false
                  (set_dataBuffer (above ++ line :: below)
                     (set_cursorY (lenS above)
                        (set_cursorX x (set_isDirty true e1))))) as [e' He'].
      * unfold dimX in *. simpl. now rewrite Hd1.
      * unfold dimY in *. simpl. now rewrite Hd1.
      * unfold dimX in *. simpl. rewrite Hd1. now rewrite <- Hbuf.
      * unfold getLinesCount, lenS in *. simpl. rewrite length_app. simpl.
        rewrite Hbuf, length_app in Hin. simpl in Hin. lia.
      * unfold getLinesCount, lenS. simpl. rewrite length_app. simpl. lia.
      * exists e'. simpl. now rewrite Henter, bind_Ret, Hbs, He'.
Qed.

Lemma enter_then_backspace_restores_witness :
  ∃ e', handleEvents saveOk [enterKey; backspaceKey]
          (insertEditor ["abcd"; "ef"]%string 1 0) = Ret e'
        ∧ dataBuffer e' = ["abcd"; "ef"]%string
        ∧ cursorPos e' = mkVertex 1 0.
Proof.
  destruct (enter_then_backspace_restores saveOk enterKey backspaceKey
              (insertEditor ["abcd"; "ef"]%string 1 0) [] ["ef"%string] "abcd"
              eq_refl eq_refl eq_refl eq_refl eq_refl eq_refl eq_refl
              ltac:(simpl; unfold len; simpl; lia))
    as (Hstate & Hret).
  destruct Hret as (e1 & He1 & Hnext).
  - unfold dimX. simpl. lia.
  - unfold dimY. simpl. lia.
  - repeat constructor.
  - simpl. unfold getLinesCount, lenS. simpl. lia.
  - destruct Hnext as [e' He'].
    + assert (Hv : handleEvent saveOk enterKey (insertEditor ["abcd"; "ef"]%string 1 0)
                   = Ret e1) by exact He1.
      vm_compute in Hv. injection Hv as <-. vm_compute. reflexivity.
    + exists e'. split; [exact He'|].
      destruct (Hstate e' He') as (Hb & Hc & _). split; assumption.
Defined.

(** X6. Backspace at column 0 joins the cursor's line with the one above and
    leaves the window start where it was: when the window starts on the
    last line of the buffer and the cursor is on it, the redraw reads a
    line that is no longer there and the editor panics. *)
Theorem backspace_merging_last_line_at_window_top_panics
    (W : string → list string → option string) (bs : Event) (e : Editor)
    (above : list string) (prev cur : string) :
  Kind bs = KEY_PRESS → isBackspace (Value bs) = true →
  currentMode e = MODE_INSERT →
  dataBuffer e = above ++ [prev; cur] →
  cursorPos e = mkVertex 0 (lenS above + 1) →
  firstLineInFrame e = lenS above + 1 →
  handleEvent W bs e = Panic.
Proof.
  intros Hk Hb Hm Hbuf Hc Hfirst.
  rewrite (handleEvent_insert_key W bs e Hk Hm (or_introl Hb)).
  rewrite (backspace_merge_state bs e above [] prev cur Hb Hbuf Hc).
  unfold syncTextFrame. rewrite drawTextFrame_outside; [reflexivity|].
  unfold getLinesCount, lenS. simpl. rewrite Hfirst, length_app. simpl.
  unfold lenS. lia.
Qed.

Lemma backspace_merging_last_line_at_window_top_panics_witness :
  handleEvent saveOk backspaceKey
    (mkEditor MODE_INSERT "-- INSERT --" "f.txt" ["ab"; "cd"]%string 0 (mkVertex 0 1)
       "" CURSOR_DOWN 1 1 (NewScreen (mkVertex 10 2)) true None) = Panic.
Proof.
  apply (backspace_merging_last_line_at_window_top_panics saveOk backspaceKey _
           [] "ab" "cd"); reflexivity.
Defined.

(** *** What the modes leave alone *)

Lemma sameText_refl (e : Editor) : sameText e e.
Proof. unfold sameText. repeat split. Qed.

Lemma sameText_trans (e1 e2 e3 : Editor) :
  sameText e1 e2 → sameText e2 e3 → sameText e1 e3.
Proof.
  unfold sameText. intros (?&?&?&?&?) (?&?&?&?&?). repeat split; congruence.
Qed.

Lemma sameDocument_sameText (e e' : Editor) : sameDocument e e' → sameText e e'.
Proof.
  unfold sameDocument, sameText. intros (?&?&?&?&?&?&?&?&?). repeat split; assumption.
Qed.

Lemma syncStatusBar_same (e : Editor) :
  sameText e (syncStatusBar e)
  ∧ currentMode (syncStatusBar e) = currentMode e
  ∧ cursorPos (syncStatusBar e) = cursorPos e
  ∧ currentCommand (syncStatusBar e) = currentCommand e
  ∧ statusMessage (syncStatusBar e) = statusMessage e.
Proof.
  unfold syncStatusBar, sameText. destruct (theme.ResolveGroup _ _); simpl; repeat split.
Qed.

(** [fixHorizontalCursorOverflow] reads the cursor's line and brings the
    column back to the limit of the mode when it is beyond. *)
Lemma fixHorizontalCursorOverflow_spec (e e' : Editor) :
  fixHorizontalCursorOverflow e = Ret e' →
  ∃ line, 0 <= Y (cursorPos e)
          ∧ dataBuffer e !! Z.to_nat (Y (cursorPos e)) = Some line
          ∧ ((X (cursorPos e) <= colLimit (currentMode e) line ∧ e' = e)
             ∨ (colLimit (currentMode e) line < X (cursorPos e)
                ∧ e' = set_cursorX (colLimit (currentMode e) line) e)).
Proof.
  unfold fixHorizontalCursorOverflow, getCurrentLineLength. intros H.
  bind_inv H. bind_inv E. injection E as <-.
  apply index_inv in E0 as [Hy Hline]. exists a0. split; [exact Hy|].
  split; [exact Hline|]. unfold colLimit.
  destruct (currentMode e);
    match type of H with
    | (if ?c then _ else _) = _ => destruct c eqn:Hc
    end; injection H as <-; (left + right); split; (reflexivity || lia).
Qed.

Lemma fixHorizontalCursorOverflow_same (e e' : Editor) :
  fixHorizontalCursorOverflow e = Ret e' →
  sameText e e' ∧ currentMode e' = currentMode e
  ∧ Y (cursorPos e') = Y (cursorPos e)
  ∧ firstLineInFrame e' = firstLineInFrame e.
Proof.
  intros H. apply fixHorizontalCursorOverflow_spec in H
    as (line & _ & _ & [[_ ->]|[_ ->]]); unfold sameText; simpl; repeat split.
Qed.

Lemma handleTextAreaCursorMovement_same (event : Event) (e e' : Editor) (b : bool) :
  handleTextAreaCursorMovement event e = Ret (b, e') →
  sameText e e' ∧ currentMode e' = currentMode e.
Proof.
  unfold handleTextAreaCursorMovement. intros H.
  assert (Hrefl : sameText e e ∧ currentMode e = currentMode e)
    by (split; [apply sameText_refl | reflexivity]).
  destruct (Value event); try (injection H as _ <-; exact Hrefl).
  - destruct (negb _); [|injection H as _ <-; exact Hrefl].
    bind_inv H. injection H as _ <-.
    apply syncCursor_same in E as [(Hm & _ & Hf & Hb & _ & _ & Hd & Ht & Hs) _].
    unfold sameText. simpl in *. repeat split; assumption.
  - bind_inv H. bind_inv H. injection H as _ <-.
    apply fixHorizontalCursorOverflow_same in E as ((Hf & Hb & Hd & Ht & Hs) & Hm & _).
    apply syncCursor_same in E0 as [(Hm' & _ & Hf' & Hb' & _ & _ & Hd' & Ht' & Hs') _].
    unfold sameText. simpl in *. repeat split; congruence.
  - destruct (negb _); [|injection H as _ <-; exact Hrefl].
    bind_inv H. bind_inv H. injection H as _ <-.
    apply fixHorizontalCursorOverflow_same in E as ((Hf & Hb & Hd & Ht & Hs) & Hm & _).
    apply syncCursor_same in E0 as [(Hm' & _ & Hf' & Hb' & _ & _ & Hd' & Ht' & Hs') _].
    unfold sameText. simpl in *.
    destruct (_ <? _); [destruct (_ >? _)|]; simpl in *; repeat split; congruence.
  - destruct (negb _); [|injection H as _ <-; exact Hrefl].
    bind_inv H. bind_inv H. bind_inv H. injection H as _ <-.
    apply fixHorizontalCursorOverflow_same in E as ((Hf & Hb & Hd & Ht & Hs) & Hm & _).
    apply fixVerticalCursorOverflow_same in E0
      as (Hm0 & _ & Hf0 & Hb0 & _ & _ & Hd0 & Ht0 & Hs0).
    apply syncCursor_same in E1 as [(Hm' & _ & Hf' & Hb' & _ & _ & Hd' & Ht' & Hs') _].
    unfold sameText. simpl in *. repeat split; congruence.
Qed.

Lemma handleKeyCommandLineMode_same (event : Event) (e e' : Editor) :
  handleKeyCommandLineMode event e = Ret e' →
  sameText e e' ∧ currentMode e' = currentMode e ∧ cursorPos e' = cursorPos e.
Proof.
  unfold handleKeyCommandLineMode. intros H.
  destruct (_ || _).
  - injection H as <-. split; [apply sameText_refl | split; reflexivity].
  - bind_inv H. injection H as <-.
    destruct (syncStatusBar_same (set_currentCommand a e)) as (Hs & Hm & Hc & _).
    split; [exact Hs | split; assumption].
Qed.

Lemma runCommand_same (W : string → list string → option string)
    (cmdFull : string) (e e' : Editor) :
  runCommand W cmdFull e = Ret e' →
  sameText e e' ∧ currentMode e' = MODE_NORMAL ∧ currentCommand e' = EmptyString.
Proof.
  unfold runCommand. intros H. bind_inv H. bind_inv H. injection H as <-.
  assert (Hs : sameText e a0).
  { destruct (Atoi a).
    - bind_inv E0.
      apply fixVerticalCursorOverflow_same, sameDocument_sameText in E1.
      apply syncTextFrame_same in E0 as [E0 _]. apply sameDocument_sameText in E0.
      eapply sameText_trans; [|exact E0]. exact E1.
    - unfold quit in E0.
      repeat match type of E0 with
             | (if ?c then _ else _) = _ => destruct c
             end; try discriminate E0; injection E0 as <-;
        unfold sameText; simpl; repeat split. }
  destruct (syncStatusBar_same (set_currentCommand "" a0)) as (Hs' & _ & _ & Hc & _).
  split; [|split; [reflexivity | exact Hc]].
  eapply sameText_trans; [exact Hs|]. exact Hs'.
Qed.

Lemma handleKeyNormalMode_same (event : Event) (e e' : Editor) :
  handleKeyNormalMode event e = Ret e' →
  sameText e e'
  ∧ currentMode e'
    = (if Rune event =? 58 then MODE_COMMAND_LINE
       else if (Rune event =? 105) || (Rune event =? 65) then MODE_INSERT
       else currentMode e).
Proof.
  unfold handleKeyNormalMode, switchToInsertMode. intros H.
  destruct (Rune event =? 58).
  { apply handleKeyCommandLineMode_same in H as (Hs & Hm & _).
    split; [exact Hs | exact Hm]. }
  destruct (Rune event =? 105).
  { injection H as <-.
    destruct (syncStatusBar_same
                (set_statusMessage "-- INSERT --" (set_currentMode MODE_INSERT e)))
      as (Hs & Hm & _).
    split; [exact Hs | exact Hm]. }
  destruct (Rune event =? 65).
  { bind_inv H.
    apply syncCursor_same in H as [(Hm' & _ & Hf' & Hb' & _ & _ & Hd' & Ht' & Hs') _].
    destruct (syncStatusBar_same
                (set_statusMessage "-- INSERT --"
                   (set_currentMode MODE_INSERT (set_cursorX a e))))
      as ((Hf & Hb & Hd & Ht & Hs) & Hm & _).
    unfold sameText. simpl in *. repeat split; congruence. }
  destruct (Rune event =? 71).
  { bind_inv H.
    apply fixVerticalCursorOverflow_same in E
      as (Hm0 & _ & Hf0 & Hb0 & _ & _ & Hd0 & Ht0 & Hs0).
    apply syncTextFrame_same in H as [(Hm' & _ & Hf' & Hb' & _ & _ & Hd' & Ht' & Hs') _].
    unfold sameText. simpl in *. repeat split; congruence. }
  injection H as <-. split; [apply sameText_refl | reflexivity].
Qed.

(** A key handled by [handleKeyInsertMode] leaves the file name, the
    theme, the terminal size and the mode, and the dirty flag set. *)
Lemma handleKeyInsertMode_session (event : Event) (e e' : Editor) :
  handleKeyInsertMode event e = Ret e' →
  fileName e' = fileName e ∧ theme e' = theme e
  ∧ ScreenDim (screen e') = ScreenDim (screen e)
  ∧ isDirty e' = true ∧ currentMode e' = currentMode e.
Proof.
  unfold handleKeyInsertMode. cbv zeta. intros H.
  assert (Hredraw : ∀ st, syncTextFrame false st = Ret e' →
            fileName st = fileName e → theme st = theme e →
            ScreenDim (screen st) = ScreenDim (screen e) →
            isDirty st = true → currentMode st = currentMode e →
            fileName e' = fileName e ∧ theme e' = theme e
            ∧ ScreenDim (screen e') = ScreenDim (screen e)
            ∧ isDirty e' = true ∧ currentMode e' = currentMode e).
  { intros st Hst Hf Ht Hs Hd Hm.
    apply syncTextFrame_same in Hst as [(Hm' & _ & Hf' & _ & _ & _ & Hd' & Ht' & Hs') _].
    repeat split; congruence. }
  assert (Htyped : (if Rune event =? 0 then mret (set_isDirty true e)
                    else
                      line ← index (dataBuffer (set_isDirty true e))
                                (Y (cursorPos (set_isDirty true e)));
                      before ← slice line 0 (X (cursorPos (set_isDirty true e)));
                      after ← slice line (X (cursorPos (set_isDirty true e))) (len line);
                      buf ← store (dataBuffer (set_isDirty true e))
                              (Y (cursorPos (set_isDirty true e)))
                              (before +:+ encodeRune (Rune event) +:+ after);
                      syncTextFrame false
                        (set_cursorX (X (cursorPos (set_isDirty true e)) + 1)
                           (set_dataBuffer buf (set_isDirty true e)))) = Ret e' →
                   fileName e' = fileName e ∧ theme e' = theme e
                   ∧ ScreenDim (screen e') = ScreenDim (screen e)
                   ∧ isDirty e' = true ∧ currentMode e' = currentMode e).
  { intros Ht. destruct (Rune event =? 0).
    - injection Ht as <-. repeat split.
    - do 4 bind_inv Ht. now apply Hredraw in Ht. }
  destruct (Value event); try (exact (Htyped H)).
  - do 4 bind_inv H. bind_inv H.
    apply fixVerticalCursorOverflow_same in E3
      as (Hm0 & _ & Hf0 & _ & _ & _ & Hd0 & Ht0 & Hs0).
    simpl in *. now apply Hredraw in H.
  - destruct (_ && _); [injection H as <-; repeat split|].
    bind_inv H. apply Hredraw in H; [exact H | | | | |];
      (destruct (_ >? _); [do 4 bind_inv E | do 3 bind_inv E];
       injection E as <-; reflexivity).
  - destruct (_ && _); [injection H as <-; repeat split|].
    bind_inv H. apply Hredraw in H; [exact H | | | | |];
      (destruct (_ >? _); [do 4 bind_inv E | do 3 bind_inv E];
       injection E as <-; reflexivity).
Qed.

(** The mode after a key press is [nextMode]; outside Insert mode a key
    press leaves the file as it is, and in every mode it leaves the file
    name, the theme and the terminal size, and a set dirty flag set. *)
Lemma handleEvent_frame (W : string → list string → option string)
    (event : Event) (e e' : Editor) :
  handleEvent W event e = Ret e' →
  currentMode e' = nextMode event (currentMode e)
  ∧ (currentMode e ≠ MODE_INSERT → sameText e e')
  ∧ sameSession e e'.
Proof.
  assert (Hsess : ∀ a b, sameText a b → sameSession a b).
  { intros a b (Hf & Hb & Hd & Ht & Hs). unfold sameSession.
    repeat split; congruence. }
  unfold handleEvent, nextMode. intros H.
  destruct (negb _).
  { injection H as <-. split; [reflexivity|].
    split; [intros _; apply sameText_refl | apply Hsess, sameText_refl]. }
  destruct (currentMode e) eqn:Hmode.
  - (* Normal *)
    bind_inv H. destruct a as [processed e1].
    assert (Hmove := E). apply handleTextAreaCursorMovement_same in Hmove as [Hs1 Hm1].
    assert (Hproc : processed = isArrow (Value event)).
    { unfold handleTextAreaCursorMovement in E.
      destruct (Value event); simpl;
        repeat match type of E with
               | (if ?c then _ else _) = _ => destruct c
               | mbind _ _ = Ret _ => bind_inv E
               end; now injection E as <- _. }
    rewrite <- Hproc. destruct processed.
    + apply syncCursor_same in H as [H _].
      assert (Hm2 : currentMode e' = currentMode e1) by apply H.
      apply sameDocument_sameText in H.
      assert (Hs := sameText_trans _ _ _ Hs1 H).
      split; [congruence|]. split; [intros _; exact Hs | exact (Hsess _ _ Hs)].
    + apply handleKeyNormalMode_same in H as [Hs2 Hm2].
      assert (Hs := sameText_trans _ _ _ Hs1 Hs2).
      split; [|split; [intros _; exact Hs | exact (Hsess _ _ Hs)]].
      rewrite Hm2, Hm1, Hmode. reflexivity.
  - (* Insert *)
    split; [|split; [intros Hne; now contradiction Hne|]].
    + destruct (bool_decide _).
      * bind_inv H. apply syncCursor_same in H as [(Hm2 & _) _].
        apply fixHorizontalCursorOverflow_same in E as (_ & Hm1 & _).
        destruct (syncStatusBar_same
                    (set_statusMessage "" (set_currentMode MODE_NORMAL e)))
          as (_ & Hm0 & _).
        rewrite Hm2, Hm1, Hm0. reflexivity.
      * bind_inv H. destruct a as [processed e1].
        apply handleTextAreaCursorMovement_same in E as [_ Hm1].
        destruct processed.
        -- apply syncCursor_same in H as [(Hm2 & _) _]. congruence.
        -- apply handleKeyInsertMode_session in H as (_ & _ & _ & _ & Hm2). congruence.
    + destruct (bool_decide _).
      * bind_inv H. apply syncCursor_same in H as [H _].
        apply sameDocument_sameText in H.
        apply fixHorizontalCursorOverflow_same in E as (E & _).
        destruct (syncStatusBar_same
                    (set_statusMessage "" (set_currentMode MODE_NORMAL e)))
          as (Hs0 & _).
        apply Hsess. eapply sameText_trans; [|exact H].
        eapply sameText_trans; [|exact E]. exact Hs0.
      * bind_inv H. destruct a as [processed e1].
        apply handleTextAreaCursorMovement_same in E as [Hs1 _].
        destruct processed.
        -- apply syncCursor_same in H as [H _]. apply sameDocument_sameText in H.
           apply Hsess. eapply sameText_trans; [exact Hs1 | exact H].
        -- apply handleKeyInsertMode_session in H as (Hf & Ht & Hs & Hd & _).
           destruct Hs1 as (Hf1 & _ & _ & Ht1 & Hd1).
           unfold sameSession. repeat split; congruence.
  - (* Command line *)
    destruct (bool_decide (Value event = KeyEscape)).
    { injection H as <-.
      destruct (syncStatusBar_same
                  (set_currentCommand "" (set_currentMode MODE_NORMAL e)))
        as (Hs0 & Hm0 & _).
      split; [exact Hm0|]. split; [intros _; exact Hs0 | exact (Hsess _ _ Hs0)]. }
    bind_inv H. apply handleKeyCommandLineMode_same in H as (Hs2 & Hm2 & _).
    destruct (bool_decide (Value event = KeyEnter)).
    + apply runCommand_same in E as (Hs1 & Hm1 & _).
      assert (Hs := sameText_trans _ _ _ Hs1 Hs2).
      split; [simpl; congruence|]. split; [intros _; exact Hs | exact (Hsess _ _ Hs)].
    + injection E as <-.
      split; [simpl; congruence|]. split; [intros _; exact Hs2 | exact (Hsess _ _ Hs2)].
Qed.

(** X7. Outside Insert mode no key press edits: the lines, the dirty flag,
    the file name, the theme and the terminal size are after the key
    press what they were before it. *)
Theorem only_insert_mode_edits (W : string → list string → option string)
    (event : Event) (e e' : Editor) :
  currentMode e ≠ MODE_INSERT →
  handleEvent W event e = Ret e' →
  dataBuffer e' = dataBuffer e ∧ isDirty e' = isDirty e
  ∧ fileName e' = fileName e ∧ theme e' = theme e
  ∧ ScreenDim (screen e') = ScreenDim (screen e).
Proof.
  intros Hm H. apply handleEvent_frame in H as (_ & Hs & _).
  destruct (Hs Hm) as (Hf & Hb & Hd & Ht & Hdim). repeat split; assumption.
Qed.

Lemma only_insert_mode_edits_witness :
  ∃ e', handleEvent saveOk (typed 71) (normalEditor ["ab"; "cd"; "ef"]%string 1 0) = Ret e'
        ∧ dataBuffer e' = ["ab"; "cd"; "ef"]%string ∧ isDirty e' = false.
Proof.
  eexists. split; [vm_compute; reflexivity|].
  destruct (only_insert_mode_edits saveOk (typed 71)
              (normalEditor ["ab"; "cd"; "ef"]%string 1 0) _
              ltac:(discriminate) ltac:(vm_compute; reflexivity)) as (Hb & Hd & _).
  split; [exact Hb | exact Hd].
Defined.

(** X8. The mode after a key press depends on the mode before and on the key
    alone: Escape leads from Insert and Command-line mode to Normal mode,
    Enter from Command-line mode to Normal mode, and from Normal mode
    [:] leads to Command-line mode and [i] and [A] to Insert mode, unless
    the key is an arrow.  No key leads from Insert mode to Command-line
    mode or back. *)
Theorem mode_after_key_press (W : string → list string → option string)
    (event : Event) (e e' : Editor) :
  handleEvent W event e = Ret e' →
  currentMode e' = nextMode event (currentMode e)
  ∧ (currentMode e = MODE_INSERT → currentMode e' ≠ MODE_COMMAND_LINE)
  ∧ (currentMode e = MODE_COMMAND_LINE → currentMode e' ≠ MODE_INSERT).
Proof.
  intros H. apply handleEvent_frame in H as (Hm & _). split; [exact Hm|].
  rewrite Hm. unfold nextMode.
  split; intros ->; destruct (negb _); try discriminate;
    repeat match goal with
           | |- context [if ?c then _ else _] => destruct c
           end; discriminate.
Qed.

Lemma mode_after_key_press_witness :
  ∃ e', handleEvent saveOk (typed 58) (normalEditor ["ab"; "cd"]%string 1 0) = Ret e'
        ∧ currentMode e' = MODE_COMMAND_LINE.
Proof.
  eexists. split; [vm_compute; reflexivity|].
  exact (proj1 (mode_after_key_press saveOk (typed 58)
                  (normalEditor ["ab"; "cd"]%string 1 0) _
                  ltac:(vm_compute; reflexivity))).
Defined.

Lemma sameSession_refl (e : Editor) : sameSession e e.
Proof. unfold sameSession. repeat split. auto. Qed.

Lemma sameSession_trans (e1 e2 e3 : Editor) :
  sameSession e1 e2 → sameSession e2 e3 → sameSession e1 e3.
Proof.
  unfold sameSession. intros (?&?&?&?) (?&?&?&?). repeat split; try congruence. auto.
Qed.

Lemma handleEvents_session (W : string → list string → option string)
    (events : list Event) : ∀ e e' : Editor,
  handleEvents W events e = Ret e' → sameSession e e'.
Proof.
  induction events as [|event rest IH]; intros e e' H.
  - injection H as <-. apply sameSession_refl.
  - simpl in H. bind_inv H. apply handleEvent_frame in E as (_ & _ & Hs).
    apply IH in H. exact (sameSession_trans _ _ _ Hs H).
Qed.

(** X9. Over a whole session the file name, the theme and the terminal size
    stay, and the dirty flag, once set, is never cleared. *)
Theorem session_never_clears_dirty_flag
    (W : string → list string → option string) (events : list Event)
    (e e' : Editor) :
  handleEvents W events e = Ret e' →
  fileName e' = fileName e ∧ theme e' = theme e
  ∧ ScreenDim (screen e') = ScreenDim (screen e)
  ∧ (isDirty e = true → isDirty e' = true).
Proof.
  revert e. induction events as [|event rest IH]; intros e H.
  - injection H as <-. apply sameSession_refl.
  - simpl in H. bind_inv H. apply handleEvent_frame in E as (_ & _ & Hs).
    apply IH in H. exact (sameSession_trans _ _ _ Hs H).
Qed.

Lemma session_never_clears_dirty_flag_witness :
  ∃ e', handleEvents saveOk [press KeyEscape; typed 58; typed 119; enterKey]
          (set_isDirty true (insertEditor ["ab"; "cd"]%string 1 0)) = Ret e'
        ∧ fileName e' = "f.txt"%string ∧ isDirty e' = true.
Proof.
  eexists. split; [vm_compute; reflexivity|].
  destruct (session_never_clears_dirty_flag saveOk
              [press KeyEscape; typed 58; typed 119; enterKey]
              (set_isDirty true (insertEditor ["ab"; "cd"]%string 1 0)) _
              ltac:(vm_compute; reflexivity)) as (Hf & _ & _ & Hd).
  split; [exact Hf | exact (Hd eq_refl)].
Defined.

(** *** The cursor stays on a row of the buffer *)

Lemma cursorOnRow_ext (e e' : Editor) :
  dataBuffer e' = dataBuffer e → cursorPos e' = cursorPos e →
  cursorOnRow e → cursorOnRow e'.
Proof. unfold cursorOnRow, getLinesCount. now intros -> ->. Qed.

Lemma cursorOnRow_same (e e' : Editor) :
  sameDocument e e' → cursorOnRow e → cursorOnRow e'.
Proof. intros (_ & _ & _ & Hb & Hc & _). now apply cursorOnRow_ext. Qed.

Lemma len_nonneg (s : string) : 0 <= len s.
Proof. unfold len. lia. Qed.

Lemma colLimit_range (m : mode) (line : string) : 0 <= colLimit m line <= len line.
Proof.
  assert (H := len_nonneg line). unfold colLimit.
  destruct m; try lia; destruct (Z.ltb_spec (len line - 1) 0); lia.
Qed.

Lemma fixHorizontalCursorOverflow_onRow (e e' : Editor) :
  fixHorizontalCursorOverflow e = Ret e' → cursorOnRow e → cursorOnRow e'.
Proof.
  intros H Hc. apply fixHorizontalCursorOverflow_spec in H
    as (line & _ & _ & [[_ ->]|[_ ->]]); [exact Hc|].
  destruct Hc as (Hn & Hy & Hx). unfold cursorOnRow, getLinesCount in *. simpl.
  repeat split; try lia. apply colLimit_range.
Qed.

Lemma handleTextAreaCursorMovement_onRow (event : Event) (e e' : Editor) (b : bool) :
  handleTextAreaCursorMovement event e = Ret (b, e') →
  cursorOnRow e → cursorOnRow e'.
Proof.
  unfold handleTextAreaCursorMovement. intros H Hc.
  assert (Hc' := Hc). destruct Hc' as (Hn & Hy & Hx).
  destruct (Value event); try (injection H as _ <-; exact Hc).
  - destruct (Z.eqb_spec (X (cursorPos e)) 0); simpl in H;
      [injection H as _ <-; exact Hc|].
    bind_inv H. injection H as _ <-. apply syncCursor_same in E as [E _].
    apply (cursorOnRow_same _ _ E).
    unfold cursorOnRow, getLinesCount in *. simpl. lia.
  - bind_inv H. bind_inv H. injection H as _ <-.
    apply syncCursor_same in E0 as [E0 _]. apply (cursorOnRow_same _ _ E0).
    apply (fixHorizontalCursorOverflow_onRow _ _ E).
    unfold cursorOnRow, getLinesCount in *. simpl. lia.
  - destruct (Z.eqb_spec (Y (cursorPos e)) 0); simpl in H;
      [injection H as _ <-; exact Hc|].
    bind_inv H. bind_inv H. injection H as _ <-.
    apply syncCursor_same in E0 as [E0 _]. apply (cursorOnRow_same _ _ E0).
    apply fixHorizontalCursorOverflow_onRow in E;
      [|unfold cursorOnRow, getLinesCount in *; simpl; lia].
    destruct (_ <? _); [destruct (_ >? _)|]; exact E.
  - destruct (Z.eqb_spec (Y (cursorPos e) + 1) (getLinesCount e)); simpl in H;
      [injection H as _ <-; exact Hc|].
    bind_inv H. bind_inv H. bind_inv H. injection H as _ <-.
    apply syncCursor_same in E1 as [E1 _]. apply (cursorOnRow_same _ _ E1).
    apply fixVerticalCursorOverflow_same in E0. apply (cursorOnRow_same _ _ E0).
    apply (fixHorizontalCursorOverflow_onRow _ _ E).
    unfold cursorOnRow, getLinesCount in *. simpl. lia.
Qed.

Lemma handleKeyNormalMode_onRow (event : Event) (e e' : Editor) :
  handleKeyNormalMode event e = Ret e' → cursorOnRow e → cursorOnRow e'.
Proof.
  unfold handleKeyNormalMode, switchToInsertMode. intros H Hc.
  assert (Hc' := Hc). destruct Hc' as (Hn & Hy & Hx).
  destruct (Rune event =? 58).
  { apply handleKeyCommandLineMode_same in H as ((_ & Hb & _) & _ & Hcur).
    now apply (cursorOnRow_ext e). }
  destruct (Rune event =? 105).
  { injection H as <-.
    destruct (syncStatusBar_same
                (set_statusMessage "-- INSERT --" (set_currentMode MODE_INSERT e)))
      as ((_ & Hb & _) & _ & Hcur & _).
    now apply (cursorOnRow_ext e). }
  destruct (Rune event =? 65).
  { bind_inv H. apply syncCursor_same in H as [H _]. apply (cursorOnRow_same _ _ H).
    destruct (syncStatusBar_same
                (set_statusMessage "-- INSERT --"
                   (set_currentMode MODE_INSERT (set_cursorX a e))))
      as ((_ & Hb & _) & _ & Hcur & _).
    unfold getCurrentLineLength in E. bind_inv E. injection E as <-.
    unfold cursorOnRow, getLinesCount in *. rewrite Hb, Hcur. simpl.
    assert (Hl := len_nonneg a0). lia. }
  destruct (Rune event =? 71).
  { bind_inv H. apply syncTextFrame_same in H as [H _]. apply (cursorOnRow_same _ _ H).
    apply fixVerticalCursorOverflow_same in E. apply (cursorOnRow_same _ _ E).
    unfold cursorOnRow, getLinesCount in *. simpl.
    destruct (Z.ltb_spec (lenS (dataBuffer e) - 1) 0); lia. }
  injection H as <-. exact Hc.
Qed.

Lemma runCommand_onRow (W : string → list string → option string)
    (cmdFull : string) (e e' : Editor) :
  runCommand W cmdFull e = Ret e' → cursorOnRow e → cursorOnRow e'.
Proof.
  unfold runCommand. intros H Hc. assert (Hc' := Hc). destruct Hc' as (Hn & Hy & Hx).
  bind_inv H. bind_inv H. injection H as <-.
  destruct (syncStatusBar_same (set_currentCommand "" a0))
    as ((_ & Hb & _) & _ & Hcur & _).
  apply (cursorOnRow_ext a0); [exact Hb | exact Hcur|]. clear Hb Hcur.
  destruct (Atoi a).
  - bind_inv E0. apply syncTextFrame_same in E0 as [E0 _].
    apply (cursorOnRow_same _ _ E0).
    apply fixVerticalCursorOverflow_same in E1. apply (cursorOnRow_same _ _ E1).
    unfold cursorOnRow, getLinesCount in *. simpl.
    destruct (Z.gtb_spec z (lenS (dataBuffer e)));
      match goal with
      | |- context [if ?c <? 1 then _ else _] => destruct (Z.ltb_spec c 1)
      end; lia.
  - unfold quit in E0.
    repeat match type of E0 with
           | (if ?c then _ else _) = _ => destruct c
           end; try discriminate E0; injection E0 as <-; exact Hc.
Qed.

Lemma store_length {A : Type} (l l' : list A) (i : Z) (v : A) :
  store l i v = Ret l' → length l' = length l.
Proof. intros H. apply store_inv in H as [_ ->]. apply length_insert. Qed.

Lemma shiftLoop_length (cy : Z) : ∀ (i : nat) (nb nb' : list string),
  shiftLoop i cy nb = Ret nb' → length nb' = length nb.
Proof.
  induction i as [|i IH]; intros nb nb' H; simpl in H.
  - destruct (0 >? cy); [discriminate | now injection H as <-].
  - destruct (_ >? _); [|now injection H as <-].
    bind_inv H. bind_inv H. apply IH in H. apply store_length in E0. congruence.
Qed.

Lemma mergeLoop_length (e : Editor) : ∀ (lines : list string) (i j : Z)
    (nb nb' : list string),
  mergeLoop e lines i j nb = Ret nb' → length nb' = length nb.
Proof.
  induction lines as [|line rest IH]; intros i j nb nb' H; simpl in H.
  - now injection H as <-.
  - destruct (_ =? _); [now apply IH in H|].
    bind_inv H. bind_inv H. apply IH in H. apply store_length in E0. congruence.
Qed.

Lemma make_length {A : Type} (z : A) (n : Z) (l : list A) :
  make z n = Ret l → 0 <= n ∧ lenS l = n.
Proof.
  unfold make. destruct (Z.ltb_spec n 0); [discriminate|]. intros [= <-].
  unfold lenS. rewrite length_replicate. lia.
Qed.

Lemma copy_length {A : Type} (dst src : list A) :
  (length src <= length dst)%nat → length (copy dst src) = length dst.
Proof.
  intros H. unfold copy. rewrite length_app, length_take, length_drop. lia.
Qed.

Lemma handleKeyInsertMode_onRow (event : Event) (e e' : Editor) :
  handleKeyInsertMode event e = Ret e' → cursorOnRow e → cursorOnRow e'.
Proof.
  unfold handleKeyInsertMode. cbv zeta.
  change (cursorPos (set_isDirty true e)) with (cursorPos e).
  change (dataBuffer (set_isDirty true e)) with (dataBuffer e).
  change (getLinesCount (set_isDirty true e)) with (getLinesCount e).
  intros H Hc. assert (Hc' := Hc). destruct Hc' as (Hn & Hy & Hx).
  assert (Htyped : (if Rune event =? 0 then mret (set_isDirty true e)
                    else
                      line ← index (dataBuffer e) (Y (cursorPos e));
                      before ← slice line 0 (X (cursorPos e));
                      after ← slice line (X (cursorPos e)) (len line);
                      buf ← store (dataBuffer e) (Y (cursorPos e))
                              (before +:+ encodeRune (Rune event) +:+ after);
                      syncTextFrame false
                        (set_cursorX (X (cursorPos e) + 1)
                           (set_dataBuffer buf (set_isDirty true e)))) = Ret e' →
                   cursorOnRow e').
  { intros Ht. destruct (Rune event =? 0); [injection Ht as <-; exact Hc|].
    do 4 bind_inv Ht. apply syncTextFrame_same in Ht as [Ht _].
    apply (cursorOnRow_same _ _ Ht). apply store_length in E2.
    unfold cursorOnRow, getLinesCount, lenS in *. simpl. rewrite E2. lia. }
  destruct (Value event); try (exact (Htyped H)).
  - (* Enter *)
    bind_inv H. apply make_length in E as [_ Hmake].
    assert (Hcopy : length (copy a (dataBuffer e)) = length a)
      by (apply copy_length; unfold getLinesCount, lenS in *; lia).
    bind_inv H.
    assert (Ha0 : length a0 = length a).
    { destruct (Y (cursorPos e) <? getLinesCount e - 1);
        [apply shiftLoop_length in E | injection E as <-]; congruence. }
    bind_inv H. bind_inv H.
    assert (Ha2 : length a2 = length a).
    { destruct (X (cursorPos e) <? a1); [|injection E1 as <-; congruence].
      do 4 bind_inv E1. apply store_length in E1, E4. congruence. }
    bind_inv H. apply syncTextFrame_same in H as [H _]. apply (cursorOnRow_same _ _ H).
    apply fixVerticalCursorOverflow_same in E2. apply (cursorOnRow_same _ _ E2).
    unfold cursorOnRow, getLinesCount, lenS in *. simpl. rewrite Ha2. lia.
  - (* Backspace *)
    destruct (_ && _) eqn:Hzero; [injection H as <-; exact Hc|].
    bind_inv H. apply syncTextFrame_same in H as [H _]. apply (cursorOnRow_same _ _ H).
    destruct (Z.gtb_spec (X (cursorPos e)) 0).
    + do 4 bind_inv E. injection E as <-. apply store_length in E3.
      unfold cursorOnRow, getLinesCount, lenS in *. simpl. rewrite E3. lia.
    + do 3 bind_inv E. injection E as <-.
      apply make_length in E0 as [Hm Hmake]. apply mergeLoop_length in E1.
      apply andb_false_iff in Hzero.
      assert (Y (cursorPos e) ≠ 0) by (destruct Hzero as [Hz|Hz]; lia).
      unfold cursorOnRow, getLinesCount, lenS in *. simpl. rewrite E1.
      assert (Hl := len_nonneg a2). lia.
  - (* Backspace2 *)
    destruct (_ && _) eqn:Hzero; [injection H as <-; exact Hc|].
    bind_inv H. apply syncTextFrame_same in H as [H _]. apply (cursorOnRow_same _ _ H).
    destruct (Z.gtb_spec (X (cursorPos e)) 0).
    + do 4 bind_inv E. injection E as <-. apply store_length in E3.
      unfold cursorOnRow, getLinesCount, lenS in *. simpl. rewrite E3. lia.
    + do 3 bind_inv E. injection E as <-.
      apply make_length in E0 as [Hm Hmake]. apply mergeLoop_length in E1.
      apply andb_false_iff in Hzero.
      assert (Y (cursorPos e) ≠ 0) by (destruct Hzero as [Hz|Hz]; lia).
      unfold cursorOnRow, getLinesCount, lenS in *. simpl. rewrite E1.
      assert (Hl := len_nonneg a2). lia.
Qed.

Lemma handleEvent_onRow (W : string → list string → option string)
    (event : Event) (e e' : Editor) :
  handleEvent W event e = Ret e' → cursorOnRow e → cursorOnRow e'.
Proof.
  unfold handleEvent. intros H Hc.
  destruct (negb _); [injection H as <-; exact Hc|].
  destruct (currentMode e).
  - bind_inv H. destruct a as [processed e1].
    apply handleTextAreaCursorMovement_onRow in E; [|exact Hc].
    destruct processed.
    + apply syncCursor_same in H as [H _]. now apply (cursorOnRow_same _ _ H).
    + now apply handleKeyNormalMode_onRow in H.
  - destruct (bool_decide _).
    + bind_inv H. apply syncCursor_same in H as [H _]. apply (cursorOnRow_same _ _ H).
      apply (fixHorizontalCursorOverflow_onRow _ _ E).
      destruct (syncStatusBar_same
                  (set_statusMessage "" (set_currentMode MODE_NORMAL e)))
        as ((_ & Hb & _) & _ & Hcur & _).
      now apply (cursorOnRow_ext e).
    + bind_inv H. destruct a as [processed e1].
      apply handleTextAreaCursorMovement_onRow in E; [|exact Hc].
      destruct processed.
      * apply syncCursor_same in H as [H _]. now apply (cursorOnRow_same _ _ H).
      * now apply handleKeyInsertMode_onRow in H.
  - destruct (bool_decide (Value event = KeyEscape)).
    { injection H as <-.
      destruct (syncStatusBar_same
                  (set_currentCommand "" (set_currentMode MODE_NORMAL e)))
        as ((_ & Hb & _) & _ & Hcur & _).
      now apply (cursorOnRow_ext e). }
    bind_inv H. apply handleKeyCommandLineMode_same in H as ((_ & Hb & _) & _ & Hcur).
    apply (cursorOnRow_ext a); [exact Hb | exact Hcur|].
    destruct (bool_decide _); [now apply runCommand_onRow in E | now injection E as <-].
Qed.

Lemma handleEvents_onRow (W : string → list string → option string)
    (events : list Event) : ∀ e e' : Editor,
  cursorOnRow e → handleEvents W events e = Ret e' → cursorOnRow e'.
Proof.
  induction events as [|event rest IH]; intros e e' Hc H.
  - now injection H as <-.
  - simpl in H. bind_inv H. apply handleEvent_onRow in E; [|exact Hc].
    now apply (IH a).
Qed.

(** X10. Through a whole session the buffer keeps at least one line, the
    cursor's row is the index of a line of the buffer and its column is
    not negative, whatever the keys. *)
Theorem cursor_stays_on_a_row (W : string → list string → option string)
    (events : list Event) (e e' : Editor) :
  cursorOnRow e → handleEvents W events e = Ret e' → cursorOnRow e'.
Proof.
  revert e. induction events as [|event rest IH]; intros e Hc H.
  - now injection H as <-.
  - simpl in H. bind_inv H. apply handleEvent_onRow in E; [|exact Hc].
    now apply (IH a).
Qed.

Lemma cursor_stays_on_a_row_witness :
  ∃ e', handleEvents saveOk [backspaceKey; enterKey; press KeyEscape; typed 71]
          (insertEditor ["ab"; "cd"]%string 0 1) = Ret e'
        ∧ cursorOnRow e'.
Proof.
  eexists. split; [vm_compute; reflexivity|].
  apply (cursor_stays_on_a_row saveOk
           [backspaceKey; enterKey; press KeyEscape; typed 71]
           (insertEditor ["ab"; "cd"]%string 0 1)).
  - unfold cursorOnRow, getLinesCount, lenS. simpl. lia.
  - vm_compute. reflexivity.
Defined.

(** *** Arrow keys *)

Lemma fixHorizontalCursorOverflow_Ret (e : Editor) (line : string) :
  0 <= Y (cursorPos e) → dataBuffer e !! Z.to_nat (Y (cursorPos e)) = Some line →
  ∃ e', fixHorizontalCursorOverflow e = Ret e'.
Proof.
  intros Hy Hline. unfold fixHorizontalCursorOverflow, getCurrentLineLength.
  rewrite (index_Ret _ _ _ Hy Hline), !bind_Ret.
  destruct (currentMode e); destruct (_ <? X (cursorPos e)); eauto.
Qed.

(** The cursor after [fixHorizontalCursorOverflow]: the column is the
    smaller of the column before and the limit of the mode. *)
Lemma fixHorizontalCursorOverflow_cursor (e e' : Editor) (line : string) :
  dataBuffer e !! Z.to_nat (Y (cursorPos e)) = Some line →
  fixHorizontalCursorOverflow e = Ret e' →
  cursorPos e'
  = mkVertex (Z.min (X (cursorPos e)) (colLimit (currentMode e) line))
      (Y (cursorPos e)).
Proof.
  intros Hline H. apply fixHorizontalCursorOverflow_spec in H
    as (line' & _ & Hline' & Hcase).
  assert (line' = line) as -> by congruence.
  destruct Hcase as [[Hle ->]|[Hlt ->]].
  - rewrite Z.min_l by exact Hle. now destruct (cursorPos e).
  - rewrite Z.min_r by lia. reflexivity.
Qed.

Lemma syncCursor_narrow (e : Editor) :
  1 <= dimX e → 2 <= dimY e → narrow (dimX e) (dataBuffer e) →
  0 <= firstLineInFrame e < getLinesCount e →
  Y (cursorPos e) < getLinesCount e →
  ∃ e', syncCursor e = Ret e'.
Proof.
  intros HW HH Hn Hfirst Hcy. unfold syncCursor.
  destruct (cursorPosScreen_Ret e HW (proj1 Hfirst) Hcy) as [v ->].
  destruct (drawTextFrame_Ret e HW HH Hfirst (narrow_unwrapped _ _ Hn)) as [e1 ->].
  simpl. eauto.
Qed.

(** Two cursor syncs in a row, as after an arrow key. *)
Lemma syncCursor_twice_narrow (e : Editor) :
  1 <= dimX e → 2 <= dimY e → narrow (dimX e) (dataBuffer e) →
  0 <= firstLineInFrame e < getLinesCount e →
  Y (cursorPos e) < getLinesCount e →
  ∃ e', (e1 ← syncCursor e; syncCursor e1) = Ret e'.
Proof.
  intros HW HH Hn Hfirst Hcy.
  destruct (syncCursor_narrow e HW HH Hn Hfirst Hcy) as [e1 He1].
  rewrite He1, bind_Ret.
  apply syncCursor_same in He1 as [(_ & _ & _ & Hb & Hc & _ & _ & _ & Hd) Hf].
  apply syncCursor_narrow; unfold dimX, dimY, getLinesCount in *;
    rewrite ?Hd, ?Hb, ?Hc, ?Hf; assumption.
Qed.

Lemma handleEvent_right (W : string → list string → option string)
    (event : Event) (e : Editor) :
  Kind event = KEY_PRESS → Value event = KeyRight →
  currentMode e ≠ MODE_COMMAND_LINE →
  handleEvent W event e
  = (e1 ← fixHorizontalCursorOverflow (set_cursorX (X (cursorPos e) + 1) e);
     e2 ← syncCursor e1; syncCursor e2).
Proof.
  intros Hk Hv Hm. unfold handleEvent, handleTextAreaCursorMovement.
  rewrite Hk, Hv. simpl negb. cbv iota.
  destruct (currentMode e); [| |contradiction]; simpl;
    destruct (fixHorizontalCursorOverflow _); simpl; try reflexivity;
    destruct (syncCursor _); reflexivity.
Qed.

(** X11. The right arrow in Normal and Insert mode moves the cursor one column
    to the right, and no further than the limit of the mode on the
    cursor's line: the length of the line in Insert mode, its last
    character in Normal mode.  Row, lines and mode stay.  On narrow lines
    with the window starting on a line of the buffer the key press
    returns. *)
Theorem right_arrow_stops_at_line_limit
    (W : string → list string → option string) (event : Event) (e : Editor)
    (line : string) :
  Kind event = KEY_PRESS → Value event = KeyRight →
  currentMode e ≠ MODE_COMMAND_LINE →
  0 <= Y (cursorPos e) →
  dataBuffer e !! Z.to_nat (Y (cursorPos e)) = Some line →
  (∀ e', handleEvent W event e = Ret e' →
     cursorPos e'
     = mkVertex (Z.min (X (cursorPos e) + 1) (colLimit (currentMode e) line))
         (Y (cursorPos e))
     ∧ dataBuffer e' = dataBuffer e ∧ currentMode e' = currentMode e)
  ∧ (1 <= dimX e → 2 <= dimY e → narrow (dimX e) (dataBuffer e) →
     0 <= firstLineInFrame e < getLinesCount e →
     ∃ e', handleEvent W event e = Ret e').
Proof.
  intros Hk Hv Hm Hy Hline. rewrite (handleEvent_right W event e Hk Hv Hm). split.
  - intros e' H. bind_inv H. bind_inv H.
    apply syncCursor_same in E0 as [(Hm1 & _ & _ & Hb1 & Hc1 & _) _].
    apply syncCursor_same in H as [(Hm2 & _ & _ & Hb2 & Hc2 & _) _].
    assert (Hcur := fixHorizontalCursorOverflow_cursor
                      (set_cursorX (X (cursorPos e) + 1) e) _ line Hline E).
    apply fixHorizontalCursorOverflow_same in E as ((_ & Hb0 & _) & Hm0 & _).
    simpl in *. repeat split; congruence.
  - intros HW HH Hn Hfirst.
    destruct (fixHorizontalCursorOverflow_Ret (set_cursorX (X (cursorPos e) + 1) e) line
                Hy Hline) as [e1 He1].
    rewrite He1, bind_Ret.
    assert (Hlt : Y (cursorPos e) < getLinesCount e).
    { apply lookup_lt_Some in Hline. unfold getLinesCount, lenS. lia. }
    apply fixHorizontalCursorOverflow_same in He1
      as ((_ & Hb & _ & _ & Hd) & _ & Hcy & Hf).
    simpl in *.
    apply syncCursor_twice_narrow; unfold dimX, dimY, getLinesCount in *;
      rewrite ?Hd, ?Hb, ?Hcy, ?Hf; assumption.
Qed.

Lemma right_arrow_stops_at_line_limit_witness :
  ∃ e', handleEvent saveOk (press KeyRight) (normalEditor ["hello"; "ab"]%string 4 0)
        = Ret e'
        ∧ cursorPos e' = mkVertex 4 0.
Proof.
  destruct (right_arrow_stops_at_line_limit saveOk (press KeyRight)
              (normalEditor ["hello"; "ab"]%string 4 0) "hello"
              eq_refl eq_refl ltac:(discriminate) ltac:(simpl; lia) eq_refl)
    as (Hstate & Hret).
  destruct Hret as [e' He'].
  - unfold dimX. simpl. lia.
  - unfold dimY. simpl. lia.
  - repeat constructor.
  - simpl. unfold getLinesCount, lenS. simpl. lia.
  - exists e'. split; [exact He'|]. exact (proj1 (Hstate e' He')).
Defined.

Lemma handleEvent_down (W : string → list string → option string)
    (event : Event) (e : Editor) :
  Kind event = KEY_PRESS → Value event = KeyDown →
  currentMode e ≠ MODE_COMMAND_LINE →
  Y (cursorPos e) + 1 ≠ getLinesCount e →
  handleEvent W event e
  = (e2 ← fixHorizontalCursorOverflow
            (set_lastUpDownCursorMovement CURSOR_DOWN
               (set_cursorY (Y (cursorPos e) + 1) e));
     e3 ← fixVerticalCursorOverflow e2;
     e4 ← syncCursor e3; syncCursor e4).
Proof.
  intros Hk Hv Hm Hlast. unfold handleEvent, handleTextAreaCursorMovement.
  rewrite Hk, Hv. simpl negb. cbv iota.
  destruct (Z.eqb_spec (Y (cursorPos e) + 1) (getLinesCount e)); [contradiction|].
  destruct (currentMode e); [| |contradiction]; simpl;
    destruct (fixHorizontalCursorOverflow _); simpl; try reflexivity;
    destruct (fixVerticalCursorOverflow _); simpl; try reflexivity;
    destruct (syncCursor _); reflexivity.
Qed.

(** X12. The down arrow in Normal and Insert mode, away from the last line,
    moves the cursor one row down and brings the column back to the limit
    of the mode on the new line when it is beyond.  Lines and mode stay.
    On narrow lines with the window starting on a line of the buffer the
    key press returns. *)
Theorem down_arrow_moves_one_row_and_clamps_column
    (W : string → list string → option string) (event : Event) (e : Editor)
    (line : string) :
  Kind event = KEY_PRESS → Value event = KeyDown →
  currentMode e ≠ MODE_COMMAND_LINE →
  0 <= Y (cursorPos e) →
  dataBuffer e !! Z.to_nat (Y (cursorPos e) + 1) = Some line →
  (∀ e', handleEvent W event e = Ret e' →
     cursorPos e'
     = mkVertex (Z.min (X (cursorPos e)) (colLimit (currentMode e) line))
         (Y (cursorPos e) + 1)
     ∧ dataBuffer e' = dataBuffer e ∧ currentMode e' = currentMode e)
  ∧ (1 <= dimX e → 2 <= dimY e → narrow (dimX e) (dataBuffer e) →
     0 <= firstLineInFrame e < getLinesCount e →
     ∃ e', handleEvent W event e = Ret e').
Proof.
  intros Hk Hv Hm Hy Hline.
  assert (Hlt : Y (cursorPos e) + 1 < getLinesCount e).
  { apply lookup_lt_Some in Hline. unfold getLinesCount, lenS. lia. }
  rewrite (handleEvent_down W event e Hk Hv Hm ltac:(lia)).
  set (e1 := set_lastUpDownCursorMovement CURSOR_DOWN
               (set_cursorY (Y (cursorPos e) + 1) e)).
  split.
  - intros e' H. do 3 bind_inv H.
    assert (Hcur := fixHorizontalCursorOverflow_cursor e1 _ line Hline E).
    apply fixHorizontalCursorOverflow_same in E as ((_ & Hb0 & _) & Hm0 & _).
    apply fixVerticalCursorOverflow_same in E0 as (Hm1 & _ & _ & Hb1 & Hc1 & _).
    apply syncCursor_same in E1 as [(Hm2 & _ & _ & Hb2 & Hc2 & _) _].
    apply syncCursor_same in H as [(Hm3 & _ & _ & Hb3 & Hc3 & _) _].
    simpl in *. repeat split; congruence.
  - intros HW HH Hn Hfirst.
    destruct (fixHorizontalCursorOverflow_Ret e1 line ltac:(simpl; lia) Hline)
      as [e2 He2].
    rewrite He2, bind_Ret.
    apply fixHorizontalCursorOverflow_same in He2
      as ((_ & Hb & _ & _ & Hd) & _ & Hcy & Hf).
    simpl in Hb, Hd, Hcy, Hf.
    destruct (advanceFrame_narrow
                (S (Z.to_nat (Y (cursorPos e2) - lastLineInFrame e2))) e2)
      as (e3 & He3 & Hf3);
      try (unfold dimX, dimY, getLinesCount in *; rewrite ?Hd, ?Hb, ?Hf; assumption);
      [lia|].
    change (advanceFrame _ e2) with (fixVerticalCursorOverflow e2) in He3.
    rewrite He3, bind_Ret.
    apply fixVerticalCursorOverflow_same in He3
      as (_ & _ & _ & Hb3 & Hc3 & _ & _ & _ & Hd3).
    apply syncCursor_twice_narrow; unfold dimX, dimY, getLinesCount in *;
      rewrite ?Hd3, ?Hb3, ?Hc3, ?Hd, ?Hb, ?Hcy; try assumption.
    rewrite Hb3, Hb in Hf3. exact Hf3.
Qed.

Lemma down_arrow_moves_one_row_and_clamps_column_witness :
  ∃ e', handleEvent saveOk (press KeyDown) (normalEditor ["hello"; "ab"]%string 4 0)
        = Ret e'
        ∧ cursorPos e' = mkVertex 1 1.
Proof.
  destruct (down_arrow_moves_one_row_and_clamps_column saveOk (press KeyDown)
              (normalEditor ["hello"; "ab"]%string 4 0) "ab"
              eq_refl eq_refl ltac:(discriminate) ltac:(simpl; lia) eq_refl)
    as (Hstate & Hret).
  destruct Hret as [e' He'].
  - unfold dimX. simpl. lia.
  - unfold dimY. simpl. lia.
  - repeat constructor.
  - simpl. unfold getLinesCount, lenS. simpl. lia.
  - exists e'. split; [exact He'|]. exact (proj1 (Hstate e' He')).
Defined.

Lemma handleEvent_up (W : string → list string → option string)
    (event : Event) (e : Editor) :
  Kind event = KEY_PRESS → Value event = KeyUp →
  currentMode e ≠ MODE_COMMAND_LINE →
  Y (cursorPos e) ≠ 0 →
  handleEvent W event e
  = (e2 ← fixHorizontalCursorOverflow
            (set_lastUpDownCursorMovement CURSOR_UP
               (set_cursorY (Y (cursorPos e) - 1) e));
     e4 ← syncCursor
            (if Y (cursorPos e2) <? firstLineInFrame e2 then
               let e' := set_firstLineInFrame (firstLineInFrame e2 - 1) e2 in
               if lastLineInFrame e' - firstLineInFrame e' >? dimY e' - 1
               then set_lastLineInFrame (lastLineInFrame e' - 1) e' else e'
             else e2);
     syncCursor e4).
Proof.
  intros Hk Hv Hm Hfirst. unfold handleEvent, handleTextAreaCursorMovement.
  rewrite Hk, Hv. simpl negb. cbv iota.
  destruct (Z.eqb_spec (Y (cursorPos e)) 0); [contradiction|].
  destruct (currentMode e); [| |contradiction]; simpl;
    destruct (fixHorizontalCursorOverflow _); simpl; try reflexivity;
    destruct (syncCursor _); reflexivity.
Qed.

(** X13. The up arrow in Normal and Insert mode, away from the first line,
    moves the cursor one row up and brings the column back to the limit of
    the mode on the new line when it is beyond; the window start follows
    the cursor: it moves up by one line when the cursor leaves the window
    at the top, so a window that started at or above the cursor's row
    still does.  Lines and mode stay. *)
Theorem up_arrow_moves_one_row_and_window_follows
    (W : string → list string → option string) (event : Event) (e : Editor)
    (line : string) :
  Kind event = KEY_PRESS → Value event = KeyUp →
  currentMode e ≠ MODE_COMMAND_LINE →
  1 <= Y (cursorPos e) →
  dataBuffer e !! Z.to_nat (Y (cursorPos e) - 1) = Some line →
  (∀ e', handleEvent W event e = Ret e' →
     cursorPos e'
     = mkVertex (Z.min (X (cursorPos e)) (colLimit (currentMode e) line))
         (Y (cursorPos e) - 1)
     ∧ dataBuffer e' = dataBuffer e ∧ currentMode e' = currentMode e
     ∧ firstLineInFrame e'
       = (if Y (cursorPos e) - 1 <? firstLineInFrame e
          then firstLineInFrame e - 1 else firstLineInFrame e)
     ∧ (firstLineInFrame e <= Y (cursorPos e) →
        firstLineInFrame e' <= Y (cursorPos e')))
  ∧ (1 <= dimX e → 2 <= dimY e → narrow (dimX e) (dataBuffer e) →
     0 <= firstLineInFrame e <= Y (cursorPos e) →
     ∃ e', handleEvent W event e = Ret e').
Proof.
  intros Hk Hv Hm Hy Hline.
  rewrite (handleEvent_up W event e Hk Hv Hm ltac:(lia)).
  set (e1 := set_lastUpDownCursorMovement CURSOR_UP
               (set_cursorY (Y (cursorPos e) - 1) e)).
  assert (Hwin : ∀ e2, fixHorizontalCursorOverflow e1 = Ret e2 →
            let e3 := if Y (cursorPos e2) <? firstLineInFrame e2 then
                        let e' := set_firstLineInFrame (firstLineInFrame e2 - 1) e2 in
                        if lastLineInFrame e' - firstLineInFrame e' >? dimY e' - 1
                        then set_lastLineInFrame (lastLineInFrame e' - 1) e' else e'
                      else e2 in
            sameDocument e2 e3
            ∧ firstLineInFrame e3
              = (if Y (cursorPos e) - 1 <? firstLineInFrame e
                 then firstLineInFrame e - 1 else firstLineInFrame e)).
  { intros e2 He2.
    apply fixHorizontalCursorOverflow_same in He2 as (_ & _ & Hcy & Hf).
    simpl in Hcy, Hf. rewrite Hcy, Hf. cbv zeta.
    destruct (_ <? _); [destruct (_ >? _)|]; simpl;
      (split; [unfold sameDocument; simpl; repeat split | congruence]). }
  split.
  - intros e' H. do 2 bind_inv H.
    destruct (Hwin _ eq_refl) as ((Hm1 & _ & _ & Hb1 & Hc1 & _) & Hf1).
    assert (Hcur := fixHorizontalCursorOverflow_cursor e1 _ line Hline E).
    apply fixHorizontalCursorOverflow_same in E as ((_ & Hb0 & _) & Hm0 & _).
    apply syncCursor_same in E0 as [(Hm2 & _ & _ & Hb2 & Hc2 & _) Hf2].
    apply syncCursor_same in H as [(Hm3 & _ & _ & Hb3 & Hc3 & _) Hf3].
    simpl in *.
    assert (Hcur' : cursorPos e'
                    = mkVertex (Z.min (X (cursorPos e)) (colLimit (currentMode e) line))
                        (Y (cursorPos e) - 1)) by congruence.
    assert (Hfirst' : firstLineInFrame e'
                      = (if Y (cursorPos e) - 1 <? firstLineInFrame e
                         then firstLineInFrame e - 1 else firstLineInFrame e))
      by congruence.
    repeat split; try congruence.
    intros Hle. rewrite Hfirst', Hcur'. simpl.
    destruct (Z.ltb_spec (Y (cursorPos e) - 1) (firstLineInFrame e)); lia.
  - intros HW HH Hn Hfirst.
    assert (Hlt : Y (cursorPos e) - 1 < getLinesCount e).
    { apply lookup_lt_Some in Hline. unfold getLinesCount, lenS. lia. }
    destruct (fixHorizontalCursorOverflow_Ret e1 line ltac:(simpl; lia) Hline)
      as [e2 He2].
    rewrite He2, bind_Ret.
    destruct (Hwin _ He2) as ((_ & _ & _ & Hb1 & Hc1 & _ & _ & _ & Hd1) & Hf1).
    apply fixHorizontalCursorOverflow_same in He2
      as ((_ & Hb & _ & _ & Hd) & _ & Hcy & Hf).
    simpl in Hb, Hd, Hcy, Hf.
    apply syncCursor_twice_narrow; unfold dimX, dimY, getLinesCount in *;
      rewrite ?Hf1, ?Hd1, ?Hb1, ?Hc1, ?Hd, ?Hb, ?Hcy; try assumption.
    destruct (Z.ltb_spec (Y (cursorPos e) - 1) (firstLineInFrame e)); lia.
Qed.

Lemma up_arrow_moves_one_row_and_window_follows_witness :
  ∃ e', handleEvent saveOk (press KeyUp) (normalEditor ["ab"; "hello"]%string 4 1)
        = Ret e'
        ∧ cursorPos e' = mkVertex 1 0.
Proof.
  destruct (up_arrow_moves_one_row_and_window_follows saveOk (press KeyUp)
              (normalEditor ["ab"; "hello"]%string 4 1) "ab"
              eq_refl eq_refl ltac:(discriminate) ltac:(simpl; lia) eq_refl)
    as (Hstate & Hret).
  destruct Hret as [e' He'].
  - unfold dimX. simpl. lia.
  - unfold dimY. simpl. lia.
  - repeat constructor.
  - simpl. lia.
  - exists e'. split; [exact He'|]. exact (proj1 (Hstate e' He')).
Defined.

(** *** Jumps, and the column they leave *)

Lemma handleEvent_normal_key (W : string → list string → option string)
    (event : Event) (e : Editor) :
  Kind event = KEY_PRESS → currentMode e = MODE_NORMAL → Value event = KeyOther →
  handleEvent W event e = handleKeyNormalMode event e.
Proof.
  intros Hk Hm Hv. unfold handleEvent, handleTextAreaCursorMovement.
  now rewrite Hk, Hm, Hv.
Qed.

(** X14. [G] in Normal mode puts the cursor on the last line and leaves its
    column, which can then lie beyond the end of that line; lines and mode
    stay.  On narrow lines with the window starting on a line of the
    buffer the key press returns. *)
Theorem G_moves_to_last_line_and_keeps_column
    (W : string → list string → option string) (event : Event) (e : Editor) :
  Kind event = KEY_PRESS → Value event = KeyOther → Rune event = 71 →
  currentMode e = MODE_NORMAL → 1 <= getLinesCount e →
  (∀ e', handleEvent W event e = Ret e' →
     cursorPos e' = mkVertex (X (cursorPos e)) (getLinesCount e - 1)
     ∧ dataBuffer e' = dataBuffer e ∧ currentMode e' = MODE_NORMAL)
  ∧ (1 <= dimX e → 2 <= dimY e → narrow (dimX e) (dataBuffer e) →
     0 <= firstLineInFrame e < getLinesCount e →
     ∃ e', handleEvent W event e = Ret e').
Proof.
  intros Hk Hv Hr Hm Hn.
  rewrite (handleEvent_normal_key W event e Hk Hm Hv).
  unfold handleKeyNormalMode. rewrite Hr. simpl Z.eqb. cbv iota.
  destruct (Z.ltb_spec (getLinesCount e - 1) 0) as [Hneg|_]; [lia|]. cbv zeta. split.
  - intros e' H. bind_inv H.
    apply fixVerticalCursorOverflow_same in E as (Hm1 & _ & _ & Hb1 & Hc1 & _).
    apply syncTextFrame_same in H as [(Hm2 & _ & _ & Hb2 & Hc2 & _) _].
    simpl in *. repeat split; congruence.
  - intros HW HH Hnarrow Hfirst.
    apply scroll_redraw_narrow; try assumption.
    unfold getLinesCount in *. simpl. lia.
Qed.

Lemma G_moves_to_last_line_and_keeps_column_witness :
  ∃ e', handleEvent saveOk (typed 71) (normalEditor ["hello"; "ab"]%string 4 0) = Ret e'
        ∧ cursorPos e' = mkVertex 4 1.
Proof.
  destruct (G_moves_to_last_line_and_keeps_column saveOk (typed 71)
              (normalEditor ["hello"; "ab"]%string 4 0)
              eq_refl eq_refl eq_refl eq_refl
              ltac:(unfold getLinesCount, lenS; simpl; lia))
    as (Hstate & Hret).
  destruct Hret as [e' He'].
  - unfold dimX. simpl. lia.
  - unfold dimY. simpl. lia.
  - repeat constructor.
  - simpl. unfold getLinesCount, lenS. simpl. lia.
  - exists e'. split; [exact He'|]. exact (proj1 (Hstate e' He')).
Defined.

(** The state lemma behind the panic of a character typed beyond the end
    of the line. *)
Lemma typing_beyond_line_end_state
    (W : string → list string → option string) (event : Event) (e : Editor)
    (line : string) :
  Kind event = KEY_PRESS → Value event = KeyOther → Rune event ≠ 0 →
  currentMode e = MODE_INSERT →
  0 <= Y (cursorPos e) →
  dataBuffer e !! Z.to_nat (Y (cursorPos e)) = Some line →
  len line < X (cursorPos e) →
  handleEvent W event e = Panic.
Proof.
  intros Hk Hv Hr Hm Hy Hline Hx.
  rewrite (handleEvent_insert_character W event e Hk Hm Hv).
  unfold handleKeyInsertMode. rewrite Hv. cbv zeta.
  change (cursorPos (set_isDirty true e)) with (cursorPos e).
  change (dataBuffer (set_isDirty true e)) with (dataBuffer e).
  destruct (Z.eqb_spec (Rune event) 0); [contradiction|].
  rewrite (index_Ret _ _ _ Hy Hline), bind_Ret. unfold slice.
  destruct (Z.leb_spec (X (cursorPos e)) (len line)); [lia|].
  destruct (0 <=? 0); destruct (0 <=? X (cursorPos e)); reflexivity.
Qed.

(** X15. A character typed in Insert mode with the cursor beyond the end of its
    line panics: the line is sliced at the cursor's column. *)
Theorem typing_beyond_line_end_panics
    (W : string → list string → option string) (event : Event) (e : Editor)
    (line : string) :
  Kind event = KEY_PRESS → Value event = KeyOther → Rune event ≠ 0 →
  currentMode e = MODE_INSERT →
  0 <= Y (cursorPos e) →
  dataBuffer e !! Z.to_nat (Y (cursorPos e)) = Some line →
  len line < X (cursorPos e) →
  handleEvent W event e = Panic.
Proof.
  intros Hk Hv Hr Hm Hy Hline Hx.
  rewrite (handleEvent_insert_character W event e Hk Hm Hv).
  unfold handleKeyInsertMode. rewrite Hv. cbv zeta.
  change (cursorPos (set_isDirty true e)) with (cursorPos e).
  change (dataBuffer (set_isDirty true e)) with (dataBuffer e).
  destruct (Z.eqb_spec (Rune event) 0); [contradiction|].
  rewrite (index_Ret _ _ _ Hy Hline), bind_Ret. unfold slice.
  destruct (Z.leb_spec (X (cursorPos e)) (len line)); [lia|].
  destruct (0 <=? 0); destruct (0 <=? X (cursorPos e)); reflexivity.
Qed.

Lemma typing_beyond_line_end_panics_witness :
  handleEvent saveOk (typed 120) (insertEditor ["hello"; "ab"]%string 4 1) = Panic.
Proof.
  apply (typing_beyond_line_end_panics saveOk (typed 120)
           (insertEditor ["hello"; "ab"]%string 4 1) "ab");
    try reflexivity; try discriminate; simpl; unfold len; simpl; lia.
Defined.

(** X16. The three keys [G], [i] and a character, from Normal mode with the
    cursor at a column beyond the length of the last line, end in a
    panic: [G] leaves the column, [i] enters Insert mode, and the
    character is inserted at a column the line does not have. *)
Theorem G_then_insert_on_shorter_line_panics
    (W : string → list string → option string) (e : Editor)
    (above : list string) (last : string) (r : Z) :
  currentMode e = MODE_NORMAL → r ≠ 0 →
  dataBuffer e = above ++ [last] → len last < X (cursorPos e) →
  1 <= dimX e → 2 <= dimY e → narrow (dimX e) (dataBuffer e) →
  0 <= firstLineInFrame e < getLinesCount e →
  handleEvents W [typed 71; typed 105; typed r] e = Panic.
Proof.
  intros Hm Hr Hbuf Hx HW HH Hn Hfirst.
  assert (Hcount : getLinesCount e = lenS above + 1).
  { unfold getLinesCount, lenS. rewrite Hbuf, length_app. simpl. lia. }
  assert (HG : ∃ e1, handleEvent W (typed 71) e = Ret e1
                     ∧ cursorPos e1 = mkVertex (X (cursorPos e)) (lenS above)
                     ∧ dataBuffer e1 = dataBuffer e ∧ currentMode e1 = MODE_NORMAL).
  { rewrite (handleEvent_normal_key W (typed 71) e eq_refl Hm eq_refl).
    unfold handleKeyNormalMode. simpl Z.eqb. cbv iota.
    destruct (Z.ltb_spec (getLinesCount e - 1) 0) as [Hneg|_];
      [unfold lenS in *; lia|]. cbv zeta.
    destruct (scroll_redraw_narrow (set_cursorY (getLinesCount e - 1) e))
      as [e1 He1]; try assumption.
    { unfold getLinesCount in *. simpl. lia. }
    exists e1. split; [exact He1|]. bind_inv He1.
    apply fixVerticalCursorOverflow_same in E as (Hm1 & _ & _ & Hb1 & Hc1 & _).
    apply syncTextFrame_same in He1 as [(Hm2 & _ & _ & Hb2 & Hc2 & _) _].
    simpl in *. repeat split; try congruence.
    rewrite Hc2, Hc1. f_equal. lia. }
  destruct HG as (e1 & He1 & Hc1 & Hb1 & Hm1).
  simpl. rewrite He1, bind_Ret.
  rewrite (handleEvent_normal_key W (typed 105) e1 eq_refl Hm1 eq_refl).
  unfold handleKeyNormalMode. simpl Z.eqb. cbv iota. rewrite bind_Ret.
  destruct (syncStatusBar_same
              (set_statusMessage "-- INSERT --" (set_currentMode MODE_INSERT e1)))
    as ((_ & Hb2 & _) & Hm2 & Hc2 & _).
  fold (switchToInsertMode e1) in Hb2, Hm2, Hc2. simpl in Hb2, Hm2, Hc2.
  rewrite (typing_beyond_line_end_state W (typed r) (switchToInsertMode e1) last);
    try reflexivity; try assumption.
  - rewrite Hc2, Hc1. simpl. unfold lenS. lia.
  - rewrite Hc2, Hc1, Hb2, Hb1, Hbuf. simpl. unfold lenS. rewrite Nat2Z.id.
    now apply list_lookup_middle.
  - rewrite Hc2, Hc1. exact Hx.
Qed.

Lemma G_then_insert_on_shorter_line_panics_witness :
  handleEvents saveOk [typed 71; typed 105; typed 120]
    (normalEditor ["hello"; "ab"]%string 4 0) = Panic.
Proof.
  apply (G_then_insert_on_shorter_line_panics saveOk
           (normalEditor ["hello"; "ab"]%string 4 0) ["hello"%string] "ab" 120).
  - reflexivity.
  - discriminate.
  - reflexivity.
  - simpl. unfold len. simpl. lia.
  - unfold dimX. simpl. lia.
  - unfold dimY. simpl. lia.
  - repeat constructor.
  - simpl. unfold getLinesCount, lenS. simpl. lia.
Defined.

(** X17. A command whose text after the first character [Atoi] reads as the
    number [k] puts the cursor on line [k], counted from 1 and brought
    into the range of the buffer's lines; the column and the lines stay,
    the command string is emptied and the mode is Normal again.  On
    narrow lines with the window starting on a line of the buffer the key
    press returns. *)
Theorem number_command_goes_to_clamped_line
    (W : string → list string → option string) (event : Event) (e : Editor)
    (c : ascii) (cmd : string) (k : Z) :
  Kind event = KEY_PRESS → Value event = KeyEnter →
  currentMode e = MODE_COMMAND_LINE →
  currentCommand e = String c cmd → Atoi cmd = Some k →
  1 <= getLinesCount e →
  (∀ e', handleEvent W event e = Ret e' →
     cursorPos e'
     = mkVertex (X (cursorPos e)) (Z.max 1 (Z.min k (getLinesCount e)) - 1)
     ∧ dataBuffer e' = dataBuffer e
     ∧ currentCommand e' = EmptyString ∧ currentMode e' = MODE_NORMAL)
  ∧ (1 <= dimX e → 2 <= dimY e → narrow (dimX e) (dataBuffer e) →
     0 <= firstLineInFrame e < getLinesCount e →
     ∃ e', handleEvent W event e = Ret e').
Proof.
  intros Hk Hv Hm Hc Ha Hn.
  set (row := Z.max 1 (Z.min k (getLinesCount e)) - 1).
  assert (Heq : handleEvent W event e
                = (e1 ← (e1 ← fixVerticalCursorOverflow (set_cursorY row e);
                         syncTextFrame false e1);
                   mret (set_currentMode MODE_NORMAL
                           (syncStatusBar (set_currentCommand "" e1))))).
  { unfold handleEvent. rewrite Hk, Hm, Hv. simpl.
    unfold runCommand. rewrite Hc, slice_tail. simpl. rewrite Ha.
    replace ((if (if k >? getLinesCount e then getLinesCount e else k) <? 1
              then 1
              else if k >? getLinesCount e then getLinesCount e else k) - 1)
      with row
      by (unfold row; destruct (Z.gtb_spec k (getLinesCount e));
          match goal with
          | |- context [if ?a <? 1 then _ else _] => destruct (Z.ltb_spec a 1)
          end; lia).
    destruct (fixVerticalCursorOverflow _ ≫= _); simpl; try reflexivity.
    unfold handleKeyCommandLineMode. rewrite Hv, orb_true_r. reflexivity. }
  rewrite Heq. split.
  - intros e' H. bind_inv H. injection H as <-. bind_inv E.
    apply fixVerticalCursorOverflow_same in E0 as (_ & _ & _ & Hb1 & Hc1 & _).
    apply syncTextFrame_same in E as [(_ & _ & _ & Hb2 & Hc2 & _) _].
    destruct (syncStatusBar_same (set_currentCommand "" a))
      as ((_ & Hb3 & _) & _ & Hc3 & Hcmd & _).
    simpl in *. repeat split; congruence.
  - intros HW HH Hnarrow Hfirst.
    destruct (scroll_redraw_narrow (set_cursorY row e)) as [e1 He1]; try assumption.
    { unfold getLinesCount in *. simpl. unfold row. lia. }
    rewrite He1. simpl. eauto.
Qed.

Lemma number_command_goes_to_clamped_line_witness :
  ∃ e', handleEvent saveOk enterKey (commandLineEditor "99" false) = Ret e'
        ∧ Y (cursorPos e') = getLinesCount (commandLineEditor "99" false) - 1.
Proof.
  destruct (number_command_goes_to_clamped_line saveOk enterKey
              (commandLineEditor "99" false) ":" "99" 99
              eq_refl eq_refl eq_refl eq_refl eq_refl
              ltac:(unfold getLinesCount, lenS; simpl; lia))
    as (Hstate & Hret).
  destruct Hret as [e' He'].
  - unfold dimX. simpl. lia.
  - unfold dimY. simpl. lia.
  - repeat constructor.
  - simpl. unfold getLinesCount, lenS. simpl. lia.
  - exists e'. split; [exact He'|].
    destruct (Hstate e' He') as (Hcur & _). rewrite Hcur. reflexivity.
Defined.

(** *** The command line *)

Lemma append_empty_r (a : string) : a +:+ EmptyString = a.
Proof. induction a as [|c a IH]; [reflexivity|]. now rewrite append_cons, IH. Qed.

Lemma handleEvent_command_character (W : string → list string → option string)
    (r : Z) (e : Editor) :
  currentMode e = MODE_COMMAND_LINE → r ≠ 0 →
  handleEvent W (typed r) e
  = Ret (syncStatusBar (set_currentCommand (currentCommand e +:+ encodeRune r) e)).
Proof.
  intros Hm Hr. unfold handleEvent. rewrite Hm. simpl.
  unfold handleKeyCommandLineMode. simpl.
  destruct (Z.eqb_spec r 0); [contradiction|]. reflexivity.
Qed.

(** X18. In Command-line mode character keys are collected: after any number
    of them the command string is the one before followed by the UTF-8
    bytes of the typed runes, in order; lines, cursor, dirty flag and mode
    stay, and the key presses return whatever the terminal and the
    buffer. *)
Theorem command_line_collects_typed_characters
    (W : string → list string → option string) (rs : list Z) (e : Editor) :
  currentMode e = MODE_COMMAND_LINE → Forall (fun r => r ≠ 0) rs →
  ∃ e', handleEvents W (map typed rs) e = Ret e'
        ∧ currentCommand e' = currentCommand e +:+ encodeRunes rs
        ∧ currentMode e' = MODE_COMMAND_LINE
        ∧ dataBuffer e' = dataBuffer e ∧ cursorPos e' = cursorPos e
        ∧ isDirty e' = isDirty e.
Proof.
  intros Hm Hrs. revert e Hm.
  induction Hrs as [|r rs Hr Hrs IH]; intros e Hm.
  - exists e. simpl. rewrite append_empty_r. repeat split. exact Hm.
  - simpl map. simpl handleEvents.
    rewrite (handleEvent_command_character W r e Hm Hr), bind_Ret.
    destruct (syncStatusBar_same (set_currentCommand (currentCommand e +:+ encodeRune r) e))
      as ((_ & Hb & Hd & _) & Hm1 & Hc1 & Hcmd & _).
    destruct (IH _ (eq_trans Hm1 Hm)) as (e' & He' & Hcmd' & Hm' & Hb' & Hc' & Hd').
    exists e'. split; [exact He'|].
    rewrite Hcmd', Hcmd, Hb', Hb, Hc', Hc1, Hd', Hd. simpl.
    rewrite append_assoc. repeat split. exact Hm'.
Qed.

Lemma command_line_collects_typed_characters_witness :
  ∃ e', handleEvents saveOk (map typed [119; 113]) (commandLineEditor "" false) = Ret e'
        ∧ currentCommand e' = ":wq"%string.
Proof.
  destruct (command_line_collects_typed_characters saveOk [119; 113]
              (commandLineEditor "" false) eq_refl
              ltac:(repeat constructor; discriminate))
    as (e' & He' & Hcmd & _).
  exists e'. split; [exact He' | exact Hcmd].
Defined.

(** X19. Backspace in Command-line mode removes the last byte of the command
    string and stays in Command-line mode, also when the string becomes
    empty; on an empty command string it panics. *)
Theorem command_line_backspace_drops_last_byte
    (W : string → list string → option string) (event : Event) (e : Editor) :
  Kind event = KEY_PRESS → isBackspace (Value event) = true → Rune event ≠ 0 →
  currentMode e = MODE_COMMAND_LINE →
  (∀ (prefix : string) (c : ascii),
     currentCommand e = prefix +:+ String c EmptyString →
     ∃ e', handleEvent W event e = Ret e'
           ∧ currentCommand e' = prefix
           ∧ currentMode e' = MODE_COMMAND_LINE
           ∧ dataBuffer e' = dataBuffer e ∧ cursorPos e' = cursorPos e)
  ∧ (currentCommand e = EmptyString → handleEvent W event e = Panic).
Proof.
  intros Hk Hb Hr Hm.
  assert (Heq : handleEvent W event e
                = (cmd ← slice (currentCommand e) 0 (len (currentCommand e) - 1);
                   mret (syncStatusBar (set_currentCommand cmd e)))).
  { unfold handleEvent. rewrite Hk, Hm. simpl negb. cbv iota.
    unfold isBackspace in Hb.
    destruct (Value event) eqn:Hv; simpl in Hb; try discriminate Hb; simpl;
      unfold handleKeyCommandLineMode; rewrite Hv; simpl;
      destruct (Z.eqb_spec (Rune event) 0); try contradiction; reflexivity. }
  rewrite Heq. split.
  - intros prefix c Hcmd. rewrite Hcmd.
    replace (len (prefix +:+ String c EmptyString) - 1) with (len prefix)
      by (rewrite len_append; unfold len; simpl; lia).
    rewrite slice_before, before_append, bind_Ret
      by (rewrite len_append; unfold len; simpl; lia).
    destruct (syncStatusBar_same (set_currentCommand prefix e))
      as ((_ & Hb1 & _) & Hm1 & Hc1 & Hcmd1 & _).
    eexists. split; [reflexivity|]. simpl in *. repeat split; congruence.
  - intros ->. reflexivity.
Qed.

Lemma command_line_backspace_drops_last_byte_witness :
  (∃ e', handleEvent saveOk backspaceKey (commandLineEditor "q" false) = Ret e'
         ∧ currentCommand e' = ":"%string)
  ∧ handleEvent saveOk backspaceKey
      (set_currentCommand "" (commandLineEditor "q" false)) = Panic.
Proof.
  split.
  - destruct (proj1 (command_line_backspace_drops_last_byte saveOk backspaceKey
                       (commandLineEditor "q" false)
                       eq_refl eq_refl ltac:(discriminate) eq_refl)
                ":"%string "q"%char eq_refl) as (e' & He' & Hcmd & _).
    exists e'. split; [exact He' | exact Hcmd].
  - apply (command_line_backspace_drops_last_byte saveOk backspaceKey
             (set_currentCommand "" (commandLineEditor "q" false))
             eq_refl eq_refl ltac:(discriminate) eq_refl).
    reflexivity.
Defined.

(** *** Entering Insert mode *)

(** X20. [A] in Normal mode puts the cursor after the last character of its
    line and enters Insert mode with the status [-- INSERT --]; [i]
    enters Insert mode and leaves the cursor.  Neither edits. *)
Theorem insert_keys_enter_insert_mode
    (W : string → list string → option string) (event : Event) (e : Editor)
    (line : string) :
  Kind event = KEY_PRESS → Value event = KeyOther →
  currentMode e = MODE_NORMAL →
  0 <= Y (cursorPos e) →
  dataBuffer e !! Z.to_nat (Y (cursorPos e)) = Some line →
  (Rune event = 105 →
     ∃ e', handleEvent W event e = Ret e'
           ∧ cursorPos e' = cursorPos e
           ∧ currentMode e' = MODE_INSERT
           ∧ statusMessage e' = "-- INSERT --"%string
           ∧ dataBuffer e' = dataBuffer e ∧ isDirty e' = isDirty e)
  ∧ (Rune event = 65 →
     (∀ e', handleEvent W event e = Ret e' →
        cursorPos e' = mkVertex (len line) (Y (cursorPos e))
        ∧ currentMode e' = MODE_INSERT
        ∧ statusMessage e' = "-- INSERT --"%string
        ∧ dataBuffer e' = dataBuffer e ∧ isDirty e' = isDirty e)
     ∧ (1 <= dimX e → 2 <= dimY e → narrow (dimX e) (dataBuffer e) →
        0 <= firstLineInFrame e < getLinesCount e →
        ∃ e', handleEvent W event e = Ret e')).
Proof.
  intros Hk Hv Hm Hy Hline.
  rewrite (handleEvent_normal_key W event e Hk Hm Hv).
  unfold handleKeyNormalMode, switchToInsertMode. split; intros Hr; rewrite Hr.
  - simpl Z.eqb. cbv iota.
    destruct (syncStatusBar_same
                (set_statusMessage "-- INSERT --" (set_currentMode MODE_INSERT e)))
      as ((_ & Hb & Hd & _) & Hm1 & Hc1 & _ & Hs1).
    eexists. split; [reflexivity|]. simpl in *. repeat split; congruence.
  - simpl Z.eqb. cbv iota. unfold getCurrentLineLength.
    rewrite (index_Ret _ _ _ Hy Hline), !bind_Ret.
    destruct (syncStatusBar_same
                (set_statusMessage "-- INSERT --"
                   (set_currentMode MODE_INSERT (set_cursorX (len line) e))))
      as ((_ & Hb & Hd & _ & Hdim) & Hm1 & Hc1 & _ & Hs1).
    simpl in Hb, Hd, Hdim, Hm1, Hc1, Hs1. split.
    + intros e' H.
      apply syncCursor_same in H as [(Hm2 & Hs2 & _ & Hb2 & Hc2 & _ & Hd2 & _) _].
      repeat split; congruence.
    + intros HW HH Hn Hfirst.
      assert (Hlt : Y (cursorPos e) < getLinesCount e).
      { apply lookup_lt_Some in Hline. unfold getLinesCount, lenS. lia. }
      apply syncCursor_narrow; unfold dimX, dimY, getLinesCount in *;
        rewrite ?Hdim, ?Hb, ?Hc1; try assumption.
      unfold syncStatusBar. now destruct (theme.ResolveGroup _ _).
Qed.

Lemma insert_keys_enter_insert_mode_witness :
  ∃ e', handleEvent saveOk (typed 65) (normalEditor ["hello"; "ab"]%string 1 0) = Ret e'
        ∧ cursorPos e' = mkVertex 5 0 ∧ currentMode e' = MODE_INSERT.
Proof.
  destruct (insert_keys_enter_insert_mode saveOk (typed 65)
              (normalEditor ["hello"; "ab"]%string 1 0) "hello"
              eq_refl eq_refl eq_refl ltac:(simpl; lia) eq_refl)
    as (_ & HA).
  destruct (HA eq_refl) as (Hstate & Hret).
  destruct Hret as [e' He'].
  - unfold dimX. simpl. lia.
  - unfold dimY. simpl. lia.
  - repeat constructor.
  - simpl. unfold getLinesCount, lenS. simpl. lia.
  - exists e'. split; [exact He'|].
    destruct (Hstate e' He') as (Hc & Hm & _). split; assumption.
Defined.

(** *** The cursor stays within its line in Insert mode *)

Lemma cursorInLine_ext (e e' : Editor) :
  dataBuffer e' = dataBuffer e → cursorPos e' = cursorPos e →
  cursorInLine e → cursorInLine e'.
Proof. unfold cursorInLine. now intros -> ->. Qed.

Lemma cursorInLine_same (e e' : Editor) :
  sameDocument e e' → cursorInLine e → cursorInLine e'.
Proof. intros (_ & _ & _ & Hb & Hc & _). now apply cursorInLine_ext. Qed.

Lemma cursorInLine_middle (e : Editor) (above below : list string) (line : string)
    (x : Z) :
  dataBuffer e = above ++ line :: below → cursorPos e = mkVertex x (lenS above) →
  0 <= x <= len line → cursorInLine e.
Proof.
  intros Hb Hc Hx. exists line. rewrite Hb, Hc. simpl. unfold lenS.
  rewrite Nat2Z.id. split; [now apply list_lookup_middle | lia].
Qed.

Lemma cursorInLine_split (e : Editor) :
  cursorInLine e →
  ∃ above line below,
    dataBuffer e = above ++ line :: below ∧ Y (cursorPos e) = lenS above
    ∧ 0 <= X (cursorPos e) <= len line.
Proof.
  intros (line & Hline & Hy & Hx).
  exists (take (Z.to_nat (Y (cursorPos e))) (dataBuffer e)), line,
         (drop (S (Z.to_nat (Y (cursorPos e)))) (dataBuffer e)).
  split; [symmetry; now apply take_drop_middle|]. split; [|exact Hx].
  apply lookup_lt_Some in Hline. unfold lenS. rewrite length_take. lia.
Qed.

(** After [fixHorizontalCursorOverflow] the cursor is within its line, in
    every mode. *)
Lemma fixHorizontalCursorOverflow_inLine (e e' : Editor) :
  0 <= X (cursorPos e) → fixHorizontalCursorOverflow e = Ret e' → cursorInLine e'.
Proof.
  intros Hx H. apply fixHorizontalCursorOverflow_spec in H
    as (line & Hy & Hline & Hcase).
  assert (Hlim := colLimit_range (currentMode e) line).
  exists line. destruct Hcase as [[Hle ->]|[Hlt ->]]; simpl.
  - split; [exact Hline | lia].
  - split; [exact Hline | lia].
Qed.

Lemma handleTextAreaCursorMovement_inLine (event : Event) (e e' : Editor) (b : bool) :
  handleTextAreaCursorMovement event e = Ret (b, e') →
  cursorInLine e → cursorInLine e'.
Proof.
  unfold handleTextAreaCursorMovement. intros H Hc.
  assert (Hc' := Hc). destruct Hc' as (line & Hline & Hy & Hx).
  destruct (Value event); try (injection H as _ <-; exact Hc).
  - destruct (Z.eqb_spec (X (cursorPos e)) 0); simpl in H;
      [injection H as _ <-; exact Hc|].
    bind_inv H. injection H as _ <-. apply syncCursor_same in E as [E _].
    apply (cursorInLine_same _ _ E). exists line. simpl. split; [exact Hline | lia].
  - bind_inv H. bind_inv H. injection H as _ <-.
    apply syncCursor_same in E0 as [E0 _]. apply (cursorInLine_same _ _ E0).
    apply fixHorizontalCursorOverflow_inLine in E; [exact E | simpl; lia].
  - destruct (negb _); [|injection H as _ <-; exact Hc].
    bind_inv H. bind_inv H. injection H as _ <-.
    apply syncCursor_same in E0 as [E0 _]. apply (cursorInLine_same _ _ E0).
    apply fixHorizontalCursorOverflow_inLine in E; [|simpl; lia].
    destruct (_ <? _); [destruct (_ >? _)|];
      (eapply cursorInLine_ext; [| |exact E]; reflexivity).
  - destruct (negb _); [|injection H as _ <-; exact Hc].
    bind_inv H. bind_inv H. bind_inv H. injection H as _ <-.
    apply syncCursor_same in E1 as [E1 _]. apply (cursorInLine_same _ _ E1).
    apply fixVerticalCursorOverflow_same in E0. apply (cursorInLine_same _ _ E0).
    apply fixHorizontalCursorOverflow_inLine in E; [exact E | simpl; lia].
Qed.

Lemma handleTextAreaCursorMovement_unprocessed (event : Event) (e e' : Editor) :
  handleTextAreaCursorMovement event e = Ret (false, e') →
  e' = e ∧ isArrow (Value event) = false.
Proof.
  unfold handleTextAreaCursorMovement. intros H.
  destruct (Value event); simpl;
    repeat match type of H with
           | (if ?c then _ else _) = _ => destruct c
           | mbind _ _ = Ret _ => bind_inv H
           end; try discriminate H; injection H as <-; auto.
Qed.

(** A rune is at least one byte. *)
Lemma len_encodeRune_pos (r : Z) : 1 <= len (encodeRune r).
Proof.
  unfold encodeRune.
  repeat match goal with
         | |- context [if ?c then _ else _] => destruct c
         end; unfold len; simpl; lia.
Qed.

(** The state a key that is neither Enter nor Backspace hands to the
    redraw, when its rune is not zero. *)
Lemma insert_state_any_key (event : Event) (e : Editor)
    (above below : list string) (line : string) :
  Value event ≠ KeyEnter → isBackspace (Value event) = false → Rune event ≠ 0 →
  dataBuffer e = above ++ line :: below →
  Y (cursorPos e) = lenS above → 0 <= X (cursorPos e) <= len line →
  handleKeyInsertMode event e
    = syncTextFrame false
        (set_cursorX (X (cursorPos e) + 1)
           (set_dataBuffer
              (above ++ (before (X (cursorPos e)) line
                         +:+ encodeRune (Rune event)
                         +:+ after (X (cursorPos e)) line) :: below)
              (set_isDirty true e))).
Proof.
  intros Hne Hnb Hr Hbuf Hcy Hcx. unfold handleKeyInsertMode.
  destruct (Value event); try contradiction; try discriminate Hnb; cbv zeta;
    change (cursorPos (set_isDirty true e)) with (cursorPos e);
    change (dataBuffer (set_isDirty true e)) with (dataBuffer e);
    (destruct (Z.eqb_spec (Rune event) 0); [contradiction|]);
    rewrite Hcy, Hbuf, index_middle, bind_Ret;
    rewrite slice_before, bind_Ret by lia;
    rewrite slice_after, bind_Ret by lia;
    rewrite store_middle, bind_Ret; reflexivity.
Qed.

Lemma handleKeyInsertMode_inLine (event : Event) (e e' : Editor) :
  handleKeyInsertMode event e = Ret e' → cursorInLine e → cursorInLine e'.
Proof.
  intros H Hc.
  destruct (cursorInLine_split e Hc) as (above & line & below & Hbuf & Hcy & Hcx).
  destruct (Key_eq_dec (Value event) KeyEnter) as [Hv|Hne].
  { (* Enter *)
    assert (Hrow : cursorOnRow e').
    { apply (handleKeyInsertMode_onRow _ _ _ H).
      unfold cursorOnRow, getLinesCount, lenS. rewrite Hbuf, Hcy, length_app.
      simpl. unfold lenS. lia. }
    assert (Hx' : X (cursorPos e') = 0).
    { destruct (Z.lt_ge_cases (X (cursorPos e)) (len line)) as [Hlt|Hge].
      - rewrite (enter_split_state event e above below line Hv Hbuf Hcy
                   ltac:(lia)) in H.
        bind_inv H. apply fixVerticalCursorOverflow_same in E as (_&_&_&_& Hc1 &_).
        apply syncTextFrame_same in H as [(_&_&_&_& Hc2 &_) _].
        rewrite Hc2, Hc1. reflexivity.
      - rewrite (enter_at_end_of_line_state event e above below line Hv Hbuf Hcy
                   ltac:(lia)) in H.
        bind_inv H. apply fixVerticalCursorOverflow_same in E as (_&_&_&_& Hc1 &_).
        apply syncTextFrame_same in H as [(_&_&_&_& Hc2 &_) _].
        rewrite Hc2, Hc1. reflexivity. }
    destruct Hrow as (_ & Hy' & _).
    destruct (lookup_lt_is_Some_2 (dataBuffer e') (Z.to_nat (Y (cursorPos e'))))
      as [line' Hline']; [unfold getLinesCount, lenS in Hy'; lia|].
    exists line'. rewrite Hx'. assert (Hl := len_nonneg line').
    split; [exact Hline' | lia]. }
  destruct (isBackspace (Value event)) eqn:Hb.
  { (* Backspace *)
    destruct (Z.eq_dec (X (cursorPos e)) 0) as [Hx0|Hxpos].
    - destruct (Z.eq_dec (Y (cursorPos e)) 0) as [Hy0|Hypos].
      + unfold handleKeyInsertMode in H. unfold isBackspace in Hb.
        destruct (Value event); simpl in Hb; try discriminate Hb; cbv zeta in H;
          change (cursorPos (set_isDirty true e)) with (cursorPos e) in H;
          rewrite Hx0, Hy0 in H; simpl in H; injection H as <-;
          (eapply cursorInLine_ext; [| |exact Hc]; reflexivity).
      + destruct above as [|prev above' _] using rev_ind;
          [unfold lenS in Hcy; simpl in Hcy; lia|].
        rewrite <- app_assoc in Hbuf. simpl in Hbuf.
        assert (Hcur : cursorPos e = mkVertex 0 (lenS above' + 1)).
        { destruct (cursorPos e) as [cx cy]. simpl in *. subst cx cy.
          unfold lenS. rewrite length_app. simpl. f_equal. lia. }
        rewrite (backspace_merge_state event e above' below prev line Hb Hbuf Hcur) in H.
        apply syncTextFrame_same in H as [H _]. apply (cursorInLine_same _ _ H).
        apply (cursorInLine_middle _ above' below (prev +:+ line) (len prev));
          [reflexivity | reflexivity|].
        rewrite len_append. assert (H1 := len_nonneg prev).
        assert (H2 := len_nonneg line). lia.
    - rewrite (delete_state event e above below line Hb Hbuf Hcy ltac:(lia)) in H.
      apply syncTextFrame_same in H as [H _]. apply (cursorInLine_same _ _ H).
      eapply (cursorInLine_middle _ above below _ (X (cursorPos e) - 1));
        [reflexivity | simpl; now rewrite Hcy|].
      rewrite len_append, len_before, len_after by lia. lia. }
  destruct (Z.eq_dec (Rune event) 0) as [Hr0|Hr].
  - unfold handleKeyInsertMode in H. unfold isBackspace in Hb.
    destruct (Value event); try contradiction; simpl in Hb; try discriminate Hb;
      cbv zeta in H; rewrite Hr0 in H; simpl in H; injection H as <-;
      (eapply cursorInLine_ext; [| |exact Hc]; reflexivity).
  - rewrite (insert_state_any_key event e above below line Hne Hb Hr Hbuf Hcy Hcx) in H.
    apply syncTextFrame_same in H as [H _]. apply (cursorInLine_same _ _ H).
    eapply (cursorInLine_middle _ above below _ (X (cursorPos e) + 1));
      [reflexivity | simpl; now rewrite Hcy|].
    rewrite !len_append, len_before, len_after by lia.
    assert (Hl := len_encodeRune_pos (Rune event)). lia.
Qed.

(** X21. In Insert mode a key press keeps the cursor within its line:
    if the cursor is on a line of the buffer at a column from 0 to the
    length of that line, the position after the last character included,
    then after every key press that returns it is so again, for arrows,
    Escape, Enter, Backspace and characters alike.  The premise is not
    for free: [G] and a number command leave the column as it is, so
    Insert mode can be entered with the cursor beyond its line. *)
Theorem insert_mode_keeps_cursor_within_line
    (W : string → list string → option string) (event : Event) (e e' : Editor) :
  currentMode e = MODE_INSERT → cursorInLine e →
  handleEvent W event e = Ret e' → cursorInLine e'.
Proof.
  intros Hm Hc H. unfold handleEvent in H. rewrite Hm in H.
  destruct (negb _); [injection H as <-; exact Hc|].
  destruct (bool_decide _).
  - bind_inv H. apply syncCursor_same in H as [H _]. apply (cursorInLine_same _ _ H).
    apply fixHorizontalCursorOverflow_inLine in E; [exact E|].
    destruct (syncStatusBar_same
                (set_statusMessage "" (set_currentMode MODE_NORMAL e)))
      as (_ & _ & Hcur & _).
    rewrite Hcur. simpl. destruct Hc as (line & _ & _ & Hx). lia.
  - bind_inv H. destruct a as [processed e1].
    apply handleTextAreaCursorMovement_inLine in E; [|exact Hc].
    destruct processed.
    + apply syncCursor_same in H as [H _]. now apply (cursorInLine_same _ _ H).
    + now apply handleKeyInsertMode_inLine in H.
Qed.

Lemma insert_mode_keeps_cursor_within_line_witness :
  ∃ e', handleEvent saveOk (press KeyDown) (insertEditor ["hello"; "ab"]%string 4 0)
        = Ret e'
        ∧ cursorInLine e'.
Proof.
  eexists. split; [vm_compute; reflexivity|].
  apply (insert_mode_keeps_cursor_within_line saveOk (press KeyDown)
           (insertEditor ["hello"; "ab"]%string 4 0)).
  - reflexivity.
  - exists "hello"%string. simpl. unfold len. simpl. split; [reflexivity | lia].
  - vm_compute. reflexivity.
Defined.

(** *** The shape of the frame *)

Lemma putRune_shape (W : Z) (fr fr1 : TextFrame) (x y ch : Z) :
  putRune W fr x y ch = Ret fr1 → rowsWide W fr →
  rowsWide W fr1 ∧ length fr1 = length fr.
Proof.
  unfold putRune. intros H Hw.
  bind_inv H. apply index_inv in E as [Hy Hrow].
  bind_inv H. bind_inv H. apply store_inv in E0 as [Hx ->].
  apply store_inv in H as [Hy' ->].
  split; [|apply length_insert].
  apply Forall_insert; [exact Hw|]. simpl. unfold lenS. rewrite length_insert.
  destruct a as [cells|].
  - injection E as <-. exact (Forall_lookup_1 _ _ _ _ Hw Hrow).
  - apply make_length in E as [_ E]. exact E.
Qed.

Lemma layLine_shape (W : Z) (chars : list Z) :
  ∀ (fr fr' : TextFrame) (x y x' y' : Z),
  layLine W chars fr x y = Ret (fr', x', y') → rowsWide W fr →
  rowsWide W fr' ∧ length fr' = length fr.
Proof.
  induction chars as [|ch rest IH]; intros fr fr' x y x' y' H Hw; simpl in H.
  - injection H as <- _ _. auto.
  - bind_inv H. apply putRune_shape in E as [Hw1 Hl1]; [|exact Hw].
    destruct (x + 1 =? W); apply IH in H as [Hw2 Hl2]; try exact Hw1;
      (split; [exact Hw2 | congruence]).
Qed.

Lemma fillLoop_shape (e : Editor) :
  ∀ (fuel : nat) (i y : Z) (fr fr' : TextFrame) (last : Z),
  fillLoop fuel e i y fr = Ret (fr', last) → rowsWide (dimX e) fr →
  rowsWide (dimX e) fr' ∧ length fr' = length fr.
Proof.
  induction fuel as [|fuel IH]; intros i y fr fr' last H Hw; [discriminate|].
  unfold fillLoop in H; fold fillLoop in H.
  bind_inv H. bind_inv H. destruct a0 as [[fr1 x1] y1].
  apply layLine_shape in E0 as [Hw1 Hl1]; [|exact Hw].
  destruct (_ || _).
  - injection H as <- _. auto.
  - apply IH in H as [Hw2 Hl2]; [|exact Hw1]. split; [exact Hw2 | congruence].
Qed.

(** X22. The frame [fillTextFrameFromTop] returns has one row for each row of
    the terminal but the last, every written row is as wide as the
    terminal, and the last visible line it records lies between the window
    start and the last line of the buffer; only [lastLineInFrame] changes
    in the editor.  The frame is built whenever the lines from the window
    start to the end of the buffer fit in these rows. *)
Theorem frame_has_the_rows_of_the_terminal (e : Editor) :
  1 <= dimX e → 0 <= firstLineInFrame e →
  (∀ fr e', fillTextFrameFromTop e = Ret (fr, e') →
     lenS fr = dimY e - 1 ∧ rowsWide (dimX e) fr
     ∧ e' = set_lastLineInFrame (lastLineInFrame e') e
     ∧ firstLineInFrame e <= lastLineInFrame e' < getLinesCount e)
  ∧ (firstLineInFrame e < getLinesCount e →
     rowsAbove runeCount e (firstLineInFrame e) (getLinesCount e) <= dimY e - 1 →
     ∃ fr e', fillTextFrameFromTop e = Ret (fr, e')).
Proof.
  intros HW Hfirst. split.
  - intros fr e' H.
    destruct (fillTextFrameFromTop_window e e' fr HW Hfirst H) as [_ Hlast].
    assert (Hfields := fillTextFrameFromTop_fields e e' fr H).
    destruct Hfields as [last ->].
    unfold fillTextFrameFromTop in H. bind_inv H. bind_inv H.
    destruct a0 as [fr' i]. injection H as <- _.
    apply make_length in E as Hmake. unfold make in E.
    destruct (dimY e - 1 <? 0); [discriminate|]. injection E as <-.
    apply (fillLoop_shape e (S (length (dataBuffer e))) (firstLineInFrame e) 0) in E0
      as [Hw Hl]; [|apply Forall_replicate; exact I].
    split; [unfold lenS in *; rewrite Hl; exact (proj2 Hmake)|].
    split; [exact Hw|]. split; [reflexivity | exact Hlast].
  - intros Hlt Hfit. apply fillTextFrameFromTop_fits; [assumption | lia | assumption].
Qed.

Lemma frame_has_the_rows_of_the_terminal_witness :
  ∃ fr e', fillTextFrameFromTop (insertEditor ["abcd"; "ef"]%string 1 0) = Ret (fr, e')
           ∧ lenS fr = 4 ∧ lastLineInFrame e' = 1.
Proof.
  destruct (frame_has_the_rows_of_the_terminal (insertEditor ["abcd"; "ef"]%string 1 0))
    as (Hshape & Hret).
  - unfold dimX. simpl. lia.
  - simpl. lia.
  - destruct Hret as (fr & e' & H).
    + simpl. unfold getLinesCount, lenS. simpl. lia.
    + vm_compute. discriminate.
    + exists fr, e'. split; [exact H|].
      destruct (Hshape fr e' H) as (Hl & _). split; [exact Hl|].
      vm_compute in H. injection H as _ <-. reflexivity.
Defined.

(** *** Tildes *)

Lemma tildeLoop_spec (W : Z) : ∀ (i : nat) (b : bool) (fr fr' : TextFrame),
  tildeLoop W i b fr = Ret fr' →
  length fr' = length fr
  ∧ (∀ k : nat, (k = 0 ∨ i < k)%nat → fr' !! k = fr !! k)
  ∧ (∀ (k : nat) (row : option (list Z)), (1 <= k <= i)%nat → fr !! k = Some row →
       fr' !! k
       = Some (Some (filledRow W (b && forallb isNil (take (i - k) (drop (S k) fr)))
                       row))).
Proof.
  induction i as [|i IH]; intros b fr fr' H.
  - simpl in H. injection H as <-. split; [reflexivity|].
    split; [reflexivity | intros k row Hk; lia].
  - simpl tildeLoop in H. bind_inv H.
    apply index_inv in E as [_ Hrow]. rewrite Nat2Z.id in Hrow.
    destruct a as [cells|].
    + apply IH in H as (Hl & Hout & Hin). split; [exact Hl|].
      split; [intros k Hk; apply Hout; lia|].
      intros k row Hk Hk'.
      destruct (Nat.eq_dec k (S i)) as [->|Hne].
      * rewrite Hout by lia. assert (row = Some cells) as -> by congruence.
        rewrite Hrow. reflexivity.
      * rewrite (Hin k row ltac:(lia) Hk'). do 3 f_equal.
        replace (S i - k)%nat with (S (i - k)) by lia.
        rewrite (take_S_r _ _ (Some cells)).
        -- rewrite forallb_app. simpl. now rewrite !andb_false_r.
        -- rewrite lookup_drop. rewrite <- Hrow. f_equal. lia.
    + bind_inv H. bind_inv H. bind_inv H.
      apply store_inv in E1 as [Hi ->].
      rewrite Nat2Z.id in H.
      assert (Hcells : a0 = filledRow W b None).
      { apply make_length in E as Hmake. unfold make in E.
        destruct (W <? 0); [discriminate|]. injection E as <-.
        destruct b; [|now injection E0 as <-].
        apply store_inv in E0 as [_ ->]. reflexivity. }
      subst a0.
      apply IH in H as (Hl & Hout & Hin).
      rewrite length_insert in Hl. split; [exact Hl|].
      split.
      { intros k Hk. rewrite Hout by lia.
        apply list_lookup_insert_ne. lia. }
      intros k row Hk Hk'.
      destruct (Nat.eq_dec k (S i)) as [->|Hne].
      * rewrite Hout by lia. rewrite list_lookup_insert_eq by (unfold lenS in Hi; lia).
        assert (row = None) as -> by congruence.
        rewrite Nat.sub_diag. simpl. now rewrite andb_true_r.
      * rewrite (Hin k row ltac:(lia)) by (rewrite list_lookup_insert_ne by lia; exact Hk').
        do 3 f_equal.
        replace (S i - k)%nat with (S (i - k)) by lia.
        rewrite (take_S_r _ _ None) by (rewrite lookup_drop, <- Hrow; f_equal; lia).
        rewrite forallb_app. simpl. rewrite andb_true_r. f_equal.
        rewrite drop_insert_ge by lia. rewrite take_insert_ge by lia. reflexivity.
Qed.

(** X23. [fillEmptyLinesIfAnyWithTilde] keeps the number of rows, row 0 and
    every written row; a row from 1 on that was nil becomes a row of
    blanks as wide as the terminal, headed by a tilde exactly when every
    row below it was nil too.  With a terminal at least one column wide it
    returns on every frame. *)
Theorem tilde_marks_rows_below_the_text (e : Editor) (fr : TextFrame) :
  1 <= dimX e →
  ∃ fr', fillEmptyLinesIfAnyWithTilde e fr = Ret fr'
         ∧ length fr' = length fr
         ∧ fr' !! 0%nat = fr !! 0%nat
         ∧ ∀ (k : nat) (row : option (list Z)), (1 <= k)%nat → fr !! k = Some row →
             fr' !! k
             = Some (Some (filledRow (dimX e) (forallb isNil (drop (S k) fr)) row)).
Proof.
  intros HW. unfold fillEmptyLinesIfAnyWithTilde.
  destruct (tildeLoop_Ret (dimX e) (Nat.pred (length fr)) true fr HW) as [fr' H];
    [destruct fr; simpl; lia|].
  exists fr'. split; [exact H|].
  apply tildeLoop_spec in H as (Hl & Hout & Hin).
  split; [exact Hl|]. split; [apply Hout; lia|].
  intros k row Hk Hrow. assert (Hlt := lookup_lt_Some _ _ _ Hrow).
  rewrite (Hin k row ltac:(lia) Hrow). simpl andb.
  rewrite take_ge by (rewrite length_drop; lia). reflexivity.
Qed.

Lemma tilde_marks_rows_below_the_text_witness :
  ∃ fr', fillEmptyLinesIfAnyWithTilde (insertEditor ["ab"]%string 0 0)
           [Some [97; 98; 0; 0; 0; 0; 0; 0; 0; 0]; None; Some (blankRow 10); None] = Ret fr'
         ∧ fr' !! 1%nat = Some (Some (blankRow 10))
         ∧ fr' !! 3%nat = Some (Some (tildeRow 10)).
Proof.
  destruct (tilde_marks_rows_below_the_text (insertEditor ["ab"]%string 0 0)
              [Some [97; 98; 0; 0; 0; 0; 0; 0; 0; 0]; None; Some (blankRow 10); None]
              ltac:(unfold dimX; simpl; lia))
    as (fr' & H & _ & _ & Hrows).
  exists fr'. split; [exact H|]. split.
  - exact (Hrows 1%nat None ltac:(lia) eq_refl).
  - exact (Hrows 3%nat None ltac:(lia) eq_refl).
Defined.

(** *** Whole sessions *)

(** X24. With a terminal at least one column wide every loop a key press
    enters comes to its end: a sequence of key presses returns, panics or
    exits, and never hangs. *)
Theorem key_presses_terminate (W : string → list string → option string)
    (events : list Event) (e : Editor) :
  1 <= dimX e → ends (handleEvents W events e).
Proof.
  revert e. induction events as [|event rest IH]; intros e HW.
  - apply ends_Ret.
  - simpl. apply ends_bind; [now apply handleEvent_ends|].
    intros e1 He1. apply IH.
    apply handleEvent_frame in He1 as (_ & _ & _ & _ & Hd & _).
    unfold dimX in *. now rewrite Hd.
Qed.

Lemma key_presses_terminate_witness :
  ends (handleEvents saveOk [typed 120; enterKey; press KeyUp; backspaceKey]
          (insertEditor ["abcdefghijkl"; "ef"]%string 1 0)).
Proof.
  apply key_presses_terminate. unfold dimX. simpl. lia.
Defined.

(** What [NewEditor] starts from: the lines read, or one empty line when
    the file could not be read. *)
Lemma NewEditor_start (f : string) (lines : option (list string)) (dim : Vertex)
    (th : option theme.Theme) (e : Editor) :
  NewEditor f lines dim th = Ret e →
  dataBuffer e = match lines with
                 | None => [EmptyString]
                 | Some ls => ls
                 end
  ∧ cursorPos e = mkVertex 0 0 ∧ currentMode e = MODE_NORMAL
  ∧ isDirty e = false ∧ fileName e = f ∧ theme e = th
  ∧ ScreenDim (screen e) = dim ∧ firstLineInFrame e = 0
  ∧ currentCommand e = EmptyString.
Proof.
  unfold NewEditor. intros H.
  destruct lines as [ls|]; cbv zeta in H; bind_inv H; bind_inv H; injection H as <-;
    apply syncTextFrame_same in E as [(Hm1 & _ & Hf1 & Hb1 & Hc1 & Hcmd1 & Hd1 & Ht1 & Hs1) Hw1];
    apply syncCursor_same in E0 as [(Hm2 & _ & Hf2 & Hb2 & Hc2 & Hcmd2 & Hd2 & Ht2 & Hs2) Hw2];
    destruct (syncStatusBar_same a0) as ((Hf3 & Hb3 & Hd3 & Ht3 & Hs3) & Hm3 & Hc3 & Hcmd3 & _);
    simpl in *;
    assert (Hw3 : firstLineInFrame (syncStatusBar a0) = firstLineInFrame a0)
      by (unfold syncStatusBar; now destruct (theme.ResolveGroup _ _));
    repeat split; congruence.
Qed.

Lemma NewEditor_on_no_lines_state (f : string) (dim : Vertex)
    (th : option theme.Theme) :
  NewEditor f (Some []) dim th = Panic.
Proof.
  unfold NewEditor. cbv zeta. unfold syncTextFrame.
  rewrite drawTextFrame_outside; [reflexivity|].
  unfold getLinesCount, lenS. simpl. lia.
Qed.

(** X25. A file read as no lines at all makes [NewEditor] panic, whatever the
    terminal: the first redraw reads line 0 of the buffer. *)
Theorem NewEditor_on_no_lines_panics (f : string) (dim : Vertex)
    (th : option theme.Theme) :
  NewEditor f (Some []) dim th = Panic.
Proof.
  unfold NewEditor. cbv zeta. unfold syncTextFrame.
  rewrite drawTextFrame_outside; [reflexivity|].
  unfold getLinesCount, lenS. simpl. lia.
Qed.

(** X26. [NewEditor] opens a file whose lines are narrower than the terminal,
    and a file that cannot be read as a buffer of one empty line.  The
    editor starts in Normal mode, clean, with the cursor at the origin
    and the window at the first line. *)
Theorem NewEditor_opens_narrow_file (f : string) (lines : option (list string))
    (dim : Vertex) (th : option theme.Theme) :
  1 <= X dim → 2 <= Y dim → lines ≠ Some [] →
  (∀ ls, lines = Some ls → narrow (X dim) ls) →
  ∃ e, NewEditor f lines dim th = Ret e
       ∧ dataBuffer e = match lines with
                        | None => [EmptyString]
                        | Some ls => ls
                        end
       ∧ cursorPos e = mkVertex 0 0 ∧ currentMode e = MODE_NORMAL
       ∧ isDirty e = false ∧ fileName e = f ∧ firstLineInFrame e = 0.
Proof.
  intros HW HH Hne Hn.
  assert (Hret : ∃ e, NewEditor f lines dim th = Ret e).
  { unfold NewEditor.
    set (buf := match lines with
                | None => [EmptyString]
                | Some ls => ls
                end).
    assert (Hbuf : narrow (X dim) buf ∧ (1 <= length buf)%nat).
    { subst buf. destruct lines as [[|l ls]|].
      - contradiction.
      - split; [now apply Hn | simpl; lia].
      - split; [|simpl; lia]. repeat constructor. unfold len. simpl. lia. }
    destruct Hbuf as [Hnarrow Hlen].
    assert (Hgo : ∀ status,
              ∃ e, (e1 ← syncTextFrame false
                            (mkEditor MODE_NORMAL status f buf 0 (mkVertex 0 0)
                               EmptyString CURSOR_UP 0 0 (NewScreen dim) false th);
                    e2 ← syncCursor e1; mret (syncStatusBar e2)) = Ret e).
    { intros status.
      destruct (redraw_narrow false
                  (mkEditor MODE_NORMAL status f buf 0 (mkVertex 0 0)
                     EmptyString CURSOR_UP 0 0 (NewScreen dim) false th))
        as [e1 He1]; try assumption.
      { unfold getLinesCount, lenS. simpl. lia. }
      { unfold getLinesCount, lenS. simpl. lia. }
      rewrite He1, bind_Ret.
      apply syncTextFrame_same in He1 as [(_ & _ & _ & Hb & Hc & _ & _ & _ & Hd) Hf].
      simpl in Hb, Hc, Hd, Hf.
      destruct (syncCursor_narrow e1) as [e2 He2];
        try (unfold dimX, dimY, getLinesCount, lenS in *; rewrite ?Hd, ?Hb, ?Hc, ?Hf;
             simpl; (assumption || lia)).
      rewrite He2. simpl. eauto. }
    subst buf. destruct lines as [ls|]; cbv zeta; apply Hgo. }
  destruct Hret as [e He]. exists e. split; [exact He|].
  apply NewEditor_start in He as (Hb & Hc & Hm & Hd & Hf & _ & _ & Hw & _).
  repeat split; assumption.
Qed.

Lemma NewEditor_opens_narrow_file_witness :
  ∃ e, NewEditor "f.txt" None (mkVertex 10 5) None = Ret e
       ∧ dataBuffer e = [EmptyString] ∧ cursorPos e = mkVertex 0 0.
Proof.
  destruct (NewEditor_opens_narrow_file "f.txt" None (mkVertex 10 5) None
              ltac:(simpl; lia) ltac:(simpl; lia) ltac:(discriminate)
              ltac:(intros ls Hls; discriminate Hls))
    as (e & He & Hb & Hc & _).
  exists e. split; [exact He|]. split; assumption.
Defined.

(** X27. In every session, from the opening of the file on, the buffer has at
    least one line, the cursor's row is the index of one of its lines and
    the column is not negative; file name, theme and terminal size are
    those of the start. *)
Theorem started_session_keeps_cursor_on_a_row
    (W : string → list string → option string) (f : string)
    (lines : option (list string)) (dim : Vertex) (th : option theme.Theme)
    (events : list Event) (e0 e : Editor) :
  NewEditor f lines dim th = Ret e0 →
  handleEvents W events e0 = Ret e →
  cursorOnRow e ∧ fileName e = f ∧ theme e = th ∧ ScreenDim (screen e) = dim.
Proof.
  intros H0 H.
  assert (Hnonempty : lines ≠ Some []).
  { intros ->. rewrite NewEditor_on_no_lines_state in H0. discriminate H0. }
  apply NewEditor_start in H0 as (Hb & Hc & _ & _ & Hf & Ht & Hd & _).
  assert (Hrow : cursorOnRow e0).
  { unfold cursorOnRow, getLinesCount, lenS. rewrite Hb, Hc. simpl.
    destruct lines as [[|l ls]|]; [contradiction | simpl; lia | simpl; lia]. }
  split; [exact (handleEvents_onRow W events e0 e Hrow H)|].
  apply handleEvents_session in H as (Hf' & Ht' & Hd' & _).
  repeat split; congruence.
Qed.

Lemma started_session_keeps_cursor_on_a_row_witness :
  ∃ e0 e, NewEditor "f.txt" (Some ["ab"; "cd"]%string) (mkVertex 10 5) None = Ret e0
          ∧ handleEvents saveOk [typed 71; typed 105; backspaceKey] e0 = Ret e
          ∧ cursorOnRow e.
Proof.
  destruct (NewEditor "f.txt" (Some ["ab"; "cd"]%string) (mkVertex 10 5) None)
    as [e0| | |] eqn:H0; try (vm_compute in H0; discriminate H0).
  destruct (handleEvents saveOk [typed 71; typed 105; backspaceKey] e0)
    as [e| | |] eqn:H;
    try (exfalso; vm_compute in H0; injection H0 as <-; vm_compute in H;
         discriminate H).
  exists e0, e. split; [reflexivity|]. split; [exact H|].
  exact (proj1 (started_session_keeps_cursor_on_a_row saveOk "f.txt"
                  (Some ["ab"; "cd"]%string) (mkVertex 10 5) None
                  [typed 71; typed 105; backspaceKey] e0 e H0 H)).
Defined.

(** * The colour scheme reader *)

(** *** Arguments of a call *)

Lemma splitLoop_argument (p : string) :
  ∀ (q q' : bool) (rest b : string) (out : list string),
  scanArgument p q = Some q' →
  scheme.splitLoop (p +:+ rest) b q out = scheme.splitLoop rest (b +:+ p) q' out.
Proof.
  induction p as [|ch p IH]; intros q q' rest b out H; simpl in H.
  - injection H as <-. now rewrite append_empty, append_empty_r.
  - rewrite append_cons. simpl scheme.splitLoop.
    replace (b +:+ String ch p) with ((b +:+ String ch EmptyString) +:+ p)
      by (now rewrite append_assoc, append_cons, append_empty).
    destruct (Ascii.eqb ch scheme.quoteByte); [now apply IH|].
    destruct (Ascii.eqb ch scheme.commaByte); [|now apply IH].
    destruct q; [now apply IH | discriminate H].
Qed.

Lemma splitLoop_commaEach (ps : list string) (last : string) :
  Forall isArgument ps → isArgument last →
  ∀ out : list string,
  scheme.splitLoop (commaEach ps +:+ last) EmptyString false out
  = out ++ map gostrings.TrimSpace ps
    ++ (if String.eqb (gostrings.TrimSpace last) EmptyString then []
        else [gostrings.TrimSpace last]).
Proof.
  intros Hps Hlast. induction Hps as [|p ps Hp Hps IH]; intros out.
  - simpl commaEach. rewrite append_empty.
    rewrite <- (append_empty_r last) at 1.
    rewrite (splitLoop_argument last false false EmptyString EmptyString out Hlast).
    rewrite append_empty. simpl.
    destruct (String.eqb _ _); [now rewrite app_nil_r | reflexivity].
  - simpl commaEach. rewrite !append_assoc.
    rewrite (splitLoop_argument p false false _ EmptyString out Hp).
    rewrite append_empty, append_cons, append_empty. simpl scheme.splitLoop.
    rewrite IH. simpl map. now rewrite <- app_assoc.
Qed.

(** X28. [splitArguments] splits at the commas that are outside single quotes
    and at no other place: on arguments written one after the other with
    a comma after each but the last, it gives the arguments in order,
    each trimmed by [strings.TrimSpace] and with its quotes kept.  An
    empty argument is kept between two commas and dropped at the end. *)
Theorem splitArguments_splits_at_commas_outside_quotes
    (ps : list string) (last : string) :
  Forall isArgument ps → isArgument last →
  scheme.splitArguments (commaEach ps +:+ last)
  = map gostrings.TrimSpace ps
    ++ (if String.eqb (gostrings.TrimSpace last) EmptyString then []
        else [gostrings.TrimSpace last]).
Proof.
  intros Hps Hlast. unfold scheme.splitArguments.
  now rewrite (splitLoop_commaEach ps last Hps Hlast []).
Qed.

Lemma splitArguments_splits_at_commas_outside_quotes_witness :
  scheme.splitArguments "'Normal', '#ff,ff' ,, 231 ,"
  = ["'Normal'"; "'#ff,ff'"; ""; "231"]%string.
Proof.
  apply (splitArguments_splits_at_commas_outside_quotes
           ["'Normal'"; " '#ff,ff' "; ""; " 231 "]%string "").
  - repeat constructor.
  - reflexivity.
Defined.

(** *** Trimming *)

Lemma allBytes_impl (f g : ascii → bool) (s : string) :
  (∀ a, f a = true → g a = true) → allBytes f s = true → allBytes g s = true.
Proof.
  intros Hfg. induction s as [|a s IH]; [reflexivity|]. simpl.
  rewrite !andb_true_iff. intros [Ha Hs]. auto.
Qed.

Lemma allBytes_get (f : ascii → bool) (s : string) :
  allBytes f s = true → ∀ (i : nat) (c : ascii), String.get i s = Some c → f c = true.
Proof.
  induction s as [|a s IH]; intros H i c Hget; [destruct i; discriminate|].
  simpl in H. apply andb_true_iff in H as [Ha Hs].
  destruct i as [|i]; simpl in Hget; [now injection Hget as <- | eauto].
Qed.

Lemma allBytes_append (f : ascii → bool) (s t : string) :
  allBytes f (s +:+ t) = allBytes f s && allBytes f t.
Proof.
  induction s as [|a s IH]; [now rewrite append_empty|].
  rewrite append_cons. simpl. now rewrite IH, andb_assoc.
Qed.

Lemma get_within (s : string) (i : nat) :
  (i < String.length s)%nat → ∃ c, String.get i s = Some c.
Proof.
  revert i. induction s as [|a s IH]; intros i Hi; [simpl in Hi; lia|].
  destruct i as [|i]; simpl; [eauto|]. apply IH. simpl in Hi. lia.
Qed.

(** [strings.TrimSpace] leaves a word as it is. *)
Lemma TrimSpace_word (w : string) :
  allBytes wordByte w = true → gostrings.TrimSpace w = w.
Proof.
  destruct w as [|a rest]; [reflexivity|]. intros Hw.
  assert (Ha : wordByte a = true) by (simpl in Hw; now apply andb_true_iff in Hw).
  unfold wordByte in Ha. apply andb_true_iff in Ha as [Hlt Hsp].
  apply negb_true_iff in Hsp. apply Z.ltb_lt in Hlt.
  unfold gostrings.TrimSpace; fold gostrings.TrimSpace.
  destruct (Z.geb_spec (byteZ a) 128); [lia|]. rewrite Hsp.
  simpl String.length. unfold gostrings.trimEnd; fold gostrings.trimEnd.
  destruct (get_within (String a rest) (String.length rest)) as [c Hc];
    [simpl; lia|].
  assert (Hwc := allBytes_get _ _ Hw _ _ Hc).
  unfold gostrings.byteAt. rewrite Nat2Z.id, Hc.
  unfold wordByte in Hwc. apply andb_true_iff in Hwc as [Hclt Hcsp].
  apply negb_true_iff in Hcsp. apply Z.ltb_lt in Hclt.
  destruct (Z.geb_spec (byteZ c) 128); [lia|]. rewrite Hcsp.
  unfold gostrings.upto.
  exact (substring_all (String a rest)).
Qed.

Lemma trimLeftByte_none (s : string) (c : ascii) :
  allBytes (fun a => negb (Ascii.eqb a c)) s = true → gostrings.trimLeftByte s c = s.
Proof.
  destruct s as [|a s]; [reflexivity|]. simpl. intros H.
  apply andb_true_iff in H as [Ha _]. apply negb_true_iff in Ha. now rewrite Ha.
Qed.

Lemma trimRightByte_none (s : string) (c : ascii) :
  allBytes (fun a => negb (Ascii.eqb a c)) s = true → gostrings.trimRightByte s c = s.
Proof.
  induction s as [|a s IH]; [reflexivity|]. simpl. intros H.
  apply andb_true_iff in H as [Ha Hs]. apply negb_true_iff in Ha.
  rewrite (IH Hs), Ha. now destruct s.
Qed.

Lemma trimRightByte_last (s : string) (c : ascii) :
  gostrings.trimRightByte (s +:+ String c EmptyString) c = gostrings.trimRightByte s c.
Proof.
  induction s as [|a s IH].
  - rewrite append_empty. simpl. now rewrite Ascii.eqb_refl.
  - rewrite append_cons. simpl. now rewrite IH.
Qed.

(** [strings.Trim] with the quote as cutset leaves a text without quotes
    and takes the quotes off a quoted one. *)
Lemma Trim_none (s : string) :
  allBytes notQuote s = true → gostrings.Trim s scheme.quoteByte = s.
Proof.
  intros H. unfold gostrings.Trim.
  rewrite trimRightByte_none by exact H. now apply trimLeftByte_none.
Qed.

Lemma Trim_quoted (s : string) :
  allBytes notQuote s = true →
  gostrings.Trim ("'" +:+ s +:+ "'") scheme.quoteByte = s.
Proof.
  intros H. unfold gostrings.Trim. rewrite append_cons, append_empty.
  change (String "'" (s +:+ "'"))
    with (String scheme.quoteByte (s +:+ String scheme.quoteByte EmptyString)).
  simpl gostrings.trimRightByte.
  rewrite trimRightByte_last, trimRightByte_none by exact H.
  destruct s as [|a s]; [reflexivity|].
  change (gostrings.trimLeftByte (String scheme.quoteByte (String a s)) scheme.quoteByte)
    with (if Ascii.eqb scheme.quoteByte scheme.quoteByte
          then gostrings.trimLeftByte (String a s) scheme.quoteByte
          else String scheme.quoteByte (String a s)).
  rewrite Ascii.eqb_refl. now apply (trimLeftByte_none (String a s)).
Qed.

Lemma TrimSpace_quoted (s : string) :
  allBytes wordByte s = true →
  gostrings.TrimSpace ("'" +:+ s +:+ "'") = "'" +:+ s +:+ "'".
Proof.
  intros H. apply TrimSpace_word.
  rewrite append_cons, append_empty. simpl. now rewrite allBytes_append, H.
Qed.

(** What [unquote] after [strings.TrimSpace] makes of a word without
    quotes, bare and quoted. *)
Lemma unquote_word (s : string) :
  allBytes wordByte s = true → allBytes notQuote s = true →
  scheme.unquote (gostrings.TrimSpace s) = s
  ∧ scheme.unquote (gostrings.TrimSpace ("'" +:+ s +:+ "'")) = s.
Proof.
  intros Hw Hq. unfold scheme.unquote. split.
  - rewrite !(TrimSpace_word s Hw). now apply Trim_none.
  - rewrite !(TrimSpace_quoted s Hw). now apply Trim_quoted.
Qed.

(** *** Colours *)

Lemma hexVal_byte (a : ascii) (h : Z) :
  gostrings.hexVal a = Some h →
  wordByte a = true ∧ notQuote a = true ∧ 0 <= h < 16
  ∧ Ascii.eqb a "#" = false.
Proof.
  destruct a as [[] [] [] [] [] [] [] []]; intros H; vm_compute in H;
    try discriminate H; injection H as <-; vm_compute; intuition congruence.
Qed.

Lemma digit_byte (a : ascii) :
  isDigit a = true →
  wordByte a = true ∧ notQuote a = true ∧ Ascii.eqb a "#" = false
  ∧ gostrings.foldsTo a 78 = false.
Proof.
  destruct a as [[] [] [] [] [] [] [] []]; intros H; vm_compute in H;
    try discriminate H; vm_compute; auto.
Qed.

Lemma parseDigits_allDigits (s : string) : ∀ (acc n : Z),
  parseDigits s acc = Some n → allDigits s = true.
Proof.
  induction s as [|a s IH]; intros acc n H; [reflexivity|].
  simpl in H. unfold digitVal in H. simpl. unfold isDigit.
  destruct (between 48 57 (byteZ a)); [|discriminate H]. simpl. eauto.
Qed.

Lemma allDigits_word (s : string) :
  allDigits s = true → allBytes wordByte s = true ∧ allBytes notQuote s = true.
Proof.
  induction s as [|a s IH]; [auto|]. simpl. rewrite !andb_true_iff.
  intros [Ha Hs]. destruct (digit_byte a Ha) as (Hw & Hq & _).
  destruct (IH Hs). auto.
Qed.

(** A text [strconv.Atoi] accepts is a sign or a digit followed by
    digits. *)
Lemma Atoi_bytes (v : string) (n : Z) :
  Atoi v = Some n →
  v ≠ EmptyString ∧ allBytes wordByte v = true ∧ allBytes notQuote v = true
  ∧ gostrings.EqualFoldNONE v = false ∧ String.prefix "#" v = false.
Proof.
  unfold Atoi. destruct v as [|a rest]; [discriminate|]. intros H.
  assert (Hcase : (isDigit a = true ∨ a = "-"%char ∨ a = "+"%char)
                  ∧ allDigits rest = true).
  { destruct (Ascii.eqb_spec a "-") as [->|Hm].
    - destruct rest as [|b rest]; [discriminate H|].
      destruct (parseDigits (String b rest) 0) eqn:Hp; [|discriminate H].
      apply parseDigits_allDigits in Hp. auto.
    - destruct (Ascii.eqb_spec a "+") as [->|Hp'].
      + destruct rest as [|b rest]; [discriminate H|].
        destruct (parseDigits (String b rest) 0) eqn:Hp; [|discriminate H].
        apply parseDigits_allDigits in Hp. auto.
      + destruct (parseDigits (String a rest) 0) eqn:Hp; [|discriminate H].
        apply parseDigits_allDigits in Hp. simpl in Hp.
        apply andb_true_iff in Hp as [Ha Hr]. auto. }
  destruct Hcase as [Ha Hrest].
  destruct (allDigits_word rest Hrest) as [Hw Hq].
  split; [discriminate|].
  destruct Ha as [Ha|[->| ->]].
  - destruct (digit_byte a Ha) as (Haw & Haq & Hah & Hfold).
    assert (Hpre : String.prefix "#" (String a rest) = false).
    { destruct (String.prefix "#" (String a rest)) eqn:Hp; [|reflexivity].
      apply prefix_correct in Hp. simpl in Hp. injection Hp as ->.
      discriminate Hah. }
    assert (Hf : gostrings.EqualFoldNONE (String a rest) = false).
    { unfold gostrings.EqualFoldNONE.
      destruct rest as [|b [|c [|d [|x rest']]]]; try reflexivity.
      now rewrite Hfold. }
    rewrite Hpre, Hf. simpl. rewrite Haw, Haq, Hw, Hq. auto.
  - simpl. rewrite Hw, Hq. repeat split.
    unfold gostrings.EqualFoldNONE.
    destruct rest as [|b [|c [|d [|x rest']]]]; reflexivity.
  - simpl. rewrite Hw, Hq. repeat split.
    unfold gostrings.EqualFoldNONE.
    destruct rest as [|b [|c [|d [|x rest']]]]; reflexivity.
Qed.

(** X29. [parseColorArgument] on a bare or quoted text [v] without spaces and
    quotes of its own reads [#] followed by six hexadecimal digits, in
    either case, as the RGB colour of the three bytes they write, and a
    text that [strconv.Atoi] accepts as the palette index it denotes,
    sign included. *)
Theorem parseColorArgument_reads_hex_and_index :
  (∀ (a1 a2 a3 a4 a5 a6 : ascii) (h1 h2 h3 h4 h5 h6 : Z),
     gostrings.hexVal a1 = Some h1 → gostrings.hexVal a2 = Some h2 →
     gostrings.hexVal a3 = Some h3 → gostrings.hexVal a4 = Some h4 →
     gostrings.hexVal a5 = Some h5 → gostrings.hexVal a6 = Some h6 →
     let v := String "#" (String a1 (String a2 (String a3 (String a4
                (String a5 (String a6 EmptyString)))))) in
     let c := scheme.colorRGB (16 * h1 + h2) (16 * h3 + h4) (16 * h5 + h6) in
     scheme.parseColorArgument v = c
     ∧ scheme.parseColorArgument ("'" +:+ v +:+ "'") = c)
  ∧ (∀ (v : string) (n : Z),
       Atoi v = Some n →
       scheme.parseColorArgument v = scheme.colorIndex n
       ∧ scheme.parseColorArgument ("'" +:+ v +:+ "'") = scheme.colorIndex n).
Proof.
  split.
  - intros a1 a2 a3 a4 a5 a6 h1 h2 h3 h4 h5 h6 H1 H2 H3 H4 H5 H6 v c.
    destruct (hexVal_byte _ _ H1) as (W1 & Q1 & B1 & _).
    destruct (hexVal_byte _ _ H2) as (W2 & Q2 & B2 & _).
    destruct (hexVal_byte _ _ H3) as (W3 & Q3 & B3 & _).
    destruct (hexVal_byte _ _ H4) as (W4 & Q4 & B4 & _).
    destruct (hexVal_byte _ _ H5) as (W5 & Q5 & B5 & _).
    destruct (hexVal_byte _ _ H6) as (W6 & Q6 & B6 & _).
    assert (Hw : allBytes wordByte v = true)
      by (subst v; simpl; now rewrite W1, W2, W3, W4, W5, W6).
    assert (Hq : allBytes notQuote v = true)
      by (subst v; simpl; now rewrite Q1, Q2, Q3, Q4, Q5, Q6).
    destruct (unquote_word v Hw Hq) as [Hbare Hquoted].
    assert (Hv : (let u := v in
                  if String.eqb u EmptyString || gostrings.EqualFoldNONE u
                  then scheme.colorNone
                  else if String.prefix "#" u && (len u =? 7) then
                    match gostrings.ParseUintHex8 (substring 1 2 u),
                          gostrings.ParseUintHex8 (substring 3 2 u),
                          gostrings.ParseUintHex8 (substring 5 2 u) with
                    | Some r, Some g, Some b => scheme.colorRGB r g b
                    | _, _, _ => scheme.colorNone
                    end
                  else match Atoi u with
                       | Some n => scheme.colorIndex n
                       | None => scheme.colorNone
                       end) = c).
    { subst v c. cbv zeta. simpl String.eqb. simpl gostrings.EqualFoldNONE.
      simpl orb. cbv iota. simpl String.prefix. simpl substring.
      unfold gostrings.ParseUintHex8, gostrings.parseHex.
      rewrite H1, H2, H3, H4, H5, H6.
      destruct (Z.leb_spec ((0 * 16 + h1) * 16 + h2) 255); [|lia].
      destruct (Z.leb_spec ((0 * 16 + h3) * 16 + h4) 255); [|lia].
      destruct (Z.leb_spec ((0 * 16 + h5) * 16 + h6) 255); [|lia].
      simpl andb. cbv iota. unfold scheme.colorRGB. f_equal; lia. }
    unfold scheme.parseColorArgument. rewrite Hbare, Hquoted. split; exact Hv.
  - intros v n Ha.
    destruct (Atoi_bytes v n Ha) as (Hne & Hw & Hq & Hfold & Hprefix).
    destruct (unquote_word v Hw Hq) as [Hbare Hquoted].
    unfold scheme.parseColorArgument. rewrite Hbare, Hquoted. cbv zeta.
    rewrite Hfold, Hprefix, Ha.
    destruct v as [|a rest]; [contradiction|]. split; reflexivity.
Qed.

Lemma parseColorArgument_reads_hex_and_index_witness :
  scheme.parseColorArgument "'#fFa001'" = scheme.colorRGB 255 160 1
  ∧ scheme.parseColorArgument "-231" = scheme.colorIndex (-231).
Proof.
  split.
  - exact (proj2 (proj1 parseColorArgument_reads_hex_and_index
                    "f"%char "F"%char "a"%char "0"%char "0"%char "1"%char
                    15 15 10 0 0 1 eq_refl eq_refl eq_refl eq_refl eq_refl eq_refl)).
  - exact (proj1 (proj2 parseColorArgument_reads_hex_and_index "-231"%string (-231)
                    eq_refl)).
Defined.

(** *** Fields and links *)

Lemma length_append (a b : string) :
  String.length (a +:+ b) = (String.length a + String.length b)%nat.
Proof.
  induction a as [|c a IH]; [now rewrite append_empty|].
  rewrite append_cons. simpl. now rewrite IH.
Qed.

Lemma from_one (a : ascii) (s : string) : gostrings.from 1 (String a s) = s.
Proof.
  unfold gostrings.from. simpl. rewrite Nat.sub_0_r. apply substring_all.
Qed.

Lemma upto_one (a : ascii) (s : string) :
  gostrings.upto 1 (String a s) = String a EmptyString.
Proof. unfold gostrings.upto. now destruct s. Qed.

Lemma wordByte_decode (a : ascii) (s : string) :
  wordByte a = true →
  gostrings.DecodeRuneInString (String a s) = (byteZ a, 1)
  ∧ gostrings.IsSpace (byteZ a) = false.
Proof.
  unfold wordByte. rewrite andb_true_iff, negb_true_iff, Z.ltb_lt.
  intros [Hlt Hsp]. split.
  - simpl. destruct (Z.ltb_spec (byteZ a) 128); [reflexivity | lia].
  - unfold gostrings.IsSpace, gostrings.asciiSpace in *.
    destruct (Z.leb_spec (byteZ a) 255); [|lia].
    apply orb_false_iff in Hsp as [H1 H2]. rewrite H1, H2. simpl.
    destruct (Z.eqb_spec (byteZ a) 133); [lia|].
    destruct (Z.eqb_spec (byteZ a) 160); [lia | reflexivity].
Qed.

(** The loop of [strings.Fields] reads a word into the field at hand. *)
Lemma fieldsLoop_word (w : string) :
  allBytes wordByte w = true →
  ∀ (k : nat) (rest f : string) (out : list string),
  gostrings.fieldsLoop (String.length w + k) (w +:+ rest) (Some f) out
  = gostrings.fieldsLoop k rest (Some (f +:+ w)) out.
Proof.
  induction w as [|a w IH]; intros Hw k rest f out.
  - now rewrite append_empty, append_empty_r.
  - simpl in Hw. apply andb_true_iff in Hw as [Ha Hw].
    rewrite append_cons. simpl String.length. simpl Nat.add.
    unfold gostrings.fieldsLoop; fold gostrings.fieldsLoop.
    destruct (wordByte_decode a (w +:+ rest) Ha) as [-> ->].
    change (Z.to_nat 1) with 1%nat. rewrite from_one.
    rewrite upto_one.
    rewrite (IH Hw). now rewrite append_assoc, append_cons, append_empty.
Qed.

Lemma fieldsLoop_first_word (a : ascii) (w : string) :
  allBytes wordByte (String a w) = true →
  ∀ (k : nat) (rest : string) (out : list string),
  gostrings.fieldsLoop (S (String.length w) + k) (String a w +:+ rest) None out
  = gostrings.fieldsLoop k rest (Some (String a w)) out.
Proof.
  intros Hw k rest out. simpl in Hw. apply andb_true_iff in Hw as [Ha Hw].
  rewrite append_cons. simpl Nat.add.
  unfold gostrings.fieldsLoop; fold gostrings.fieldsLoop.
  destruct (wordByte_decode a (w +:+ rest) Ha) as [-> ->].
  change (Z.to_nat 1) with 1%nat. rewrite from_one.
  rewrite upto_one.
  rewrite (fieldsLoop_word w Hw). reflexivity.
Qed.

Lemma fieldsLoop_unwords (ws : list string) :
  Forall isWord ws →
  ∀ (k : nat) (out : list string),
  gostrings.fieldsLoop (S (String.length (unwords ws)) + k) (unwords ws) None out
  = out ++ ws.
Proof.
  induction 1 as [|w ws [Hne Hw] Hws IH]; intros k out.
  - simpl. now rewrite app_nil_r.
  - destruct w as [|a w]; [contradiction|].
    destruct ws as [|w2 ws].
    + simpl unwords. rewrite <- (append_empty_r (String a w)) at 2.
      simpl String.length.
      replace (S (S (String.length w)) + k)%nat
        with (S (String.length w) + S k)%nat by lia.
      rewrite (fieldsLoop_first_word a w Hw). reflexivity.
    + change (unwords (String a w :: w2 :: ws))
        with (String a w +:+ " " +:+ unwords (w2 :: ws)).
      set (u := unwords (w2 :: ws)) in *.
      rewrite length_append, length_append.
      change (String.length (String a w)) with (S (String.length w)).
      change (String.length " ") with 1%nat.
      replace (S (S (String.length w) + (1 + String.length u)) + k)%nat
        with (S (String.length w) + S (S (String.length u) + k))%nat by lia.
      rewrite (fieldsLoop_first_word a w Hw).
      rewrite append_cons, append_empty.
      unfold gostrings.fieldsLoop at 1; fold gostrings.fieldsLoop.
      change (gostrings.DecodeRuneInString (String " " u)) with (32, 1).
      change (gostrings.IsSpace 32) with true. cbv iota beta.
      change (Z.to_nat 1) with 1%nat. rewrite from_one.
      rewrite IH. now rewrite <- app_assoc.
Qed.

(** [strings.Fields] gives back the words written with single blanks
    between them. *)
Lemma Fields_unwords (ws : list string) :
  Forall isWord ws → gostrings.Fields (unwords ws) = ws.
Proof.
  intros Hws. unfold gostrings.Fields.
  rewrite <- (Nat.add_0_r (S (String.length (unwords ws)))).
  now rewrite (fieldsLoop_unwords ws Hws 0 []).
Qed.

Lemma hiLinkLoop_finds (a b : string) (post : list string) :
  ∀ (pre done : list string) (fuel : nat),
  "link"%string ∉ pre → (length pre < fuel)%nat →
  scheme.hiLinkLoop fuel (done ++ pre ++ "link"%string :: a :: b :: post) (lenS done)
  = (a, b, true).
Proof.
  induction pre as [|f pre IH]; intros done fuel Hpre Hfuel;
    (destruct fuel as [|fuel]; [simpl in Hfuel; lia|]).
  - simpl app. unfold scheme.hiLinkLoop.
    assert (Hlen : lenS (done ++ "link"%string :: a :: b :: post)
                   = lenS done + 3 + lenS post)
      by (unfold lenS; rewrite length_app; simpl; lia).
    rewrite Hlen.
    destruct (Z.ltb_spec (lenS done) (lenS done + 3 + lenS post - 2));
      [|unfold lenS in *; lia].
    replace (Z.to_nat (lenS done)) with (length done + 0)%nat
      by (unfold lenS; lia).
    replace (Z.to_nat (lenS done + 1)) with (length done + 1)%nat
      by (unfold lenS; lia).
    replace (Z.to_nat (lenS done + 2)) with (length done + 2)%nat
      by (unfold lenS; lia).
    rewrite !lookup_app_r by lia.
    replace (length done + 0 - length done)%nat with 0%nat by lia.
    replace (length done + 1 - length done)%nat with 1%nat by lia.
    replace (length done + 2 - length done)%nat with 2%nat by lia.
    simpl lookup. cbv iota beta.
    destruct (Z.ltb_spec (lenS done + 2) (lenS done + 3 + lenS post));
      [reflexivity | unfold lenS in *; lia].
  - apply not_elem_of_cons in Hpre as [Hf Hpre].
    set (l := done ++ (f :: pre) ++ "link"%string :: a :: b :: post).
    assert (Hlen : lenS l = lenS done + lenS pre + 4 + lenS post)
      by (unfold l, lenS; rewrite !length_app; simpl; lia).
    unfold scheme.hiLinkLoop; fold scheme.hiLinkLoop.
    rewrite Hlen.
    destruct (Z.ltb_spec (lenS done) (lenS done + lenS pre + 4 + lenS post - 2));
      [|unfold lenS in *; lia].
    assert (H0 : l !! Z.to_nat (lenS done) = Some f).
    { unfold l, lenS. rewrite Nat2Z.id. now apply list_lookup_middle. }
    destruct (lookup_lt_is_Some_2 l (Z.to_nat (lenS done + 1))) as [x1 H1];
      [unfold lenS in *; lia|].
    destruct (lookup_lt_is_Some_2 l (Z.to_nat (lenS done + 2))) as [x2 H2];
      [unfold lenS in *; lia|].
    rewrite H0, H1, H2.
    destruct (String.eqb_spec f "link") as [->|_]; [contradiction|]. simpl andb.
    cbv iota.
    replace (lenS done + 1) with (lenS (done ++ [f]))
      by (unfold lenS; rewrite length_app; simpl; lia).
    unfold l. replace (done ++ (f :: pre) ++ "link"%string :: a :: b :: post)
      with ((done ++ [f]) ++ pre ++ "link"%string :: a :: b :: post)
      by (now rewrite <- app_assoc).
    apply IH; [exact Hpre | simpl in Hfuel; lia].
Qed.

(** X30. [parseHiLink] on words separated by single blanks gives the two
    words that follow the first [link], whatever comes before and after;
    with fewer than three words it gives no link. *)
Theorem parseHiLink_reads_the_words_after_link :
  (∀ (pre post : list string) (a b : string),
     Forall isWord pre → "link"%string ∉ pre → isWord a → isWord b →
     Forall isWord post →
     scheme.parseHiLink (unwords (pre ++ "link"%string :: a :: b :: post))
     = (a, b, true))
  ∧ (∀ ws : list string,
       Forall isWord ws → (length ws < 3)%nat →
       scheme.parseHiLink (unwords ws) = (EmptyString, EmptyString, false)).
Proof.
  split.
  - intros pre post a b Hpre Hno Ha Hb Hpost. unfold scheme.parseHiLink.
    rewrite Fields_unwords.
    + apply (hiLinkLoop_finds a b post pre [] _ Hno).
      rewrite length_app. simpl. lia.
    + apply Forall_app. split; [exact Hpre|].
      repeat (apply Forall_cons; split); try assumption.
      split; [discriminate | reflexivity].
  - intros ws Hws Hlen. unfold scheme.parseHiLink. rewrite (Fields_unwords ws Hws).
    destruct ws as [|w1 ws]; [reflexivity|]. simpl length. simpl scheme.hiLinkLoop.
    destruct (Z.ltb_spec 0 (lenS (w1 :: ws) - 2)); [|reflexivity].
    unfold lenS in *. simpl in *. lia.
Qed.

Lemma parseHiLink_reads_the_words_after_link_witness :
  scheme.parseHiLink "hi! link Comment Normal" = ("Comment", "Normal", true)%string
  ∧ scheme.parseHiLink "hi link" = (EmptyString, EmptyString, false).
Proof.
  split.
  - apply (proj1 parseHiLink_reads_the_words_after_link ["hi!"%string] []
             "Comment"%string "Normal"%string).
    + repeat constructor; discriminate.
    + intros H. apply elem_of_cons in H as [H|H]; [discriminate H|].
      now apply elem_of_nil in H.
    + split; [discriminate | reflexivity].
    + split; [discriminate | reflexivity].
    + constructor.
  - apply (proj2 parseHiLink_reads_the_words_after_link ["hi"; "link"]%string).
    + repeat constructor; discriminate.
    + simpl. lia.
Defined.
